(** * LaunchDarkly React Native client factory: a shallow embedding

    The repository holds two iterations of one factory function,
    [LaunchDarklyReactNativeClientFactory]: [src/src/factory.tsx] (module
    [FactoryTsx] below) and [src/unnamed/part_003] (module [Part003]).
    The factory closes over a flag registry [featureFlags] and returns a
    context provider, two hooks and escape-hatch accessors.

    Modelling conventions.
    - A JavaScript value is a term of [value]; numbers are integers plus
      [VNaN] (the code never does arithmetic on them, only truthiness and
      nullish tests).
    - A JavaScript object used as a dictionary (the registry, a snapshot)
      is given by its own properties; its prototype is [Object.prototype],
      whose members a property read finds under every name the object
      does not have itself ([inherited]).
    - An omitted optional argument is [VUndefined], as in JavaScript.
    - A promise is described by the way it settles: [Return v] for a
      resolved promise, [Throw e] for a rejected one (and for a
      synchronous throw of a plain function).
    - The SDK client is external: a call to it is recorded, and the value
      it answers with is supplied by the environment. *)

From stdpp Require Import gmap strings list fin_maps pretty.
From Stdlib Require Import ZArith.

Set Default Proof Using "Type".
Open Scope string_scope.
Open Scope list_scope.
Open Scope nat_scope.

(** ** JavaScript values *)

#[warnings="-register-all"]
Inductive value : Type :=
| VUndefined
| VNull
| VBool (b : bool)
| VNum (n : Z)
| VNaN
| VStr (s : string)
| VObj (fields : list (string * value))
| VNative (name : string).
(** [VNative name] is the built-in object every plain object inherits
    from [Object.prototype] under the property [name]: a function (the
    [Object] constructor for [constructor]), or [Object.prototype] itself
    for [__proto__]. *)

(** What a [throw] carries: the thrown value ([throw 'text'] throws a
    string), or one of the built-in errors the code can raise. *)
Inductive exn : Type :=
| Thrown (v : value)
| TypeError
| SyntaxError.

Inductive outcome (A : Type) : Type :=
| Return (a : A)
| Throw (e : exn).
Arguments Return {A} a.
Arguments Throw {A} e.

(** [typeof v === 'string'] *)
Definition is_string (v : value) : bool :=
  match v with VStr _ => true | _ => false end.

(** [v === undefined || v === null], the test behind [??] and [?.]. *)
Definition nullish (v : value) : bool :=
  match v with VUndefined | VNull => true | _ => false end.

(** ToBoolean. *)
Definition truthy (v : value) : bool :=
  match v with
  | VUndefined | VNull | VNaN => false
  | VBool b => b
  | VNum n => negb (n =? 0)%Z
  | VStr s => negb (String.eqb s "")
  | VObj _ | VNative _ => true
  end.

(** [a ?? b]: the right operand is only evaluated (and can only throw)
    when the left one is nullish. *)
Definition coalesce (a b : outcome value) : outcome value :=
  match a with
  | Return v => if nullish v then b else Return v
  | Throw e => Throw e
  end.

(** [a || b] *)
Definition or_else (a b : outcome value) : outcome value :=
  match a with
  | Return v => if truthy v then Return v else b
  | Throw e => Throw e
  end.

(** Number::toString for an integer-valued number.  JavaScript prints
    the shortest decimal numeral that reads back as the same double: all
    the digits of a number below [2^53], fewer digits followed by zeros
    above it, and exponent notation from [1e21] on. *)

(** The integer denoted by a numeral of [k] significant digits that reads
    back as the double [a], if there is one: a multiple of [10^(D-k)] in
    the rounding interval of [a] (given by the doubles of its ends), the
    closer one of the two next to [a], the even one on a tie. *)
Definition shortest_candidate (a lo2 hi2 : Z) (closed : bool) (D k : nat)
    : option Z :=
  let p := (10 ^ Z.of_nat (D - k))%Z in
  let s0 := (a / p)%Z in
  let inside v :=
    if closed then (lo2 <=? 2 * v)%Z && (2 * v <=? hi2)%Z
    else (lo2 <? 2 * v)%Z && (2 * v <? hi2)%Z in
  let v0 := (s0 * p)%Z in
  let v1 := ((s0 + 1) * p)%Z in
  match inside v0, inside v1 with
  | true, true =>
      if (a - v0 <? v1 - a)%Z then Some v0
      else if (v1 - a <? a - v0)%Z then Some v1
      else if Z.even s0 then Some v0 else Some v1
  | true, false => Some v0
  | false, true => Some v1
  | false, false => None
  end.

Fixpoint shortest_from (a lo2 hi2 : Z) (closed : bool) (D k fuel : nat) : Z :=
  match fuel with
  | O => a
  | S fuel =>
      match shortest_candidate a lo2 hi2 closed D k with
      | Some v => v
      | None => shortest_from a lo2 hi2 closed D (S k) fuel
      end
  end.

(** The integer whose digits JavaScript prints for the positive
    integer-valued double [a]. *)
Definition shortest (a : Z) : Z :=
  if (a <? 2 ^ 53)%Z then a
  else
    let e := (Z.log2 a - 52)%Z in
    let m := Z.shiftr a e in
    let ulp := (2 ^ e)%Z in
    let hi2 := (2 * a + ulp)%Z in
    let lo2 := if (m =? 2 ^ 52)%Z then (2 * a - ulp / 2)%Z
               else (2 * a - ulp)%Z in
    shortest_from a lo2 hi2 (Z.even m) (String.length (pretty a)) 1 17.

(** [v] without its trailing zeros. *)
Fixpoint strip_zeros (fuel : nat) (v : Z) : Z :=
  match fuel with
  | O => v
  | S fuel => if (v mod 10 =? 0)%Z && negb (v =? 0)%Z
              then strip_zeros fuel (v / 10)%Z else v
  end.

Definition Number_toString (n : Z) : string :=
  if (n =? 0)%Z then "0"
  else
    let v := shortest (Z.abs n) in
    let digits := pretty v in
    let sign := if (n <? 0)%Z then "-" else "" in
    if String.length digits <=? 21 then sign +:+ digits
    else
      let exponent :=
        "e+" +:+ pretty (Z.of_nat (String.length digits) - 1)%Z in
      match pretty (strip_zeros (String.length digits) v) with
      | String d "" => sign +:+ String d "" +:+ exponent
      | String d rest => sign +:+ String d "" +:+ "." +:+ rest +:+ exponent
      | "" => sign +:+ digits
      end.

(** ToPropertyKey, for a value used in [obj[key]].  (The text of a
    built-in function is the one the common engines print.) *)
Definition ToPropertyKey (key : value) : string :=
  match key with
  | VUndefined => "undefined"
  | VNull => "null"
  | VBool true => "true"
  | VBool false => "false"
  | VNum n => Number_toString n
  | VNaN => "NaN"
  | VStr s => s
  | VObj _ => "[object Object]"
  | VNative "__proto__" => "[object Object]"
  | VNative "constructor" => "function Object() { [native code] }"
  | VNative name => "function " +:+ name +:+ "() { [native code] }"
  end.

(** ** Object.prototype *)

(** The names of the members every plain object inherits. *)
Definition Object_prototype : list string :=
  ["constructor"; "__defineGetter__"; "__defineSetter__"; "hasOwnProperty";
   "__lookupGetter__"; "__lookupSetter__"; "isPrototypeOf";
   "propertyIsEnumerable"; "toString"; "valueOf"; "__proto__";
   "toLocaleString"].

(** [o[name]] for a plain object [o] without own property [name]. *)
Definition inherited (name : string) : value :=
  if bool_decide (name ∈ Object_prototype) then VNative name else VUndefined.

(** ** factory.types.ts *)

(** The four JS constructors used as the type enum. *)
Inductive PrimitiveConstructor : Type :=
| BooleanConstructor
| NumberConstructor
| StringConstructor
| ObjectConstructor.

Record FeatureFlag : Type := {
  type : PrimitiveConstructor;
  defaultVal : value;
}.

(** [NamedFlags = Record<string, AnyFeatureFlag>]: the registry object,
    as the list of its own properties in the order the object literal
    gives them; its prototype is [Object.prototype] (a [__proto__: ...]
    entry of a literal would set the prototype instead of making a
    property, and is not a registry).  TypeScript rejects a literal that
    names a property twice. *)
Definition NamedFlags := list (string * FeatureFlag).

(** The own property [key] of the registry, if it has one: what the
    specification calls a registered key. *)
Fixpoint registered (featureFlags : NamedFlags) (key : string)
    : option FeatureFlag :=
  match featureFlags with
  | [] => None
  | (name, flag) :: rest =>
      if String.eqb name key then Some flag else registered rest key
  end.

(** A snapshot object [{ [flagName]: value }]. *)
Abbreviation snapshot := (gmap string value).

(** The number a string of decimal digits denotes. *)
Fixpoint digits_value (acc : N) (s : string) : option N :=
  match s with
  | "" => Some acc
  | String a rest =>
      let c := Ascii.N_of_ascii a in
      if (48 <=? c)%N && (c <=? 57)%N
      then digits_value (10 * acc + (c - 48))%N rest
      else None
  end.

(** A property name is an array index when it is the canonical numeral
    of an integer below [2^32 - 1]. *)
Definition array_index (name : string) : option N :=
  match name with
  | "" => None
  | _ =>
      match digits_value 0 name with
      | Some n =>
          if bool_decide (pretty n = name) && (n <? 2 ^ 32 - 1)%N
          then Some n else None
      | None => None
      end
  end.

(** Insertion of an array index into a list of them in ascending
    order. *)
Fixpoint insert_index (x : N * string) (l : list (N * string))
    : list (N * string) :=
  match l with
  | [] => [x]
  | y :: rest =>
      if (x.1 <? y.1)%N then x :: y :: rest else y :: insert_index x rest
  end.

(** The own property names of an object in the order JavaScript lists
    them: the array indices in ascending numeric order, then the other
    names in the order of their creation. *)
Definition own_keys (names : list string) : list string :=
  (foldr insert_index []
     (omap (λ name, (λ n, (n, name)) <$> array_index name) names)).*2
  ++ filter (λ name, array_index name = None) names.

(** [Object.keys(featureFlags)] *)
Definition Object_keys (featureFlags : NamedFlags) : list string :=
  own_keys featureFlags.*1.

(** [{ ...oldFlags, [updatedKey]: newFlag }]; spreading [undefined]
    contributes no property. *)
Definition spread_with (oldFlags : option snapshot) (updatedKey : string)
    (newFlag : value) : snapshot :=
  <[updatedKey := newFlag]> (default ∅ oldFlags).

(** The value of the own property [key] of the snapshot, [undefined] if
    there is no snapshot or it has no such property: the value the
    provider stored for the key. *)
Definition opt_member (flags : option snapshot) (key : string) : value :=
  match flags with
  | None => VUndefined
  | Some o => default VUndefined (o !! key)
  end.

(** [flags?.[key]]: the own property, or else the member the snapshot
    object inherits under that name. *)
Definition opt_index (flags : option snapshot) (key : string) : value :=
  match flags with
  | None => VUndefined
  | Some o => default (inherited key) (o !! key)
  end.

(** ** The SDK client, seen from the factory *)

(** A client handle: the identity of one [new LDClient()]. *)
Definition LDClient := nat.
(** The SDK's context and config objects, compared by reference in
    effect dependency lists. *)
Definition LDContext := nat.
Definition LDConfig := nat.

Inductive variation : Type :=
| boolVariation
| numberVariation
| stringVariation
| jsonVariation.

(** One [ldClient.xxxVariation(key, default)] call. *)
Record variationCall : Type := {
  vc_client : LDClient;
  vc_method : variation;
  vc_key : value;
  vc_default : value;
}.

(** How a call of an async accessor proceeds: either its promise settles
    without any client call ([Settled], with the lines it wrote to the
    console), or it issues one variation call and awaits it; [Awaiting]
    carries what is done with the awaited value before it is returned. *)
Inductive started : Type :=
| Settled (logged : list string) (o : outcome value)
| Awaiting (call : variationCall) (k : value → outcome value).

(** The awaited call settles with [r]: a rejection propagates. *)
Definition resume (k : value → outcome value) (r : outcome value)
    : outcome value :=
  match r with
  | Return v => k v
  | Throw e => Throw e
  end.

(** The registry of the README and of the factory's doc comment. *)
Definition exampleFlags : NamedFlags :=
  [("example-boolean-feature-flag",
    {| type := BooleanConstructor; defaultVal := VBool false |});
   ("example-number-feature-flag",
    {| type := NumberConstructor; defaultVal := VNum 123 |});
   ("example-string-feature-flag",
    {| type := StringConstructor; defaultVal := VStr "asdf" |});
   ("example-json-feature-flag",
    {| type := ObjectConstructor; defaultVal := VObj [] |})].

(** A registry with a key that is an array index and a key named like a
    member of [Object.prototype]. *)
Definition edgeFlags : NamedFlags :=
  [("dark-mode", {| type := BooleanConstructor; defaultVal := VBool false |});
   ("constructor", {| type := StringConstructor; defaultVal := VStr "none" |});
   ("7", {| type := NumberConstructor; defaultVal := VNum 7 |})].

(** [a ?? b] on two values already at hand. *)
Definition coalesce_val (a b : value) : value :=
  if nullish a then b else a.

(** [a || b] on two values already at hand. *)
Definition or_else_val (a b : value) : value :=
  if truthy a then a else b.

Section Registry.
Context (featureFlags : NamedFlags).

(** [featureFlags[key].defaultVal]: reading a member of [undefined]
    is a TypeError; a built-in the registry inherits has no
    [defaultVal]. *)
Definition member_defaultVal (key : value) : outcome value :=
  match registered featureFlags (ToPropertyKey key) with
  | Some flag => Return (defaultVal flag)
  | None =>
      if bool_decide (ToPropertyKey key ∈ Object_prototype)
      then Return VUndefined
      else Throw TypeError
  end.

(** [featureFlags[key]?.defaultVal]: [undefined] for a missing member
    and for an inherited one. *)
Definition opt_defaultVal (key : value) : value :=
  match registered featureFlags (ToPropertyKey key) with
  | Some flag => defaultVal flag
  | None => VUndefined
  end.

(** [featureFlags[key]?.type]: [undefined] (here [None]) for a missing
    member and for an inherited one. *)
Definition opt_type (key : value) : option PrimitiveConstructor :=
  type <$> registered featureFlags (ToPropertyKey key).
End Registry.

(** ** The provider component and the SDK around it *)

(** The provider's [client] state: [undefined], ['loading...'] (only
    part_003 uses it) or a client. *)
Inductive clientState : Type :=
| NoClient
| Loading
| Ready (c : LDClient).

#[global] Instance clientState_eq_dec : EqDecision clientState.
Proof. solve_decision. Defined.

(** ToBoolean of that state: only [undefined] is falsy. *)
Definition client_truthy (c : clientState) : bool :=
  match c with NoClient => false | _ => true end.

(** The life of one mounted component instance. *)
Inductive phase : Type :=
| NotMounted
| Mounted
| Unmounted.

(** What the factory asks of the SDK and of the console, in program
    order.  A per-flag listener is named by the number of the closure
    that [Object.keys(featureFlags).map] created for it. *)
Inductive call : Type :=
| NewLDClient (c : LDClient)
| Identify (c : LDClient) (context : LDContext)
| Configure (c : LDClient) (config : LDConfig) (context : LDContext)
| Variation (vc : variationCall)
| RegisterFeatureFlagListener (c : LDClient) (key : string) (listener : nat)
| UnregisterFeatureFlagListener (c : LDClient) (key : string) (listener : nat)
| RegisterAllFlagsListener (c : LDClient) (listenerId : string)
| UnregisterAllFlagsListener (c : LDClient) (listenerId : string)
| ConsoleLog (msg : string).

(** The console lines and the client call an accessor makes before its
    promise settles or suspends. *)
Definition calls_of (s : started) : list call :=
  match s with
  | Settled logged _ => ConsoleLog <$> logged
  | Awaiting vc _ => [Variation vc]
  end.

(** How the promise of a [started] accessor settles once the awaited
    client call (if any) has settled with [r]. *)
Definition settle (s : started) (r : outcome value) : outcome value :=
  match s with
  | Settled _ o => o
  | Awaiting _ k => resume k r
  end.

(** The SDK's table of per-flag listeners, as (client, flag key,
    listener) entries. *)
Abbreviation flagListenerTable := (list (LDClient * string * nat)).

(** [client.unregisterFeatureFlagListener(key, listener)] *)
Definition unregister_entry (e : LDClient * string * nat)
    (t : flagListenerTable) : flagListenerTable :=
  filter (λ x, x ≠ e) t.

(** The listeners the SDK calls when flag [key] of client [c] changes. *)
Definition listening (c : LDClient) (key : string)
    (t : flagListenerTable) : flagListenerTable :=
  filter (λ x, x.1.1 = c ∧ x.1.2 = key) t.

(** Removing the [i]-th element of the list of suspended functions. *)
Definition remove_nth {A} (i : nat) (l : list A) : list A :=
  take i l ++ drop (S i) l.

(** The SDK's table of all-flags listeners, as (client, listener id)
    entries; registering under an id replaces what was there. *)
Abbreviation allFlagsTable := (list (LDClient * string)).

Definition register_all (e : LDClient * string) (t : allFlagsTable)
    : allFlagsTable :=
  filter (λ x, x ≠ e) t ++ [e].

Definition unregister_all (e : LDClient * string) (t : allFlagsTable)
    : allFlagsTable :=
  filter (λ x, x ≠ e) t.

(** The all-flags listeners of client [c]. *)
Definition listening_all (c : LDClient) (t : allFlagsTable) : allFlagsTable :=
  filter (λ x, x.1 = c) t.

(** ** The accessors of src/unnamed/part_003 *)

Module Part003.
Section Factory.
Context (featureFlags : NamedFlags).

(** The part of [getFeatureFlagAsync] that runs before its only
    [await]; [globalLdClient] is what [getGlobalLdClient()] returns at
    the time of the call.  A name the registry only inherits from
    [Object.prototype] passes [!featureFlags[key]]: the built-in found
    there is truthy and has neither [type] nor [defaultVal], so with a
    client the final [else] throws.  For a property of the registry that
    [else] is unreachable: [PrimitiveConstructor] has the four types
    only. *)
Definition getFeatureFlagAsync (globalLdClient : option LDClient)
    (key defaultVal : value) : started :=
  if negb (is_string key) then
    Settled [] (Throw (Thrown (VStr "non string key passed to getFeatureFlag")))
  else
    match registered featureFlags (ToPropertyKey key) with
    | None =>
        if bool_decide (ToPropertyKey key ∈ Object_prototype) then
          match globalLdClient with
          | None =>
              Settled ["getFeatureFlag called before ldClient initialized"]
                (Return (coalesce_val defaultVal (opt_defaultVal featureFlags key)))
          | Some _ =>
              Settled []
                (Throw (Thrown (VStr "invalid type passed to getFeatureFlag: undefined")))
          end
        else
          Settled [] (Throw (Thrown (VStr "unregistered key passed to getFeatureFlag")))
    | Some {| type := flagType; defaultVal := registryDefault |} =>
        match globalLdClient with
        | None =>
            Settled ["getFeatureFlag called before ldClient initialized"]
              (Return (coalesce_val defaultVal (opt_defaultVal featureFlags key)))
        | Some ldClient =>
            let _defaultVal :=
              coalesce_val defaultVal registryDefault in
            let call m := {| vc_client := ldClient; vc_method := m;
                             vc_key := key; vc_default := _defaultVal |} in
            match flagType with
            | BooleanConstructor => Awaiting (call boolVariation) Return
            | NumberConstructor => Awaiting (call numberVariation) Return
            | StringConstructor => Awaiting (call stringVariation) Return
            | ObjectConstructor => Awaiting (call jsonVariation) Return
            end
        end
    end.

(** [getFeatureFlagEscapeHatch], exported as [getFeatureFlag]. *)
Definition getFeatureFlagEscapeHatch (escapeHatchFlags : option snapshot)
    (key defaultVal : value) : outcome value :=
  or_else
    (Return (or_else_val (opt_index escapeHatchFlags (ToPropertyKey key))
               defaultVal))
    (member_defaultVal featureFlags key).

Definition useFeatureFlag (flags : option snapshot) (key : string)
    (defaultVal : value) : outcome value :=
  coalesce
    (Return (coalesce_val (opt_index flags key) defaultVal))
    (member_defaultVal featureFlags (VStr key)).

(** *** LaunchDarklyProvider

    One provider instance, from before its mount to after its unmount.
    React is modelled by what the component relies on: an effect runs
    after the render in which one of its dependencies changed (and after
    the first render), preceded by the cleanup its previous run returned;
    cleanups run on unmount; a state update of an unmounted component is
    dropped.  A state update is followed at once by the render it
    causes. *)

(** An async function suspended at an [await]. *)
Inductive task : Type :=
| AwaitIdentify (newClient : LDClient) (context : LDContext) (config : LDConfig)
| AwaitConfigure (newClient : LDClient)
| AwaitFlag (updatedKey : string) (fetch : started).

(** One provider instance together with what it shares with the rest
    of the program: the closure's singletons, the SDK's listener table,
    the suspended async functions and the calls made so far. *)
Record provider : Type := {
  globalLdClient : option LDClient;
  escapeHatchFlags : option snapshot;
  life : phase;
  deps : option LDContext * option LDConfig;
  client : clientState;
  flags : option snapshot;
  destructors : flagListenerTable;
  constructed : nat;
  closures : nat;
  flagListeners : flagListenerTable;
  pending : list task;
  calls : list call;
}.

Definition initial : provider :=
  {| globalLdClient := None; escapeHatchFlags := None;
     life := NotMounted; deps := (None, None);
     client := NoClient; flags := None; destructors := [];
     constructed := 0; closures := 0; flagListeners := [];
     pending := []; calls := [] |}.

Definition with_global (g : option LDClient) (w : provider) : provider :=
  {| globalLdClient := g; escapeHatchFlags := escapeHatchFlags w;
     life := life w; deps := deps w; client := client w; flags := flags w;
     destructors := destructors w; constructed := constructed w;
     closures := closures w; flagListeners := flagListeners w;
     pending := pending w; calls := calls w |}.

Definition with_escapeHatchFlags (f : option snapshot) (w : provider) : provider :=
  {| globalLdClient := globalLdClient w; escapeHatchFlags := f;
     life := life w; deps := deps w; client := client w; flags := flags w;
     destructors := destructors w; constructed := constructed w;
     closures := closures w; flagListeners := flagListeners w;
     pending := pending w; calls := calls w |}.

Definition with_life (p : phase) (w : provider) : provider :=
  {| globalLdClient := globalLdClient w; escapeHatchFlags := escapeHatchFlags w;
     life := p; deps := deps w; client := client w; flags := flags w;
     destructors := destructors w; constructed := constructed w;
     closures := closures w; flagListeners := flagListeners w;
     pending := pending w; calls := calls w |}.

Definition with_deps (d : option LDContext * option LDConfig) (w : provider)
    : provider :=
  {| globalLdClient := globalLdClient w; escapeHatchFlags := escapeHatchFlags w;
     life := life w; deps := d; client := client w; flags := flags w;
     destructors := destructors w; constructed := constructed w;
     closures := closures w; flagListeners := flagListeners w;
     pending := pending w; calls := calls w |}.

Definition with_client (c : clientState) (w : provider) : provider :=
  {| globalLdClient := globalLdClient w; escapeHatchFlags := escapeHatchFlags w;
     life := life w; deps := deps w; client := c; flags := flags w;
     destructors := destructors w; constructed := constructed w;
     closures := closures w; flagListeners := flagListeners w;
     pending := pending w; calls := calls w |}.

Definition with_flags (f : option snapshot) (w : provider) : provider :=
  {| globalLdClient := globalLdClient w; escapeHatchFlags := escapeHatchFlags w;
     life := life w; deps := deps w; client := client w; flags := f;
     destructors := destructors w; constructed := constructed w;
     closures := closures w; flagListeners := flagListeners w;
     pending := pending w; calls := calls w |}.

Definition with_destructors (d : flagListenerTable) (w : provider) : provider :=
  {| globalLdClient := globalLdClient w; escapeHatchFlags := escapeHatchFlags w;
     life := life w; deps := deps w; client := client w; flags := flags w;
     destructors := d; constructed := constructed w;
     closures := closures w; flagListeners := flagListeners w;
     pending := pending w; calls := calls w |}.

Definition with_constructed (n : nat) (w : provider) : provider :=
  {| globalLdClient := globalLdClient w; escapeHatchFlags := escapeHatchFlags w;
     life := life w; deps := deps w; client := client w; flags := flags w;
     destructors := destructors w; constructed := n;
     closures := closures w; flagListeners := flagListeners w;
     pending := pending w; calls := calls w |}.

Definition with_closures (n : nat) (w : provider) : provider :=
  {| globalLdClient := globalLdClient w; escapeHatchFlags := escapeHatchFlags w;
     life := life w; deps := deps w; client := client w; flags := flags w;
     destructors := destructors w; constructed := constructed w;
     closures := n; flagListeners := flagListeners w;
     pending := pending w; calls := calls w |}.

Definition with_flagListeners (t : flagListenerTable) (w : provider) : provider :=
  {| globalLdClient := globalLdClient w; escapeHatchFlags := escapeHatchFlags w;
     life := life w; deps := deps w; client := client w; flags := flags w;
     destructors := destructors w; constructed := constructed w;
     closures := closures w; flagListeners := t;
     pending := pending w; calls := calls w |}.

Definition with_pending (l : list task) (w : provider) : provider :=
  {| globalLdClient := globalLdClient w; escapeHatchFlags := escapeHatchFlags w;
     life := life w; deps := deps w; client := client w; flags := flags w;
     destructors := destructors w; constructed := constructed w;
     closures := closures w; flagListeners := flagListeners w;
     pending := l; calls := calls w |}.

Definition with_calls (l : list call) (w : provider) : provider :=
  {| globalLdClient := globalLdClient w; escapeHatchFlags := escapeHatchFlags w;
     life := life w; deps := deps w; client := client w; flags := flags w;
     destructors := destructors w; constructed := constructed w;
     closures := closures w; flagListeners := flagListeners w;
     pending := pending w; calls := l |}.

(** The factory calls the SDK or the console. *)
Definition emit (cs : list call) (w : provider) : provider :=
  with_calls (calls w ++ cs) w.

(** An async function reaches an [await]. *)
Definition suspend (t : task) (w : provider) : provider :=
  with_pending (pending w ++ [t]) w.

Definition getGlobalLdClient (w : provider) : option LDClient :=
  globalLdClient w.

Definition setGlobalLdClient (ldClient : LDClient) (w : provider) : provider :=
  with_global (Some ldClient) w.

(** [useEffect(() => { escapeHatchFlags = flags }, [flags])] *)
Definition effect_escapeHatch (w : provider) : provider :=
  with_escapeHatchFlags (flags w) w.

(** [setFlags(oldFlags => ({ ...oldFlags, [updatedKey]: newFlag }))]
    and the render it causes: the provider publishes the new snapshot
    to the components below it, which render and run their effects
    while [escapeHatchFlags] still holds the previous one. *)
Definition publish (updatedKey : string) (newFlag : value) (w : provider)
    : provider :=
  with_flags (Some (spread_with (flags w) updatedKey newFlag)) w.

(** That render, followed by the provider's own effects, of which only
    the [flags] effect has a changed dependency.  React drops a state
    update of a component that is no longer mounted. *)
Definition setFlags (updatedKey : string) (newFlag : value) (w : provider)
    : provider :=
  match life w with
  | Mounted => effect_escapeHatch (publish updatedKey newFlag w)
  | _ => w
  end.

(** A call of the per-flag [listener], up to its [await]. *)
Definition listener (updatedKey : string) (w : provider) : provider :=
  let fetch :=
    getFeatureFlagAsync (getGlobalLdClient w) (VStr updatedKey) VUndefined in
  suspend (AwaitFlag updatedKey fetch) (emit (calls_of fetch) w).

(** One iteration of [Object.keys(featureFlags).map(...)] in the
    [client] effect: a new [listener] closure is called, registered,
    and its destructor is collected. *)
Definition subscribe (c : LDClient) (w : provider) (key : string) : provider :=
  let l := closures w in
  let w := with_closures (S l) w in
  let w := listener key w in
  let w := emit [RegisterFeatureFlagListener c key l] w in
  let w := with_flagListeners (flagListeners w ++ [(c, key, l)]) w in
  with_destructors (destructors w ++ [(c, key, l)]) w.

(** One destructor: [() => client.unregisterFeatureFlagListener(key, listener)] *)
Definition destruct_one (w : provider) (d : LDClient * string * nat) : provider :=
  let '(c, key, l) := d in
  with_flagListeners (unregister_entry d (flagListeners w))
    (emit [UnregisterFeatureFlagListener c key l] w).

(** The cleanup of the [client] effect: [destructors.forEach((d) => d())]. *)
Definition cleanup_client (w : provider) : provider :=
  with_destructors [] (foldl destruct_one w (destructors w)).

(** [useEffect(..., [client])]: the previous run's cleanup, then the
    body. *)
Definition effect_client (w : provider) : provider :=
  let w := cleanup_client w in
  match client w with
  | Ready c => foldl (subscribe c) w (Object_keys featureFlags)
  | _ => w
  end.

(** [setClient(c)] and the render it causes, in which only the
    [client] effect has a changed dependency. *)
Definition setClient (c : clientState) (w : provider) : provider :=
  match life w with
  | Mounted => effect_client (with_client c w)
  | _ => w
  end.

(** [useEffect(..., [context, config])] *)
Definition effect_init (context : option LDContext) (config : option LDConfig)
    (w : provider) : provider :=
  match context, config with
  | Some context, Some config =>
      if bool_decide (is_Some (getGlobalLdClient w)) || client_truthy (client w)
      then w
      else
        (* setClient('loading...') is queued here; its render follows
           the effect, so it is applied last *)
        let newClient := constructed w in
        let w := with_constructed (S newClient) w in
        let w := emit [NewLDClient newClient; Identify newClient context] w in
        let w := suspend (AwaitIdentify newClient context config) w in
        setClient Loading w
  | _, _ => w
  end.

(** A suspended function continues with the settled value [r] of what
    it awaited. *)
Definition continue (t : task) (r : outcome value) (w : provider) : provider :=
  match t with
  | AwaitIdentify newClient context config =>
      match r with
      | Return _ =>
          suspend (AwaitConfigure newClient)
            (emit [Configure newClient config context] w)
      | Throw _ => w
      end
  | AwaitConfigure newClient =>
      match r with
      | Return _ =>
          match life w with
          | Mounted =>
              effect_client
                (setGlobalLdClient newClient (with_client (Ready newClient) w))
          | _ => setGlobalLdClient newClient w
          end
      | Throw _ => w
      end
  | AwaitFlag updatedKey fetch =>
      match settle fetch r with
      | Return newFlag => setFlags updatedKey newFlag w
      | Throw _ => w
      end
  end.

(** What can happen to a provider: its parent renders it with a context
    and a config; it is unmounted; the [i]-th suspended function resumes
    with the settled value [r] of what it awaited; the SDK reports that
    flag [key] of client [c] changed, by calling the listeners registered
    for it with [key]. *)
Inductive event : Type :=
| Render (context : option LDContext) (config : option LDConfig)
| Unmount
| Settle (i : nat) (r : outcome value)
| FlagChanged (c : LDClient) (key : string).

Definition step (w : provider) (e : event) : provider :=
  match e with
  | Render context config =>
      match life w with
      | NotMounted =>
          (* first render: every effect runs, in declaration order *)
          let w := with_deps (context, config) (with_life Mounted w) in
          let w := effect_init context config w in
          let w := effect_escapeHatch w in
          effect_client w
      | Mounted =>
          if bool_decide (deps w = (context, config)) then w
          else effect_init context config (with_deps (context, config) w)
      | Unmounted => w
      end
  | Unmount =>
      match life w with
      | Mounted => cleanup_client (with_life Unmounted w)
      | _ => w
      end
  | Settle i r =>
      match pending w !! i with
      | Some t => continue t r (with_pending (remove_nth i (pending w)) w)
      | None => w
      end
  | FlagChanged c key =>
      foldl (λ w _, listener key w) w (listening c key (flagListeners w))
  end.

Definition run (w : provider) (es : list event) : provider :=
  foldl step w es.
(** *** useAllFeatureFlags *)

(** One component that calls the hook, together with what the hook
    reads: the [client] of the context value it last rendered with,
    the closure's client singleton (read by [getFeatureFlagAsync]), the
    clock behind [Date.now()], and the all-flags listeners this hook has
    with the SDK.  [h_listeners] is the SDK's table as this hook's own
    calls make it; the SDK's table is shared with every other caller
    ([sdk_table] below), and the two agree on this hook's listeners as
    long as nobody else uses its ids. *)
Record consumer : Type := {
  h_global : option LDClient;
  h_life : phase;
  h_client : clientState;
  h_flags : snapshot;
  h_cleanup : option (LDClient * string);
  h_now : Z;
  h_listeners : allFlagsTable;
  h_pending : list (string * started);
  h_calls : list call;
}.

Definition h_initial : consumer :=
  {| h_global := None; h_life := NotMounted; h_client := NoClient;
     h_flags := ∅; h_cleanup := None; h_now := 0; h_listeners := [];
     h_pending := []; h_calls := [] |}.

Definition h_with_global (g : option LDClient) (h : consumer) : consumer :=
  {| h_global := g; h_life := h_life h; h_client := h_client h;
     h_flags := h_flags h; h_cleanup := h_cleanup h; h_now := h_now h;
     h_listeners := h_listeners h; h_pending := h_pending h;
     h_calls := h_calls h |}.

Definition h_with_life (p : phase) (h : consumer) : consumer :=
  {| h_global := h_global h; h_life := p; h_client := h_client h;
     h_flags := h_flags h; h_cleanup := h_cleanup h; h_now := h_now h;
     h_listeners := h_listeners h; h_pending := h_pending h;
     h_calls := h_calls h |}.

Definition h_with_client (c : clientState) (h : consumer) : consumer :=
  {| h_global := h_global h; h_life := h_life h; h_client := c;
     h_flags := h_flags h; h_cleanup := h_cleanup h; h_now := h_now h;
     h_listeners := h_listeners h; h_pending := h_pending h;
     h_calls := h_calls h |}.

Definition h_with_flags (f : snapshot) (h : consumer) : consumer :=
  {| h_global := h_global h; h_life := h_life h; h_client := h_client h;
     h_flags := f; h_cleanup := h_cleanup h; h_now := h_now h;
     h_listeners := h_listeners h; h_pending := h_pending h;
     h_calls := h_calls h |}.

Definition h_with_cleanup (c : option (LDClient * string)) (h : consumer)
    : consumer :=
  {| h_global := h_global h; h_life := h_life h; h_client := h_client h;
     h_flags := h_flags h; h_cleanup := c; h_now := h_now h;
     h_listeners := h_listeners h; h_pending := h_pending h;
     h_calls := h_calls h |}.

Definition h_with_now (t : Z) (h : consumer) : consumer :=
  {| h_global := h_global h; h_life := h_life h; h_client := h_client h;
     h_flags := h_flags h; h_cleanup := h_cleanup h; h_now := t;
     h_listeners := h_listeners h; h_pending := h_pending h;
     h_calls := h_calls h |}.

Definition h_with_listeners (t : allFlagsTable) (h : consumer) : consumer :=
  {| h_global := h_global h; h_life := h_life h; h_client := h_client h;
     h_flags := h_flags h; h_cleanup := h_cleanup h; h_now := h_now h;
     h_listeners := t; h_pending := h_pending h; h_calls := h_calls h |}.

Definition h_with_pending (l : list (string * started)) (h : consumer)
    : consumer :=
  {| h_global := h_global h; h_life := h_life h; h_client := h_client h;
     h_flags := h_flags h; h_cleanup := h_cleanup h; h_now := h_now h;
     h_listeners := h_listeners h; h_pending := l; h_calls := h_calls h |}.

Definition h_with_calls (l : list call) (h : consumer) : consumer :=
  {| h_global := h_global h; h_life := h_life h; h_client := h_client h;
     h_flags := h_flags h; h_cleanup := h_cleanup h; h_now := h_now h;
     h_listeners := h_listeners h; h_pending := h_pending h;
     h_calls := l |}.

Definition h_emit (cs : list call) (h : consumer) : consumer :=
  h_with_calls (h_calls h ++ cs) h.

(** One callback of [updatedKeys.forEach(async (updatedKey) => ...)],
    up to its [await]. *)
Definition h_fetch (h : consumer) (updatedKey : string) : consumer :=
  let fetch := getFeatureFlagAsync (h_global h) (VStr updatedKey) VUndefined in
  h_with_pending (h_pending h ++ [(updatedKey, fetch)])
    (h_emit (calls_of fetch) h).

(** The hook's [listener]. *)
Definition h_listener (updatedKeys : list string) (h : consumer) : consumer :=
  foldl h_fetch h updatedKeys.

(** [setFlags((oldFlags) => ({ ...oldFlags, [updatedKey]: flagVal }))] *)
Definition h_setFlags (updatedKey : string) (flagVal : value) (h : consumer)
    : consumer :=
  match h_life h with
  | Mounted => h_with_flags (<[updatedKey := flagVal]> (h_flags h)) h
  | _ => h
  end.

(** The cleanup the last run of the effect returned, if any. *)
Definition h_cleanup_run (h : consumer) : consumer :=
  match h_cleanup h with
  | Some (c, uniqueId) =>
      h_with_cleanup None
        (h_with_listeners (unregister_all (c, uniqueId) (h_listeners h))
           (h_emit [UnregisterAllFlagsListener c uniqueId] h))
  | None => h
  end.

(** The body of [useEffect(..., [client])]. *)
Definition h_effect_body (h : consumer) : consumer :=
  match h_client h with
  | Ready c =>
      let uniqueId := Number_toString (h_now h) in
      let h := h_emit [RegisterAllFlagsListener c uniqueId] h in
      let h := h_with_listeners (register_all (c, uniqueId) (h_listeners h)) h in
      let h := h_listener (Object_keys featureFlags) h in
      h_with_cleanup (Some (c, uniqueId)) h
  | _ => h
  end.

Inductive h_event : Type :=
| Provide (client : clientState)
| GlobalSet (ldClient : LDClient)
| Clock (t : Z)
| HUnmount
| HSettle (i : nat) (r : outcome value)
| FlagsChanged (c : LDClient) (updatedKeys : list string).

Definition h_step (h : consumer) (e : h_event) : consumer :=
  match e with
  | Provide client =>
      match h_life h with
      | NotMounted =>
          h_effect_body (h_with_client client (h_with_life Mounted h))
      | Mounted =>
          if bool_decide (h_client h = client) then h
          else h_effect_body (h_cleanup_run (h_with_client client h))
      | Unmounted => h
      end
  | GlobalSet ldClient => h_with_global (Some ldClient) h
  | Clock t => h_with_now t h
  | HUnmount =>
      match h_life h with
      | Mounted => h_cleanup_run (h_with_life Unmounted h)
      | _ => h
      end
  | HSettle i r =>
      match h_pending h !! i with
      | Some (updatedKey, fetch) =>
          let h := h_with_pending (remove_nth i (h_pending h)) h in
          match settle fetch r with
          | Return flagVal => h_setFlags updatedKey flagVal h
          | Throw _ => h
          end
      | None => h
      end
  | FlagsChanged c updatedKeys =>
      foldl (λ h _, h_listener updatedKeys h) h
        (listening_all c (h_listeners h))
  end.

Definition h_run (h : consumer) (es : list h_event) : consumer :=
  foldl h_step h es.
End Factory.
End Part003.

(** ** The accessors of src/src/factory.tsx *)

Module FactoryTsx.
Section Factory.
(** [JSON.parse], applied to whatever [jsonVariation] answered. *)
Context (JSON_parse : value → outcome value).
Context (featureFlags : NamedFlags).

(** [getGetFeatureFlag(ldClient)], up to its [await]. *)
Definition getGetFeatureFlag (ldClient : LDClient)
    (key defaultVal : value) : started :=
  let defaultVal2 := coalesce_val defaultVal (opt_defaultVal featureFlags key) in
  let call m := {| vc_client := ldClient; vc_method := m;
                   vc_key := key; vc_default := defaultVal2 |} in
  match opt_type featureFlags key with
  | Some BooleanConstructor => Awaiting (call boolVariation) Return
  | Some NumberConstructor => Awaiting (call numberVariation) Return
  | Some StringConstructor => Awaiting (call stringVariation) Return
  | Some ObjectConstructor => Awaiting (call jsonVariation) JSON_parse
  | None => Settled [] (Return VUndefined)
  end.

(** The two private singletons of the factory closure. *)
Record globals : Type := {
  globalLdClient : option LDClient;
  globalGetFeatureFlag : value → value → started;
}.

(** Their initial values: no client, and a fetcher that resolves to a
    default. *)
Definition initial_globals : globals :=
  {| globalLdClient := None;
     globalGetFeatureFlag := λ key defaultVal,
       Settled [] (Return (coalesce_val defaultVal
                             (opt_defaultVal featureFlags key))) |}.

Definition getGlobalLdClient (g : globals) : option LDClient :=
  globalLdClient g.

Definition setGlobalLdClient (ldClient : LDClient) (g : globals) : globals :=
  {| globalLdClient := Some ldClient;
     globalGetFeatureFlag := getGetFeatureFlag ldClient |}.

Definition getFeatureFlag (g : globals) (key defaultVal : value) : started :=
  globalGetFeatureFlag g key defaultVal.

Definition useFeatureFlag (flags : option snapshot) (key : string)
    (defaultVal : value) : outcome value :=
  coalesce
    (Return (coalesce_val (opt_index flags key) defaultVal))
    (member_defaultVal featureFlags (VStr key)).

(** *** LaunchDarklyProvider (modelled as in part_003) *)

(** The per-flag [listener] suspended at [await getFeatureFlag(...)].
    (The async function inside the effect has no [await]: it runs to
    its end within the effect.) *)
Inductive task : Type :=
| AwaitFlag (updatedKey : string) (fetch : started).

Record provider : Type := {
  singletons : globals;
  life : phase;
  deps : option LDContext * option LDConfig;
  client : option LDClient;
  flags : option snapshot;
  constructed : nat;
  closures : nat;
  flagListeners : flagListenerTable;
  pending : list task;
  calls : list call;
}.

Definition initial : provider :=
  {| singletons := initial_globals; life := NotMounted;
     deps := (None, None); client := None; flags := None;
     constructed := 0; closures := 0; flagListeners := [];
     pending := []; calls := [] |}.

Definition with_singletons (g : globals) (w : provider) : provider :=
  {| singletons := g; life := life w; deps := deps w; client := client w;
     flags := flags w; constructed := constructed w; closures := closures w;
     flagListeners := flagListeners w; pending := pending w;
     calls := calls w |}.

Definition with_life (p : phase) (w : provider) : provider :=
  {| singletons := singletons w; life := p; deps := deps w;
     client := client w; flags := flags w; constructed := constructed w;
     closures := closures w; flagListeners := flagListeners w;
     pending := pending w; calls := calls w |}.

Definition with_deps (d : option LDContext * option LDConfig) (w : provider)
    : provider :=
  {| singletons := singletons w; life := life w; deps := d;
     client := client w; flags := flags w; constructed := constructed w;
     closures := closures w; flagListeners := flagListeners w;
     pending := pending w; calls := calls w |}.

Definition with_client (c : option LDClient) (w : provider) : provider :=
  {| singletons := singletons w; life := life w; deps := deps w;
     client := c; flags := flags w; constructed := constructed w;
     closures := closures w; flagListeners := flagListeners w;
     pending := pending w; calls := calls w |}.

Definition with_flags (f : option snapshot) (w : provider) : provider :=
  {| singletons := singletons w; life := life w; deps := deps w;
     client := client w; flags := f; constructed := constructed w;
     closures := closures w; flagListeners := flagListeners w;
     pending := pending w; calls := calls w |}.

Definition with_constructed (n : nat) (w : provider) : provider :=
  {| singletons := singletons w; life := life w; deps := deps w;
     client := client w; flags := flags w; constructed := n;
     closures := closures w; flagListeners := flagListeners w;
     pending := pending w; calls := calls w |}.

Definition with_closures (n : nat) (w : provider) : provider :=
  {| singletons := singletons w; life := life w; deps := deps w;
     client := client w; flags := flags w; constructed := constructed w;
     closures := n; flagListeners := flagListeners w;
     pending := pending w; calls := calls w |}.

Definition with_flagListeners (t : flagListenerTable) (w : provider) : provider :=
  {| singletons := singletons w; life := life w; deps := deps w;
     client := client w; flags := flags w; constructed := constructed w;
     closures := closures w; flagListeners := t;
     pending := pending w; calls := calls w |}.

Definition with_pending (l : list task) (w : provider) : provider :=
  {| singletons := singletons w; life := life w; deps := deps w;
     client := client w; flags := flags w; constructed := constructed w;
     closures := closures w; flagListeners := flagListeners w;
     pending := l; calls := calls w |}.

Definition with_calls (l : list call) (w : provider) : provider :=
  {| singletons := singletons w; life := life w; deps := deps w;
     client := client w; flags := flags w; constructed := constructed w;
     closures := closures w; flagListeners := flagListeners w;
     pending := pending w; calls := l |}.

Definition emit (cs : list call) (w : provider) : provider :=
  with_calls (calls w ++ cs) w.

Definition suspend (t : task) (w : provider) : provider :=
  with_pending (pending w ++ [t]) w.

(** [setFlags(oldFlags => ({ ...oldFlags, [updatedKey]: newFlag }))];
    React drops a state update of a component that is no longer
    mounted. *)
Definition setFlags (updatedKey : string) (newFlag : value) (w : provider)
    : provider :=
  match life w with
  | Mounted => with_flags (Some (spread_with (flags w) updatedKey newFlag)) w
  | _ => w
  end.

(** [setClient(newClient)]; no effect of the provider depends on
    [client]. *)
Definition setClient (newClient : LDClient) (w : provider) : provider :=
  match life w with
  | Mounted => with_client (Some newClient) w
  | _ => w
  end.

(** A call of the per-flag [listener], up to its [await]. *)
Definition listener (updatedKey : string) (w : provider) : provider :=
  let fetch := getFeatureFlag (singletons w) (VStr updatedKey) VUndefined in
  suspend (AwaitFlag updatedKey fetch) (emit (calls_of fetch) w).

(** One iteration of [Object.keys(featureFlags).map(...)].  The
    destructor it returns ends up in the value the async function
    resolves to, which nobody reads. *)
Definition subscribe (newClient : LDClient) (w : provider) (key : string)
    : provider :=
  let l := closures w in
  let w := with_closures (S l) w in
  let w := listener key w in
  let w := emit [RegisterFeatureFlagListener newClient key l] w in
  with_flagListeners (flagListeners w ++ [(newClient, key, l)]) w.

(** [useEffect(() => { (async () => {...})() }, [context, config])]:
    the effect callback itself returns nothing, so React has no
    cleanup to run for it. *)
Definition effect_init (context : option LDContext) (config : option LDConfig)
    (w : provider) : provider :=
  match context, config with
  | Some context, Some config =>
      let newClient := constructed w in
      let w := with_constructed (S newClient) w in
      let w := emit [NewLDClient newClient; Identify newClient context;
                     Configure newClient config context] w in
      let w := setClient newClient w in
      let w := with_singletons (setGlobalLdClient newClient (singletons w)) w in
      foldl (subscribe newClient) w (Object_keys featureFlags)
  | _, _ => w
  end.

Definition continue (t : task) (r : outcome value) (w : provider) : provider :=
  match t with
  | AwaitFlag updatedKey fetch =>
      match settle fetch r with
      | Return newFlag => setFlags updatedKey newFlag w
      | Throw _ => w
      end
  end.

Inductive event : Type :=
| Render (context : option LDContext) (config : option LDConfig)
| Unmount
| Settle (i : nat) (r : outcome value)
| FlagChanged (c : LDClient) (key : string).

Definition step (w : provider) (e : event) : provider :=
  match e with
  | Render context config =>
      match life w with
      | NotMounted =>
          effect_init context config
            (with_deps (context, config) (with_life Mounted w))
      | Mounted =>
          if bool_decide (deps w = (context, config)) then w
          else effect_init context config (with_deps (context, config) w)
      | Unmounted => w
      end
  | Unmount =>
      match life w with
      | Mounted => with_life Unmounted w
      | _ => w
      end
  | Settle i r =>
      match pending w !! i with
      | Some t => continue t r (with_pending (remove_nth i (pending w)) w)
      | None => w
      end
  | FlagChanged c key =>
      foldl (λ w _, listener key w) w (listening c key (flagListeners w))
  end.

Definition run (w : provider) (es : list event) : provider :=
  foldl step w es.
(** *** useAllFeatureFlags *)

(** One component that calls the hook, together with what the hook
    reads: the [client] of the context value it last rendered with,
    the closure's singletons (read by [getFeatureFlag]) and the
    all-flags listeners this hook has with the SDK.  [h_listeners] is the
    SDK's table as this hook's own calls make it; the SDK's table is
    shared with every other caller ([sdk_table] below), and every use of
    the hook registers under the same id. *)
Record consumer : Type := {
  h_singletons : globals;
  h_life : phase;
  h_client : option LDClient;
  h_flags : snapshot;
  h_cleanup : option (LDClient * string);
  h_listeners : allFlagsTable;
  h_pending : list (string * started);
  h_calls : list call;
}.

Definition h_initial : consumer :=
  {| h_singletons := initial_globals; h_life := NotMounted; h_client := None;
     h_flags := ∅; h_cleanup := None; h_listeners := [];
     h_pending := []; h_calls := [] |}.

Definition h_with_singletons (g : globals) (h : consumer) : consumer :=
  {| h_singletons := g; h_life := h_life h; h_client := h_client h;
     h_flags := h_flags h; h_cleanup := h_cleanup h;
     h_listeners := h_listeners h; h_pending := h_pending h;
     h_calls := h_calls h |}.

Definition h_with_life (p : phase) (h : consumer) : consumer :=
  {| h_singletons := h_singletons h; h_life := p; h_client := h_client h;
     h_flags := h_flags h; h_cleanup := h_cleanup h;
     h_listeners := h_listeners h; h_pending := h_pending h;
     h_calls := h_calls h |}.

Definition h_with_client (c : option LDClient) (h : consumer) : consumer :=
  {| h_singletons := h_singletons h; h_life := h_life h; h_client := c;
     h_flags := h_flags h; h_cleanup := h_cleanup h;
     h_listeners := h_listeners h; h_pending := h_pending h;
     h_calls := h_calls h |}.

Definition h_with_flags (f : snapshot) (h : consumer) : consumer :=
  {| h_singletons := h_singletons h; h_life := h_life h; h_client := h_client h;
     h_flags := f; h_cleanup := h_cleanup h;
     h_listeners := h_listeners h; h_pending := h_pending h;
     h_calls := h_calls h |}.

Definition h_with_cleanup (c : option (LDClient * string)) (h : consumer)
    : consumer :=
  {| h_singletons := h_singletons h; h_life := h_life h; h_client := h_client h;
     h_flags := h_flags h; h_cleanup := c;
     h_listeners := h_listeners h; h_pending := h_pending h;
     h_calls := h_calls h |}.

Definition h_with_listeners (t : allFlagsTable) (h : consumer) : consumer :=
  {| h_singletons := h_singletons h; h_life := h_life h; h_client := h_client h;
     h_flags := h_flags h; h_cleanup := h_cleanup h;
     h_listeners := t; h_pending := h_pending h; h_calls := h_calls h |}.

Definition h_with_pending (l : list (string * started)) (h : consumer)
    : consumer :=
  {| h_singletons := h_singletons h; h_life := h_life h; h_client := h_client h;
     h_flags := h_flags h; h_cleanup := h_cleanup h;
     h_listeners := h_listeners h; h_pending := l; h_calls := h_calls h |}.

Definition h_with_calls (l : list call) (h : consumer) : consumer :=
  {| h_singletons := h_singletons h; h_life := h_life h; h_client := h_client h;
     h_flags := h_flags h; h_cleanup := h_cleanup h;
     h_listeners := h_listeners h; h_pending := h_pending h;
     h_calls := l |}.

Definition h_emit (cs : list call) (h : consumer) : consumer :=
  h_with_calls (h_calls h ++ cs) h.

(** One callback of [updatedKeys.forEach(async (updatedKey) => ...)],
    up to its [await]. *)
Definition h_fetch (h : consumer) (updatedKey : string) : consumer :=
  let fetch := getFeatureFlag (h_singletons h) (VStr updatedKey) VUndefined in
  h_with_pending (h_pending h ++ [(updatedKey, fetch)])
    (h_emit (calls_of fetch) h).

(** The hook's [listener]. *)
Definition h_listener (updatedKeys : list string) (h : consumer) : consumer :=
  foldl h_fetch h updatedKeys.

(** [setFlags((oldFlags) => ({ ...oldFlags, [updatedKey]: flagVal }))] *)
Definition h_setFlags (updatedKey : string) (flagVal : value) (h : consumer)
    : consumer :=
  match h_life h with
  | Mounted => h_with_flags (<[updatedKey := flagVal]> (h_flags h)) h
  | _ => h
  end.

(** The cleanup the last run of the effect returned, if any. *)
Definition h_cleanup_run (h : consumer) : consumer :=
  match h_cleanup h with
  | Some (c, listenerId) =>
      h_with_cleanup None
        (h_with_listeners (unregister_all (c, listenerId) (h_listeners h))
           (h_emit [UnregisterAllFlagsListener c listenerId] h))
  | None => h
  end.

(** The body of [useEffect(..., [client])]. *)
Definition h_effect_body (h : consumer) : consumer :=
  match h_client h with
  | Some c =>
      let h := h_emit [RegisterAllFlagsListener c "herpnerp"] h in
      let h := h_with_listeners (register_all (c, "herpnerp") (h_listeners h)) h in
      let h := h_listener (Object_keys featureFlags) h in
      h_with_cleanup (Some (c, "herpnerp")) h
  | None => h
  end.

Inductive h_event : Type :=
| Provide (client : option LDClient)
| GlobalSet (ldClient : LDClient)
| HUnmount
| HSettle (i : nat) (r : outcome value)
| FlagsChanged (c : LDClient) (updatedKeys : list string).

Definition h_step (h : consumer) (e : h_event) : consumer :=
  match e with
  | Provide client =>
      match h_life h with
      | NotMounted =>
          h_effect_body (h_with_client client (h_with_life Mounted h))
      | Mounted =>
          if bool_decide (h_client h = client) then h
          else h_effect_body (h_cleanup_run (h_with_client client h))
      | Unmounted => h
      end
  | GlobalSet ldClient =>
      h_with_singletons (setGlobalLdClient ldClient (h_singletons h)) h
  | HUnmount =>
      match h_life h with
      | Mounted => h_cleanup_run (h_with_life Unmounted h)
      | _ => h
      end
  | HSettle i r =>
      match h_pending h !! i with
      | Some (updatedKey, fetch) =>
          let h := h_with_pending (remove_nth i (h_pending h)) h in
          match settle fetch r with
          | Return flagVal => h_setFlags updatedKey flagVal h
          | Throw _ => h
          end
      | None => h
      end
  | FlagsChanged c updatedKeys =>
      foldl (λ h _, h_listener updatedKeys h) h
        (listening_all c (h_listeners h))
  end.

Definition h_run (h : consumer) (es : list h_event) : consumer :=
  foldl h_step h es.
End Factory.
End FactoryTsx.

(** ** The specification's vocabulary *)

(** The resolution order as the specification words it: the live
    snapshot value if present, otherwise the caller's default if
    provided, otherwise the registry default.  A value is present
    (provided) when it is neither [undefined] nor [null]. *)
Definition resolution_order (live callerDefault registryDefault : value)
    : value :=
  if negb (nullish live) then live
  else if negb (nullish callerDefault) then callerDefault
  else registryDefault.

(** Going from the snapshot [before] to [after], exactly the entry of
    [key] was overwritten, with [v]. *)
Definition overwrites_only (key : string) (v : value)
    (before after : option snapshot) : Prop :=
  opt_member after key = v
  ∧ ∀ other, other ≠ key → opt_member after other = opt_member before other.

(** The variation method the specification assigns to a declared type. *)
Definition variation_for (t : PrimitiveConstructor) : variation :=
  match t with
  | BooleanConstructor => boolVariation
  | NumberConstructor => numberVariation
  | StringConstructor => stringVariation
  | ObjectConstructor => jsonVariation
  end.


(** The calls that make up an initialization: construction, identify,
    configure. *)
Definition initializes (c : call) : bool :=
  match c with
  | NewLDClient _ | Identify _ _ | Configure _ _ _ => true
  | _ => false
  end.

(** The constructions among them. *)
Definition constructs (c : call) : bool :=
  match c with NewLDClient _ => true | _ => false end.

(** The suspended functions of part_003's provider that belong to an
    initialization in flight. *)
Definition initializing (t : Part003.task) : bool :=
  match t with
  | Part003.AwaitIdentify _ _ _ | Part003.AwaitConfigure _ => true
  | Part003.AwaitFlag _ _ => false
  end.

(** What the initialization logic of part_003's provider reads and
    writes. *)
Definition init_view (w : Part003.provider) :=
  (Part003.globalLdClient w, Part003.client w, Part003.life w,
   Part003.constructed w, filter initializing (Part003.pending w),
   filter initializes (Part003.calls w)).

(** The states the initialization of part_003's provider goes through:
    nothing started; one initialization in flight (or failed) while the
    local state says ['loading...']; one client held by the closure. *)
Definition init_inv (w : Part003.provider) : Prop :=
  length (filter constructs (Part003.calls w)) = Part003.constructed w
  ∧ match Part003.globalLdClient w, Part003.client w with
    | None, NoClient =>
        Part003.constructed w = 0 ∧ filter initializing (Part003.pending w) = []
    | None, Loading =>
        Part003.constructed w = 1
        ∧ (length (filter initializing (Part003.pending w)) ≤ 1)%nat
    | None, Ready _ => False
    | Some _, NoClient => False
    | Some _, _ =>
        Part003.constructed w = 1 ∧ filter initializing (Part003.pending w) = []
    end.

(** The parts of the program that leave initialization alone. *)
Definition init_neutral (f : Part003.provider → Part003.provider) : Prop :=
  ∀ w, init_view (f w) = init_view w
       ∧ filter constructs (Part003.calls (f w))
         = filter constructs (Part003.calls w).

(** The fetch a listener of part_003 starts for [key] while the closure
    holds [g]. *)
Definition fetch_of (featureFlags : NamedFlags) (g : option LDClient)
    (key : string) : started :=
  Part003.getFeatureFlagAsync featureFlags g (VStr key) VUndefined.

(** The fetches the hook's [listener] of part_003 starts for
    [updatedKeys] while the closure holds [g]. *)
Definition fetches_of (featureFlags : NamedFlags) (g : option LDClient)
    (updatedKeys : list string) : list (string * started) :=
  (λ key, (key, fetch_of featureFlags g key)) <$> updatedKeys.

(** The same for factory.tsx, with the closure's singletons [g]. *)
Definition tsx_fetches_of (g : FactoryTsx.globals) (updatedKeys : list string)
    : list (string * started) :=
  (λ key, (key, FactoryTsx.getFeatureFlag g (VStr key) VUndefined))
    <$> updatedKeys.

(** The all-flags listeners of one [useAllFeatureFlags] in the SDK's
    table: one, on the context's client, while the component is mounted
    with a client; none otherwise.  The effect's cleanup is the one that
    removes it. *)
Definition hook_inv (h : Part003.consumer) : Prop :=
  match Part003.h_life h, Part003.h_client h with
  | Mounted, Ready c =>
      ∃ uniqueId, Part003.h_cleanup h = Some (c, uniqueId)
                  ∧ Part003.h_listeners h = [(c, uniqueId)]
  | _, _ => Part003.h_cleanup h = None ∧ Part003.h_listeners h = []
  end.

Definition tsx_hook_inv (h : FactoryTsx.consumer) : Prop :=
  match FactoryTsx.h_life h, FactoryTsx.h_client h with
  | Mounted, Some c =>
      FactoryTsx.h_cleanup h = Some (c, "herpnerp")
      ∧ FactoryTsx.h_listeners h = [(c, "herpnerp")]
  | _, _ => FactoryTsx.h_cleanup h = None ∧ FactoryTsx.h_listeners h = []
  end.

(** The registrations of an all-flags listener among the calls. *)
Definition registers_all (c : call) : bool :=
  match c with RegisterAllFlagsListener _ _ => true | _ => false end.

(** The removals of a per-flag listener among the calls. *)
Definition unregisters (c : call) : bool :=
  match c with UnregisterFeatureFlagListener _ _ _ => true | _ => false end.

(** In part_003 the destructors the [client] effect keeps are exactly the
    listeners the provider has in the SDK's table. *)
Definition teardown_inv (w : Part003.provider) : Prop :=
  Part003.flagListeners w = Part003.destructors w.

(** "A client exists": the closure holds one, or the provider's local
    state does. *)
Definition client_exists (w : Part003.provider) : Prop :=
  is_Some (Part003.globalLdClient w) ∨ ∃ c, Part003.client w = Ready c.

(** ** Vocabulary of the further properties *)

(** An event that does not render the provider of part_003 with both a
    context and a config. *)
Definition unconfigured (e : Part003.event) : bool :=
  match e with
  | Part003.Render (Some _) (Some _) => false
  | _ => true
  end.

(** The same for factory.tsx. *)
Definition tsx_unconfigured (e : FactoryTsx.event) : bool :=
  match e with
  | FactoryTsx.Render (Some _) (Some _) => false
  | _ => true
  end.

(** A provider of part_003 that has done nothing yet. *)
Definition blank (w : Part003.provider) : Prop :=
  Part003.calls w = [] ∧ Part003.pending w = []
  ∧ Part003.flagListeners w = [] ∧ Part003.destructors w = []
  ∧ Part003.client w = NoClient ∧ Part003.globalLdClient w = None
  ∧ Part003.flags w = None ∧ Part003.escapeHatchFlags w = None
  ∧ Part003.constructed w = 0.

(** A provider of factory.tsx that has done nothing yet. *)
Definition tsx_blank (featureFlags : NamedFlags) (w : FactoryTsx.provider)
    : Prop :=
  FactoryTsx.calls w = [] ∧ FactoryTsx.pending w = []
  ∧ FactoryTsx.flagListeners w = [] ∧ FactoryTsx.client w = None
  ∧ FactoryTsx.singletons w = FactoryTsx.initial_globals featureFlags
  ∧ FactoryTsx.flags w = None ∧ FactoryTsx.constructed w = 0.

(** A provider of part_003 in which no fetch was ever started: no
    snapshot, no listener, nothing suspended but an initialization, no
    call but initialization calls, and no client in the local state. *)
Definition untouched (w : Part003.provider) : Prop :=
  Part003.flags w = None ∧ Part003.escapeHatchFlags w = None
  ∧ Part003.flagListeners w = [] ∧ Part003.destructors w = []
  ∧ filter (λ t, negb (initializing t)) (Part003.pending w) = []
  ∧ filter (λ c, negb (initializes c)) (Part003.calls w) = []
  ∧ ∀ c, Part003.client w ≠ Ready c.

(** A client in the local state of part_003's provider is the one the
    closure holds. *)
Definition clients_agree (w : Part003.provider) : Prop :=
  ∀ c, Part003.client w = Ready c → Part003.globalLdClient w = Some c.

(** An initialization of part_003's provider that failed: the local
    state says ['loading...'], the closure holds nothing, and nothing is
    in flight that could change that. *)
Definition stuck (w : Part003.provider) : Prop :=
  Part003.globalLdClient w = None ∧ Part003.client w = Loading
  ∧ filter initializing (Part003.pending w) = [].

(** The per-flag listeners of part_003's provider in the SDK's table: one
    per key of the registry, in the order of [Object.keys], on the client
    of the local state, while the provider is mounted with a client; none
    otherwise. *)
Definition table_inv (featureFlags : NamedFlags) (w : Part003.provider)
    : Prop :=
  match Part003.life w, Part003.client w with
  | Mounted, Ready c =>
      (Part003.flagListeners w).*1
      = (λ key, (c, key)) <$> Object_keys featureFlags
  | _, _ => Part003.flagListeners w = []
  end.

(** The per-flag listeners registered by the calls made so far, in the
    order of their registration. *)
Definition registrations (cs : list call) : flagListenerTable :=
  omap (λ c, match c with
             | RegisterFeatureFlagListener c key l => Some (c, key, l)
             | _ => None
             end) cs.

(** In factory.tsx nothing the provider registered is ever taken back. *)
Definition tsx_pile_inv (featureFlags : NamedFlags) (w : FactoryTsx.provider)
    : Prop :=
  FactoryTsx.flagListeners w = registrations (FactoryTsx.calls w)
  ∧ filter unregisters (FactoryTsx.calls w) = []
  ∧ length (filter constructs (FactoryTsx.calls w)) = FactoryTsx.constructed w
  ∧ length (FactoryTsx.flagListeners w)
    = FactoryTsx.constructed w * length (Object_keys featureFlags).

(** Everything part_003's provider tracks is about a flag of the
    registry: its listeners, its fetches in flight, and the properties of
    its snapshot. *)
Definition declared_task (featureFlags : NamedFlags) (t : Part003.task)
    : Prop :=
  match t with
  | Part003.AwaitFlag key _ => is_Some (registered featureFlags key)
  | _ => True
  end.

Definition declared_inv (featureFlags : NamedFlags) (w : Part003.provider)
    : Prop :=
  Forall (λ e, is_Some (registered featureFlags e.1.2))
    (Part003.flagListeners w)
  ∧ Forall (declared_task featureFlags) (Part003.pending w)
  ∧ ∀ key, is_Some (default ∅ (Part003.flags w) !! key) →
           is_Some (registered featureFlags key).

(** The same for factory.tsx. *)
Definition tsx_declared_task (featureFlags : NamedFlags)
    (t : FactoryTsx.task) : Prop :=
  match t with
  | FactoryTsx.AwaitFlag key _ => is_Some (registered featureFlags key)
  end.

Definition tsx_declared_inv (featureFlags : NamedFlags)
    (w : FactoryTsx.provider) : Prop :=
  Forall (λ e, is_Some (registered featureFlags e.1.2))
    (FactoryTsx.flagListeners w)
  ∧ Forall (tsx_declared_task featureFlags) (FactoryTsx.pending w)
  ∧ ∀ key, is_Some (default ∅ (FactoryTsx.flags w) !! key) →
           is_Some (registered featureFlags key).


(** The lines written to the console among the calls. *)
Definition logs (c : call) : bool :=
  match c with ConsoleLog _ => true | _ => false end.

(** A fetch of part_003's provider in flight: a variation call for its
    own key, of the method its declared type selects, on the client [g]
    the closure holds, with the registry's default. *)
Definition awaits_client (featureFlags : NamedFlags) (g : option LDClient)
    (t : Part003.task) : Prop :=
  match t with
  | Part003.AwaitFlag key fetch =>
      ∃ c flag, g = Some c ∧ registered featureFlags key = Some flag
        ∧ fetch = Awaiting {| vc_client := c;
                              vc_method := variation_for (type flag);
                              vc_key := VStr key;
                              vc_default := defaultVal flag |} Return
  | _ => True
  end.

Definition flight_inv (featureFlags : NamedFlags) (w : Part003.provider)
    : Prop :=
  Forall (awaits_client featureFlags (Part003.globalLdClient w))
    (Part003.pending w)
  ∧ filter logs (Part003.calls w) = [].


(** A fetch of factory.tsx's provider in flight: a variation call for
    its own key, of the method its declared type selects, with the
    registry's default, whose answer goes through [JSON.parse] for an
    Object flag. *)
Definition tsx_awaits_client (JSON_parse : value → outcome value)
    (featureFlags : NamedFlags) (t : FactoryTsx.task) : Prop :=
  match t with
  | FactoryTsx.AwaitFlag key fetch =>
      ∃ c flag, registered featureFlags key = Some flag
        ∧ fetch = Awaiting {| vc_client := c;
                              vc_method := variation_for (type flag);
                              vc_key := VStr key;
                              vc_default := defaultVal flag |}
                    (match type flag with
                     | ObjectConstructor => JSON_parse
                     | _ => Return
                     end)
  end.

(** The closure of factory.tsx holds a client and the fetcher bound to
    it. *)
Definition tsx_bound (JSON_parse : value → outcome value)
    (featureFlags : NamedFlags) (w : FactoryTsx.provider) : Prop :=
  ∃ c, FactoryTsx.singletons w
       = FactoryTsx.setGlobalLdClient JSON_parse featureFlags c
           (FactoryTsx.singletons w).

Definition tsx_flight_inv (JSON_parse : value → outcome value)
    (featureFlags : NamedFlags) (w : FactoryTsx.provider) : Prop :=
  Forall (tsx_awaits_client JSON_parse featureFlags) (FactoryTsx.pending w)
  ∧ filter logs (FactoryTsx.calls w) = []
  ∧ (FactoryTsx.flagListeners w = [] ∨ tsx_bound JSON_parse featureFlags w).


(** A value that [||] skips although [??] keeps it: [false], [0], [NaN]
    and the empty string. *)
Definition falsy_present (v : value) : bool :=
  negb (truthy v) && negb (nullish v).


(** A fetch of part_003's hook in flight is for a key of the registry,
    or was already refused, or is for a name the registry inherits and
    has resolved to [undefined]. *)
Definition h_declared_task (featureFlags : NamedFlags)
    (t : string * started) : Prop :=
  is_Some (registered featureFlags t.1)
  ∨ (∃ logged err, t.2 = Settled logged (Throw err))
  ∨ (t.1 ∈ Object_prototype
     ∧ ∃ logged, t.2 = Settled logged (Return VUndefined)).

Definition h_declared_inv (featureFlags : NamedFlags) (h : Part003.consumer)
    : Prop :=
  Forall (h_declared_task featureFlags) (Part003.h_pending h)
  ∧ ∀ key v, Part003.h_flags h !! key = Some v →
             is_Some (registered featureFlags key)
             ∨ (key ∈ Object_prototype ∧ v = VUndefined).


(** The singletons of factory.tsx's closure after the provider has
    constructed [n] clients: bound to the last of them. *)
Definition latest_globals (JSON_parse : value → outcome value)
    (featureFlags : NamedFlags) (n : nat) : FactoryTsx.globals :=
  match n with
  | 0 => FactoryTsx.initial_globals featureFlags
  | S c =>
      FactoryTsx.setGlobalLdClient JSON_parse featureFlags c
        (FactoryTsx.initial_globals featureFlags)
  end.

Definition tsx_latest_inv (JSON_parse : value → outcome value)
    (featureFlags : NamedFlags) (w : FactoryTsx.provider) : Prop :=
  filter constructs (FactoryTsx.calls w)
  = NewLDClient <$> seq 0 (FactoryTsx.constructed w)
  ∧ FactoryTsx.singletons w
    = latest_globals JSON_parse featureFlags (FactoryTsx.constructed w).


(** ** The SDK's all-flags listeners, shared by every caller *)

(** Who makes a call to the SDK: the component whose hook is followed, or
    anybody else (another component that uses the hook, the
    application). *)
Inductive caller : Type :=
| ThisHook
| Other.

#[global] Instance caller_eq_dec : EqDecision caller.
Proof. solve_decision. Defined.

(** The SDK keeps one all-flags listener per client and listener id:
    registering under an id that is taken replaces the listener that was
    there, whoever registered it, and unregistering an id removes
    whatever is there.  An entry records who registered it. *)
Abbreviation sdkTable := (list (LDClient * string * caller)).









(** * Theorems *)

(** ** Resolution of a single flag *)

Lemma coalesce_val_order (live callerDefault registryDefault : value) :
  coalesce (Return (coalesce_val live callerDefault)) (Return registryDefault)
  = Return (resolution_order live callerDefault registryDefault).
Proof.
  unfold resolution_order, coalesce_val, coalesce.
  destruct (nullish live) eqn:Hl; simpl; rewrite ?Hl; try done.
  by destruct (nullish callerDefault).
Qed.

Lemma truthy_not_nullish (v : value) : truthy v = true → nullish v = false.
Proof. by destruct v. Qed.

Lemma coalesce_val_no_snapshot (callerDefault registryDefault : value) :
  coalesce_val callerDefault registryDefault
  = resolution_order VUndefined callerDefault registryDefault.
Proof.
  unfold resolution_order, coalesce_val. simpl.
  by destruct (nullish callerDefault).
Qed.

Lemma member_defaultVal_registered (featureFlags : NamedFlags) (key : string)
    (flag : FeatureFlag) :
  registered featureFlags key = Some flag →
  member_defaultVal featureFlags (VStr key) = Return (defaultVal flag).
Proof. intros H. unfold member_defaultVal. simpl. by rewrite H. Qed.

Lemma opt_defaultVal_registered (featureFlags : NamedFlags) (key : string)
    (flag : FeatureFlag) :
  registered featureFlags key = Some flag →
  opt_defaultVal featureFlags (VStr key) = defaultVal flag.
Proof. intros H. unfold opt_defaultVal. simpl. by rewrite H. Qed.

Lemma useFeatureFlag_resolves (featureFlags : NamedFlags)
    (flags : option snapshot) (key : string) (flag : FeatureFlag)
    (callerDefault : value) :
  registered featureFlags key = Some flag →
  Part003.useFeatureFlag featureFlags flags key callerDefault
    = Return (resolution_order (opt_index flags key) callerDefault
                (defaultVal flag))
  ∧ FactoryTsx.useFeatureFlag featureFlags flags key callerDefault
    = Return (resolution_order (opt_index flags key) callerDefault
                (defaultVal flag)).
Proof.
  intros H. unfold Part003.useFeatureFlag, FactoryTsx.useFeatureFlag.
  rewrite (member_defaultVal_registered _ _ _ H).
  by rewrite coalesce_val_order.
Qed.

(** [Object.keys] rearranges the property names, it adds and drops
    none. *)
Lemma insert_index_Permutation (x : N * string) (l : list (N * string)) :
  insert_index x l ≡ₚ x :: l.
Proof.
  induction l as [| y l IH]; simpl; [done |].
  destruct (x.1 <? y.1)%N; [done |]. rewrite IH. apply Permutation_swap.
Qed.

Lemma sort_index_Permutation (l : list (N * string)) :
  foldr insert_index [] l ≡ₚ l.
Proof.
  induction l as [| x l IH]; simpl; [done |].
  by rewrite insert_index_Permutation, IH.
Qed.

Lemma own_keys_Permutation (names : list string) : own_keys names ≡ₚ names.
Proof.
  unfold own_keys. rewrite sort_index_Permutation.
  induction names as [| name names IH]; simpl; [done |].
  rewrite filter_cons. case_decide as Hd.
  - rewrite Hd. simpl. rewrite <- Permutation_middle. by constructor.
  - destruct (array_index name) as [n |]; [| done]. simpl. by constructor.
Qed.

Lemma Object_keys_registered (featureFlags : NamedFlags) (key : string) :
  key ∈ Object_keys featureFlags ↔ is_Some (registered featureFlags key).
Proof.
  unfold Object_keys. rewrite own_keys_Permutation.
  induction featureFlags as [| [name flag] rest IH]; simpl.
  - split; [intros H; by apply elem_of_nil in H | by intros [? ?]].
  - rewrite elem_of_cons, IH. destruct (String.eqb name key) eqn:E.
    + apply String.eqb_eq in E as ->. split; [by eauto | by left].
    + apply String.eqb_neq in E.
      split; [intros [-> | H]; [done | exact H] | by right].
Qed.

Lemma part003_fetch_registered (featureFlags : NamedFlags) (ldClient : LDClient)
    (key : string) (flag : FeatureFlag) (callerDefault : value) :
  registered featureFlags key = Some flag →
  Part003.getFeatureFlagAsync featureFlags (Some ldClient) (VStr key)
    callerDefault
  = Awaiting
      {| vc_client := ldClient; vc_method := variation_for (type flag);
         vc_key := VStr key;
         vc_default := resolution_order VUndefined callerDefault
                         (defaultVal flag) |}
      Return.
Proof.
  intros H. unfold Part003.getFeatureFlagAsync. simpl. rewrite H.
  destruct flag as [t d]. simpl. rewrite coalesce_val_no_snapshot.
  by destruct t.
Qed.

Lemma factory_tsx_fetch_registered (JSON_parse : value → outcome value)
    (featureFlags : NamedFlags) (ldClient : LDClient) (key : string)
    (flag : FeatureFlag) (callerDefault : value) :
  registered featureFlags key = Some flag →
  FactoryTsx.getGetFeatureFlag JSON_parse featureFlags ldClient (VStr key)
    callerDefault
  = Awaiting
      {| vc_client := ldClient; vc_method := variation_for (type flag);
         vc_key := VStr key;
         vc_default := resolution_order VUndefined callerDefault
                         (defaultVal flag) |}
      (match type flag with
       | ObjectConstructor => JSON_parse
       | _ => Return
       end).
Proof.
  intros H. unfold FactoryTsx.getGetFeatureFlag, opt_type.
  rewrite (opt_defaultVal_registered _ _ _ H). simpl. rewrite H. simpl.
  rewrite coalesce_val_no_snapshot. by destruct (type flag).
Qed.

Lemma opt_member_spread_same (flags : option snapshot) (key : string) (v : value) :
  opt_member (Some (spread_with flags key v)) key = v.
Proof. unfold opt_member, spread_with. by rewrite lookup_insert_eq. Qed.

Lemma opt_member_spread_other (flags : option snapshot) (key other : string)
    (v : value) :
  other ≠ key →
  opt_member (Some (spread_with flags key v)) other = opt_member flags other.
Proof.
  intros Hne. unfold opt_member, spread_with.
  rewrite lookup_insert_ne by done. by destruct flags.
Qed.






(** ** Keys outside the registry *)




(** ** Accessors without a client *)

(** For a registered key and no client yet, the async accessor of each
    iteration settles at once, without a client call, to the caller's
    default if one is provided and to the registry default otherwise;
    part_003 writes one line to the console, factory.tsx none.
    [useFeatureFlag] gives the same value from the still [undefined]
    snapshot, and so does part_003's synchronous [getFeatureFlag] unless
    the caller's default is one of the values [||] skips and [??] keeps
    ([false], [0], [NaN], the empty string). *)
Theorem no_client_yields_default (featureFlags : NamedFlags) (key : string)
    (flag : FeatureFlag) (callerDefault : value) :
  registered featureFlags key = Some flag →
  Part003.getFeatureFlagAsync featureFlags None (VStr key) callerDefault
    = Settled ["getFeatureFlag called before ldClient initialized"]
        (Return (resolution_order VUndefined callerDefault (defaultVal flag)))
  ∧ FactoryTsx.getFeatureFlag (FactoryTsx.initial_globals featureFlags)
      (VStr key) callerDefault
    = Settled []
        (Return (resolution_order VUndefined callerDefault (defaultVal flag)))
  ∧ Part003.useFeatureFlag featureFlags None key callerDefault
    = Return (resolution_order VUndefined callerDefault (defaultVal flag))
  ∧ FactoryTsx.useFeatureFlag featureFlags None key callerDefault
    = Return (resolution_order VUndefined callerDefault (defaultVal flag))
  ∧ (falsy_present callerDefault = false →
     Part003.getFeatureFlagEscapeHatch featureFlags None (VStr key)
       callerDefault
     = Return (resolution_order VUndefined callerDefault (defaultVal flag))).
Proof.
  intros H.
  destruct (useFeatureFlag_resolves featureFlags None key flag
              callerDefault H) as [H1 H2].
  split_and!; [| | exact H1 | exact H2 |].
  - unfold Part003.getFeatureFlagAsync. simpl. rewrite H.
    destruct flag as [t d]. rewrite (opt_defaultVal_registered _ _ _ H).
    by rewrite coalesce_val_no_snapshot.
  - unfold FactoryTsx.getFeatureFlag. simpl.
    rewrite (opt_defaultVal_registered _ _ _ H).
    by rewrite coalesce_val_no_snapshot.
  - intros Hd. unfold Part003.getFeatureFlagEscapeHatch. simpl.
    rewrite (member_defaultVal_registered _ _ _ H).
    unfold falsy_present in Hd.
    unfold or_else_val, or_else, resolution_order. simpl.
    destruct (truthy callerDefault) eqn:Ht.
    + by rewrite (truthy_not_nullish _ Ht).
    + simpl in Hd. apply negb_false_iff in Hd. by rewrite Hd.
Qed.

Lemma no_client_yields_default_witness :
  Part003.getFeatureFlagAsync exampleFlags None
    (VStr "example-number-feature-flag") VUndefined
    = Settled ["getFeatureFlag called before ldClient initialized"]
        (Return (VNum 123))
  ∧ FactoryTsx.getFeatureFlag (FactoryTsx.initial_globals exampleFlags)
      (VStr "example-number-feature-flag") VUndefined
    = Settled [] (Return (VNum 123))
  ∧ Part003.useFeatureFlag exampleFlags None "example-number-feature-flag"
      VUndefined = Return (VNum 123)
  ∧ FactoryTsx.useFeatureFlag exampleFlags None "example-number-feature-flag"
      VUndefined = Return (VNum 123).
Proof.
  destruct (no_client_yields_default exampleFlags "example-number-feature-flag"
              {| type := NumberConstructor; defaultVal := VNum 123 |} VUndefined
              eq_refl) as (H1 & H2 & H3 & H4 & _).
  by split_and!.
Defined.

(** C3, at the failing input: no client has been initialized and nothing
    has been observed; part_003's synchronous [getFeatureFlag], called
    for "example-number-feature-flag" with the default [0], returns the
    registry default [123]: [undefined || 0 || 123].  The other
    accessors, which use [??], return the [0] that was provided. *)
Lemma C3_escape_hatch_drops_falsy_default :
  registered exampleFlags "example-number-feature-flag"
  = Some {| type := NumberConstructor; defaultVal := VNum 123 |}
  ∧ Part003.getGlobalLdClient Part003.initial = None
  ∧ Part003.getFeatureFlagEscapeHatch exampleFlags
      (Part003.escapeHatchFlags Part003.initial)
      (VStr "example-number-feature-flag") (VNum 0) = Return (VNum 123)
  ∧ Part003.getFeatureFlagAsync exampleFlags None
      (VStr "example-number-feature-flag") (VNum 0)
    = Settled ["getFeatureFlag called before ldClient initialized"]
        (Return (VNum 0))
  ∧ FactoryTsx.getFeatureFlag (FactoryTsx.initial_globals exampleFlags)
      (VStr "example-number-feature-flag") (VNum 0)
    = Settled [] (Return (VNum 0))
  ∧ Part003.useFeatureFlag exampleFlags (Part003.flags Part003.initial)
      "example-number-feature-flag" (VNum 0) = Return (VNum 0).
Proof. repeat split; vm_compute; reflexivity. Qed.

(** ** The synchronous escape hatch and falsy values *)

(** C7, at the failing input: the provider has observed the value [0]
    for "example-number-feature-flag" and mirrored it into
    [escapeHatchFlags], the hook returns that [0], and the synchronous
    [getFeatureFlag] returns the registry default [123] instead; with
    an observed [false] and a caller default [true] it returns
    [true]. *)
Lemma C7_escape_hatch_drops_falsy_snapshot :
  let w := Part003.run exampleFlags Part003.initial
             [Part003.Render (Some 1) (Some 1);
              Part003.Settle 0 (Return VUndefined);
              Part003.Settle 0 (Return VUndefined);
              Part003.Settle 1 (Return (VNum 0));
              Part003.Settle 0 (Return (VBool false))] in
  opt_member (Part003.escapeHatchFlags w) "example-number-feature-flag" = VNum 0
  ∧ Part003.useFeatureFlag exampleFlags (Part003.flags w)
      "example-number-feature-flag" VUndefined = Return (VNum 0)
  ∧ Part003.getFeatureFlagEscapeHatch exampleFlags (Part003.escapeHatchFlags w)
      (VStr "example-number-feature-flag") VUndefined = Return (VNum 123)
  ∧ opt_member (Part003.escapeHatchFlags w) "example-boolean-feature-flag"
      = VBool false
  ∧ Part003.getFeatureFlagEscapeHatch exampleFlags (Part003.escapeHatchFlags w)
      (VStr "example-boolean-feature-flag") (VBool true) = Return (VBool true).
Proof. repeat split; vm_compute; reflexivity. Qed.

(** ** Dispatch on the declared type *)

(** C8, as the code has it: for a registered key and an existing client,
    the async accessor of each iteration makes exactly the variation
    call the declared type selects, on that client, for that key, with
    the resolved default (the caller's if provided, else the registry's)
    as the call's default.  factory.tsx passes what [jsonVariation]
    answers through [JSON.parse] and returns the other answers as they
    are; part_003 returns every answer as it is, [jsonVariation]'s
    included. *)
Theorem C8_dispatch_on_declared_type (JSON_parse : value → outcome value)
    (featureFlags : NamedFlags) (ldClient : LDClient) (key : string)
    (flag : FeatureFlag) (callerDefault : value) :
  registered featureFlags key = Some flag →
  let call :=
    {| vc_client := ldClient; vc_method := variation_for (type flag);
       vc_key := VStr key;
       vc_default := resolution_order VUndefined callerDefault
                       (defaultVal flag) |} in
  FactoryTsx.getGetFeatureFlag JSON_parse featureFlags ldClient (VStr key)
    callerDefault
    = Awaiting call
        (match type flag with
         | ObjectConstructor => JSON_parse
         | _ => Return
         end)
  ∧ Part003.getFeatureFlagAsync featureFlags (Some ldClient) (VStr key)
      callerDefault
    = Awaiting call Return.
Proof.
  intros H. split.
  - by apply factory_tsx_fetch_registered.
  - by apply part003_fetch_registered.
Qed.

Lemma C8_dispatch_witness :
  FactoryTsx.getGetFeatureFlag Return exampleFlags 0
    (VStr "example-string-feature-flag") (VStr "zz")
    = Awaiting {| vc_client := 0; vc_method := stringVariation;
                  vc_key := VStr "example-string-feature-flag";
                  vc_default := VStr "zz" |} Return
  ∧ Part003.getFeatureFlagAsync exampleFlags (Some 0)
      (VStr "example-string-feature-flag") (VStr "zz")
    = Awaiting {| vc_client := 0; vc_method := stringVariation;
                  vc_key := VStr "example-string-feature-flag";
                  vc_default := VStr "zz" |} Return.
Proof.
  apply (C8_dispatch_on_declared_type Return exampleFlags 0
           "example-string-feature-flag"
           {| type := StringConstructor; defaultVal := VStr "asdf" |}
           (VStr "zz")).
  vm_compute. reflexivity.
Defined.

(** C8 as stated fails in part_003: for the Object flag of the example
    registry the accessor calls [jsonVariation] and, when the client
    answers with the serialized text [{}], returns that text; whatever
    [JSON.parse] makes of the text into an object, the accessor's result
    is not it. *)
Lemma C8_part003_returns_json_unparsed :
  ∃ call k,
    Part003.getFeatureFlagAsync exampleFlags (Some 0)
      (VStr "example-json-feature-flag") VUndefined = Awaiting call k
    ∧ vc_method call = jsonVariation
    ∧ resume k (Return (VStr "{}")) = Return (VStr "{}")
    ∧ ∀ JSON_parse : value → outcome value,
        JSON_parse (VStr "{}") = Return (VObj []) →
        resume k (Return (VStr "{}")) ≠ JSON_parse (VStr "{}").
Proof.
  eexists _, _. split; [vm_compute; reflexivity |].
  split; [reflexivity |]. split; [reflexivity |].
  intros JSON_parse Hp. rewrite Hp. simpl. discriminate.
Qed.

(** ** The global accessor pair of factory.tsx *)



(** ** The provider of part_003: initialization happens once *)

Section Part003Init.
Context (featureFlags : NamedFlags).
Import Part003.

Lemma filter_initializes_log (logged : list string) :
  filter initializes (ConsoleLog <$> logged) = [].
Proof. induction logged as [| m logged IH]; [done | exact IH]. Qed.

Lemma filter_constructs_log (logged : list string) :
  filter constructs (ConsoleLog <$> logged) = [].
Proof. induction logged as [| m logged IH]; [done | exact IH]. Qed.

Lemma filter_initializes_calls_of (fetch : started) :
  filter initializes (calls_of fetch) = [].
Proof. destruct fetch; [apply filter_initializes_log | done]. Qed.

Lemma filter_constructs_calls_of (fetch : started) :
  filter constructs (calls_of fetch) = [].
Proof. destruct fetch; [apply filter_constructs_log | done]. Qed.

Lemma init_neutral_foldl {A} (f : provider → A → provider) (l : list A) :
  (∀ a, init_neutral (λ w, f w a)) → init_neutral (λ w, foldl f w l).
Proof.
  intros Hf. induction l as [| a l IH] using rev_ind; [done |].
  intros w. rewrite foldl_app. simpl.
  destruct (Hf a (foldl f w l)) as [-> ->]. apply IH.
Qed.

Ltac init_neutral_by_unfolding :=
  intros w;
  unfold init_view, subscribe, listener, destruct_one, suspend, emit; simpl;
  rewrite ?filter_app, ?filter_initializes_calls_of,
    ?filter_constructs_calls_of; simpl;
  by rewrite ?app_nil_r.

Lemma init_neutral_listener (key : string) :
  init_neutral (listener featureFlags key).
Proof. init_neutral_by_unfolding. Qed.

Lemma init_neutral_subscribe (c : LDClient) (key : string) :
  init_neutral (λ w, subscribe featureFlags c w key).
Proof. init_neutral_by_unfolding. Qed.

Lemma init_neutral_destruct_one (d : LDClient * string * nat) :
  init_neutral (λ w, destruct_one w d).
Proof. destruct d as [[c key] l]. init_neutral_by_unfolding. Qed.

Lemma init_neutral_cleanup_client : init_neutral cleanup_client.
Proof.
  intros w. unfold cleanup_client.
  destruct (init_neutral_foldl destruct_one (destructors w)
              init_neutral_destruct_one w) as [Hv Hc].
  unfold init_view in *. simpl in *. by rewrite Hc.
Qed.

Lemma init_neutral_effect_client : init_neutral (effect_client featureFlags).
Proof.
  intros w. unfold effect_client.
  destruct (init_neutral_cleanup_client w) as [Hv Hc].
  destruct (client (cleanup_client w)) as [| | c]; [done | done |].
  destruct (init_neutral_foldl (subscribe featureFlags c)
              (Object_keys featureFlags) (init_neutral_subscribe c)
              (cleanup_client w)) as [-> ->].
  done.
Qed.

Lemma init_neutral_setFlags (key : string) (v : value) :
  init_neutral (setFlags key v).
Proof. intros w. unfold setFlags. by destruct (life w). Qed.
Lemma init_inv_neutral (f : provider → provider) (w : provider) :
  init_neutral f → init_inv w → init_inv (f w).
Proof.
  intros Hf. destruct (Hf w) as [Hv Hc]. unfold init_view in Hv.
  injection Hv as Hg Hcl _ Hn Hp _.
  unfold init_inv. by rewrite Hc, Hg, Hcl, Hn, Hp.
Qed.

Lemma filter_remove_nth {A} (P : A → bool) (l : list A) (i : nat) (t : A) :
  l !! i = Some t →
  filter P l
  = filter P (take i l) ++ (if P t then [t] else []) ++ filter P (drop (S i) l)
  ∧ filter P (remove_nth i l) = filter P (take i l) ++ filter P (drop (S i) l).
Proof.
  intros Hi. unfold remove_nth. rewrite filter_app. split; [| done].
  rewrite <- (take_drop_middle l i t Hi) at 1.
  rewrite filter_app, filter_cons. by destruct (P t).
Qed.

Lemma remove_nth_flag (l : list task) (i : nat) (t : task) :
  l !! i = Some t → initializing t = false →
  filter initializing (remove_nth i l) = filter initializing l.
Proof.
  intros Hi Ht. destruct (filter_remove_nth initializing l i t Hi) as [-> ->].
  by rewrite Ht.
Qed.

Lemma remove_nth_init (l : list task) (i : nat) (t : task) :
  l !! i = Some t → initializing t = true →
  (length (filter initializing l) ≤ 1)%nat →
  filter initializing l ≠ [] ∧ filter initializing (remove_nth i l) = [].
Proof.
  intros Hi Ht. destruct (filter_remove_nth initializing l i t Hi) as [-> ->].
  rewrite Ht. rewrite !length_app. simpl. intros Hlen.
  split; [by destruct (filter initializing (take i l)) |].
  destruct (filter initializing (take i l)); simpl in *; [| lia].
  destruct (filter initializing (drop (S i) l)); simpl in *; [done | lia].
Qed.

(** With an initialization in flight, the closure holds no client and
    the local state says ['loading...']. *)
Lemma init_inv_in_flight (w : provider) (i : nat) (t : task) :
  init_inv w → pending w !! i = Some t → initializing t = true →
  globalLdClient w = None ∧ client w = Loading ∧ constructed w = 1
  ∧ filter initializing (remove_nth i (pending w)) = []
  ∧ length (filter constructs (calls w)) = 1.
Proof.
  intros [Hc Hinv] Hi Ht.
  destruct (globalLdClient w) as [g |], (client w) as [| | c];
    try done; destruct Hinv as [Hn Hp].
  - destruct (filter_remove_nth initializing _ i t Hi) as [Hf _].
    rewrite Hp, Ht in Hf. by destruct (filter initializing (take i (pending w))).
  - destruct (filter_remove_nth initializing _ i t Hi) as [Hf _].
    rewrite Hp, Ht in Hf. by destruct (filter initializing (take i (pending w))).
  - destruct (filter_remove_nth initializing _ i t Hi) as [Hf _].
    rewrite Hp, Ht in Hf. by destruct (filter initializing (take i (pending w))).
  - destruct (remove_nth_init _ i t Hi Ht Hp) as [_ Hr].
    repeat split; try done. by rewrite Hc.
Qed.

Lemma init_inv_initial : init_inv initial.
Proof. by split. Qed.

Lemma init_inv_effect_init (context : option LDContext)
    (config : option LDConfig) (w : provider) :
  life w = Mounted → init_inv w →
  init_inv (effect_init featureFlags context config w).
Proof.
  intros Hl Hinv. unfold effect_init.
  destruct context as [context |], config as [config |]; try done.
  destruct (bool_decide _ || _) eqn:Hguard; [done |].
  apply orb_false_iff in Hguard as [Hg Hc].
  apply bool_decide_eq_false in Hg.
  unfold setClient. simpl. rewrite Hl.
  apply (init_inv_neutral (effect_client featureFlags));
    [apply init_neutral_effect_client |].
  destruct Hinv as [Hcount Hinv]. unfold getGlobalLdClient in Hg.
  destruct (globalLdClient w) as [g |] eqn:Hgl; [by destruct Hg |].
  destruct (client w) eqn:Hcl; try done. destruct Hinv as [Hn Hp].
  unfold init_inv. simpl. rewrite Hgl, !filter_app, Hp, !length_app.
  simpl. rewrite Hcount, Hn. done.
Qed.

Lemma init_inv_step (w : provider) (e : event) :
  init_inv w → init_inv (step featureFlags w e).
Proof.
  intros Hinv. destruct e as [context config | | i r | c key]; simpl.
  - destruct (life w) eqn:Hl; [| | done].
    + apply (init_inv_neutral (effect_client featureFlags));
        [apply init_neutral_effect_client |].
      assert (init_inv (effect_init featureFlags context config
                          (with_deps (context, config) (with_life Mounted w))))
        as H by (by apply init_inv_effect_init).
      exact H.
    + case_bool_decide; [done |].
      by apply init_inv_effect_init.
  - destruct (life w); try done.
    apply (init_inv_neutral cleanup_client);
      [apply init_neutral_cleanup_client | exact Hinv].
  - destruct (pending w !! i) as [t |] eqn:Hi; [| done].
    destruct t as [newClient context config | newClient | key fetch]; simpl.
    + destruct (init_inv_in_flight w i _ Hinv Hi eq_refl)
        as (Hg & Hc & Hn & Hp & Hcount).
      destruct r as [v | err]; unfold init_inv; simpl;
        rewrite ?filter_app, Hg, Hc, Hp, Hn; simpl;
        rewrite ?app_nil_r, Hcount; repeat split; lia.
    + destruct (init_inv_in_flight w i _ Hinv Hi eq_refl)
        as (Hg & Hc & Hn & Hp & Hcount).
      destruct r as [v | err]; simpl.
      * destruct (life w) eqn:Hl.
        -- unfold init_inv, setGlobalLdClient. simpl.
           by rewrite Hc, Hp, Hn, Hcount.
        -- apply (init_inv_neutral (effect_client featureFlags));
             [apply init_neutral_effect_client |].
           unfold init_inv, setGlobalLdClient. simpl.
           by rewrite Hp, Hn, Hcount.
        -- unfold init_inv, setGlobalLdClient. simpl.
           by rewrite Hc, Hp, Hn, Hcount.
      * unfold init_inv. simpl. rewrite Hg, Hc, Hp, Hn, Hcount.
        repeat split; simpl; lia.
    + assert (init_inv (with_pending (remove_nth i (pending w)) w)) as Hinv'.
      { destruct Hinv as [Hcount Hinv]. unfold init_inv. simpl.
        by rewrite (remove_nth_flag _ i _ Hi eq_refl). }
      destruct (settle fetch r); [| done].
      apply (init_inv_neutral (setFlags key a));
        [apply init_neutral_setFlags | exact Hinv'].
  - apply (init_inv_neutral
             (λ w0, foldl (λ w _, listener featureFlags key w) w0
                      (listening c key (flagListeners w)))); [| done].
    apply (init_neutral_foldl (λ w (_ : LDClient * string * nat),
                                 listener featureFlags key w)).
    intros _. apply init_neutral_listener.
Qed.

Lemma init_inv_run (w : provider) (es : list event) :
  init_inv w → init_inv (run featureFlags w es).
Proof.
  revert w. induction es as [| e es IH]; intros w Hinv; [done |].
  simpl. apply IH. by apply init_inv_step.
Qed.
Lemma init_neutral_held (f : provider → provider) (w : provider) :
  init_neutral f →
  globalLdClient (f w) = globalLdClient w
  ∧ filter initializes (calls (f w)) = filter initializes (calls w).
Proof.
  intros Hf. destruct (Hf w) as [Hv _]. unfold init_view in Hv.
  by injection Hv as -> _ _ _ _ ->.
Qed.

(** The guard of the first effect. *)
Lemma effect_init_guarded (context : option LDContext)
    (config : option LDConfig) (w : provider) :
  is_Some (globalLdClient w) →
  effect_init featureFlags context config w = w.
Proof.
  intros Hg. unfold effect_init, getGlobalLdClient.
  destruct context, config; try done.
  by rewrite (bool_decide_eq_true_2 _ Hg).
Qed.

(** Once the closure holds a client, a step keeps it and makes no
    initialization call. *)
Lemma held_step (w : provider) (e : event) :
  init_inv w → is_Some (globalLdClient w) →
  is_Some (globalLdClient (step featureFlags w e))
  ∧ filter initializes (calls (step featureFlags w e))
    = filter initializes (calls w).
Proof.
  intros Hinv Hg. destruct e as [context config | | i r | c key]; simpl.
  - destruct (life w) eqn:Hl; [| | done].
    + rewrite effect_init_guarded by done.
      destruct (init_neutral_held (effect_client featureFlags)
                  (effect_escapeHatch
                     (with_deps (context, config) (with_life Mounted w)))
                  init_neutral_effect_client) as [-> ->].
      done.
    + case_bool_decide; [done |]. by rewrite effect_init_guarded.
  - destruct (life w); try done.
    by destruct (init_neutral_held cleanup_client (with_life Unmounted w)
                   init_neutral_cleanup_client) as [-> ->].
  - destruct (pending w !! i) as [t |] eqn:Hi; [| done].
    destruct (initializing t) eqn:Ht.
    { destruct (init_inv_in_flight w i t Hinv Hi Ht) as (Hnone & _).
      rewrite Hnone in Hg. by destruct Hg. }
    destruct t as [? ? ? | ? | key fetch]; try done. simpl.
    destruct (settle fetch r) as [v | err]; [| done].
    by destruct (init_neutral_held (setFlags key v)
                   (with_pending (remove_nth i (pending w)) w)
                   (init_neutral_setFlags key v)) as [-> ->].
  - destruct (init_neutral_held
                (λ w0, foldl (λ w _, listener featureFlags key w) w0
                         (listening c key (flagListeners w))) w) as [-> ->];
      [| done].
    apply (init_neutral_foldl (λ w (_ : LDClient * string * nat),
                                 listener featureFlags key w)).
    intros _. apply init_neutral_listener.
Qed.

Lemma held_run (w : provider) (es : list event) :
  init_inv w → is_Some (globalLdClient w) →
  filter initializes (calls (run featureFlags w es))
  = filter initializes (calls w).
Proof.
  revert w. induction es as [| e es IH]; intros w Hinv Hg; [done |].
  simpl. destruct (held_step w e Hinv Hg) as [Hg' <-].
  apply IH; [by apply init_inv_step | done].
Qed.

(** A client in the local state is also the one the closure holds. *)
Lemma client_exists_held (w : provider) :
  init_inv w → client_exists w → is_Some (globalLdClient w).
Proof.
  intros [_ Hinv] [Hg | [c Hc]]; [done |].
  rewrite Hc in Hinv. by destruct (globalLdClient w).
Qed.
End Part003Init.

(** ** The provider of part_003: what happens on reaching Ready *)

Section Part003Ready.
Context (featureFlags : NamedFlags).
Import Part003.

(** What the [map] over the registry's keys leaves behind. *)
Lemma subscribe_all (c : LDClient) (keys : list string) (w : provider) :
  let w' := foldl (subscribe featureFlags c) w keys in
  globalLdClient w' = globalLdClient w
  ∧ life w' = life w ∧ client w' = client w ∧ flags w' = flags w
  ∧ pending w'
    = pending w ++ ((λ key, AwaitFlag key (fetch_of featureFlags (globalLdClient w) key)) <$> keys)
  ∧ (∀ e, e ∈ flagListeners w → e ∈ flagListeners w')
  ∧ (∀ x, x ∈ calls w → x ∈ calls w')
  ∧ (∀ key, key ∈ keys →
       (∃ l, (c, key, l) ∈ flagListeners w'
             ∧ RegisterFeatureFlagListener c key l ∈ calls w')
       ∧ ∀ x, x ∈ calls_of (fetch_of featureFlags (globalLdClient w) key) → x ∈ calls w').
Proof.
  induction keys as [| key keys IH] using rev_ind; simpl.
  - rewrite app_nil_r. split_and!; try done. intros key Hk. by inversion Hk.
  - rewrite foldl_app. simpl.
    destruct IH as (Hg & Hl & Hc & Hf & Hp & Hls & Hcs & Hkeys).
    set (w1 := foldl (subscribe featureFlags c) w keys) in *.
    unfold subscribe, listener, suspend, emit, getGlobalLdClient. simpl.
    rewrite Hg, Hp, fmap_app, <- app_assoc. simpl.
    split_and!; try done.
    + intros e He. apply elem_of_app. left. by apply Hls.
    + intros x Hx. rewrite !elem_of_app. left. left. by apply Hcs.
    + intros k Hk. apply elem_of_app in Hk as [Hin | Hin].
      * destruct (Hkeys k Hin) as [[l [Hl1 Hl2]] Hfetch]. split.
        -- exists l. split; [apply elem_of_app; by left |].
           rewrite !elem_of_app. by left; left.
        -- intros x Hx. rewrite !elem_of_app. left. left. by apply Hfetch.
      * apply list_elem_of_singleton in Hin as ->. split.
        -- exists (closures w1).
           split; [apply elem_of_app; right; by apply list_elem_of_singleton |].
           rewrite !elem_of_app. right. by apply list_elem_of_singleton.
        -- intros x Hx. rewrite !elem_of_app. left. by right.
Qed.
Lemma cleanup_client_frame (w : provider) :
  let w' := cleanup_client w in
  globalLdClient w' = globalLdClient w ∧ life w' = life w
  ∧ client w' = client w ∧ flags w' = flags w ∧ pending w' = pending w.
Proof.
  unfold cleanup_client. simpl.
  induction (destructors w) as [| [[c key] l] ds IH] using rev_ind; [done |].
  rewrite foldl_app. simpl. unfold destruct_one. simpl. exact IH.
Qed.

(** The await of [configure] resolves in a mounted provider: the
    provider is Ready, and for every registered key a fetch is in
    flight on the new client and a listener is registered for it. *)
Lemma ready_subscribes (w : provider) (i : nat) (c : LDClient) (r : value)
    (key : string) (flag : FeatureFlag) :
  life w = Mounted → pending w !! i = Some (AwaitConfigure c) →
  registered featureFlags key = Some flag →
  let w' := step featureFlags w (Settle i (Return r)) in
  client w' = Ready c ∧ globalLdClient w' = Some c ∧ life w' = Mounted
  ∧ (∃ j, pending w' !! j
          = Some (AwaitFlag key (fetch_of featureFlags (Some c) key)))
  ∧ Variation {| vc_client := c; vc_method := variation_for (type flag);
                 vc_key := VStr key; vc_default := defaultVal flag |}
    ∈ calls w'
  ∧ ∃ l, (c, key, l) ∈ flagListeners w'
         ∧ RegisterFeatureFlagListener c key l ∈ calls w'.
Proof.
  intros Hl Hi Hflag. simpl. rewrite Hi. simpl. rewrite Hl.
  unfold effect_client.
  set (w0 := setGlobalLdClient c
               (with_client (Ready c)
                  (with_pending (remove_nth i (pending w)) w))).
  destruct (cleanup_client_frame w0) as (Hg & Hlife & Hc & _ & _).
  rewrite Hc. simpl.
  destruct (subscribe_all c (Object_keys featureFlags) (cleanup_client w0))
    as (Hg' & Hl' & Hc' & _ & Hp' & _ & _ & Hkeys).
  rewrite Hg', Hl', Hc', Hg, Hlife, Hc. simpl. rewrite Hl.
  assert (key ∈ Object_keys featureFlags) as Hin
    by (apply Object_keys_registered; by exists flag).
  destruct (Hkeys key Hin) as [Hreg Hcalls].
  split_and!; try done.
  - apply list_elem_of_lookup. rewrite Hp', Hg. simpl.
    apply elem_of_app. right. apply list_elem_of_fmap. by exists key.
  - apply Hcalls. rewrite Hg. simpl. unfold fetch_of.
    rewrite (part003_fetch_registered _ _ _ _ _ Hflag). simpl.
    by apply list_elem_of_singleton.
Qed.

(** A suspended listener resumes with the fetched value: the snapshot
    is the old one with that one key overwritten, and the escape hatch
    mirrors it. *)
Lemma settle_flag_overwrites (w : provider) (i : nat) (key : string)
    (fetch : started) (r : outcome value) (v : value) :
  life w = Mounted → pending w !! i = Some (AwaitFlag key fetch) →
  settle fetch r = Return v →
  let w' := step featureFlags w (Settle i r) in
  flags w' = Some (spread_with (flags w) key v)
  ∧ escapeHatchFlags w' = flags w'.
Proof.
  intros Hl Hi Hs. simpl. rewrite Hi. simpl. rewrite Hs.
  unfold setFlags. simpl. by rewrite Hl.
Qed.

Lemma listeners_fetch (key : string) (w : provider)
    (ls : flagListenerTable) :
  let w' := foldl (λ w _, listener featureFlags key w) w ls in
  pending w'
  = pending w
    ++ replicate (length ls)
         (AwaitFlag key (fetch_of featureFlags (globalLdClient w) key))
  ∧ globalLdClient w' = globalLdClient w ∧ flags w' = flags w
  ∧ life w' = life w ∧ flagListeners w' = flagListeners w.
Proof.
  simpl. induction ls as [| l ls IH] using rev_ind.
  - simpl. by rewrite app_nil_r.
  - rewrite foldl_app. simpl. destruct IH as (Hp & Hg & Hf & Hl & Ht).
    set (w1 := foldl (λ w _, listener featureFlags key w) w ls) in *.
    unfold listener, suspend, emit, getGlobalLdClient. simpl.
    rewrite Hp, Hg, Hf, Hl, Ht, length_app, <- app_assoc. simpl.
    split_and!; try done. f_equal.
    by rewrite Nat.add_comm, <- replicate_cons_app.
Qed.

(** The SDK reports a change of [key] on [c]: every listener
    registered there starts a fetch for that key and nothing else. *)
Lemma flag_change_fetches (w : provider) (c : LDClient) (key : string)
    (l : nat) :
  (c, key, l) ∈ flagListeners w →
  let w' := step featureFlags w (FlagChanged c key) in
  ∃ n, pending w'
       = pending w
         ++ replicate (S n)
              (AwaitFlag key (fetch_of featureFlags (globalLdClient w) key))
       ∧ flags w' = flags w ∧ life w' = life w.
Proof.
  intros Hin. simpl.
  destruct (listeners_fetch key w (listening c key (flagListeners w)))
    as (Hp & _ & Hf & Hl & _).
  assert ((c, key, l) ∈ listening c key (flagListeners w)) as Hlistening
    by (apply list_elem_of_filter; by split).
  destruct (listening c key (flagListeners w)) as [| e ls] eqn:Hls;
    [by inversion Hlistening |].
  exists (length ls). by rewrite Hp, Hf, Hl.
Qed.
(** Resuming the [j]-th suspended listener of a mounted provider with
    a fetched value overwrites its key and no other. *)
Lemma settle_flag_only_that_key (w : provider) (j : nat) (key : string)
    (fetch : started) (r : outcome value) (v : value) :
  life w = Mounted → pending w !! j = Some (AwaitFlag key fetch) →
  settle fetch r = Return v →
  let w' := step featureFlags w (Settle j r) in
  opt_member (flags w') key = v
  ∧ ∀ other, other ≠ key →
      opt_member (flags w') other = opt_member (flags w) other.
Proof.
  intros Hl Hj Hs.
  destruct (settle_flag_overwrites w j key fetch r v Hl Hj Hs) as [Hf _].
  cbv zeta. rewrite Hf. split; [apply opt_member_spread_same |].
  intros other Hne. by apply opt_member_spread_other.
Qed.

Lemma ready_fetches_and_subscribes (key : string) (flag : FeatureFlag)
    (w : provider) (i : nat) (c : LDClient) (r : value) :
  registered featureFlags key = Some flag →
  life w = Mounted → pending w !! i = Some (AwaitConfigure c) →
  let fetch := getFeatureFlagAsync featureFlags (Some c) (VStr key) VUndefined in
  let w' := step featureFlags w (Settle i (Return r)) in
  client w' = Ready c
  ∧ (∃ l, (c, key, l) ∈ flagListeners w'
          ∧ RegisterFeatureFlagListener c key l ∈ calls w')
  ∧ Variation {| vc_client := c; vc_method := variation_for (type flag);
                 vc_key := VStr key; vc_default := defaultVal flag |}
    ∈ calls w'
  ∧ (∀ v, settle fetch (Return v) = Return v)
  ∧ ∃ j, pending w' !! j = Some (AwaitFlag key fetch)
         ∧ ∀ a v, settle fetch a = Return v →
             let w'' := step featureFlags w' (Settle j a) in
             opt_member (flags w'') key = v
             ∧ ∀ other, other ≠ key →
                 opt_member (flags w'') other = opt_member (flags w') other.
Proof.
  intros Hflag Hl Hi.
  destruct (ready_subscribes w i c r key flag Hl Hi Hflag)
    as (Hc & Hg & Hl' & [j Hj] & Hv & Hreg).
  cbv zeta. split_and!; try done.
  - intros v. by rewrite (part003_fetch_registered _ _ _ _ _ Hflag).
  - exists j. split; [exact Hj |]. intros a v Hs.
    by apply (settle_flag_only_that_key _ j key _ a v Hl' Hj Hs).
Qed.

Lemma listener_overwrites_its_key (key : string) (w : provider)
    (c : LDClient) (l : nat) :
  (c, key, l) ∈ flagListeners w → life w = Mounted →
  let fetch :=
    getFeatureFlagAsync featureFlags (globalLdClient w) (VStr key) VUndefined in
  let w1 := step featureFlags w (FlagChanged c key) in
  flags w1 = flags w
  ∧ ∃ j, pending w1 !! j = Some (AwaitFlag key fetch)
         ∧ ∀ a v, settle fetch a = Return v →
             let w2 := step featureFlags w1 (Settle j a) in
             opt_member (flags w2) key = v
             ∧ ∀ other, other ≠ key →
                 opt_member (flags w2) other = opt_member (flags w) other.
Proof.
  intros Hin Hl. cbv zeta.
  destruct (flag_change_fetches w c key l Hin) as (n & Hp & Hf & Hl').
  split; [exact Hf |]. exists (length (pending w)).
  assert (pending (step featureFlags w (FlagChanged c key))
            !! length (pending w)
          = Some (AwaitFlag key (fetch_of featureFlags (globalLdClient w) key)))
    as Hj.
  { rewrite Hp, lookup_app_r by lia. by rewrite Nat.sub_diag. }
  split; [exact Hj |]. intros a v Hs. rewrite <- Hf.
  apply (settle_flag_only_that_key _ (length (pending w)) key
           (fetch_of featureFlags (globalLdClient w) key) a v);
    [by rewrite Hl' | exact Hj | exact Hs].
Qed.
End Part003Ready.

(** ** The provider of factory.tsx: what happens on reaching Ready *)

Section FactoryTsxReady.
Context (JSON_parse : value → outcome value) (featureFlags : NamedFlags).
Import FactoryTsx.

Lemma tsx_subscribe_all (c : LDClient) (keys : list string) (w : provider) :
  let w' := foldl (subscribe c) w keys in
  singletons w' = singletons w
  ∧ life w' = life w ∧ client w' = client w ∧ flags w' = flags w
  ∧ pending w'
    = pending w
      ++ ((λ key, AwaitFlag key
                    (getFeatureFlag (singletons w) (VStr key) VUndefined))
            <$> keys)
  ∧ (∀ key, key ∈ keys →
       (∃ l, (c, key, l) ∈ flagListeners w'
             ∧ RegisterFeatureFlagListener c key l ∈ calls w')
       ∧ ∀ x, x ∈ calls_of (getFeatureFlag (singletons w) (VStr key) VUndefined)
              → x ∈ calls w').
Proof.
  induction keys as [| key keys IH] using rev_ind; simpl.
  - rewrite app_nil_r. split_and!; try done. intros key Hk. by inversion Hk.
  - rewrite foldl_app. simpl.
    destruct IH as (Hg & Hl & Hc & Hf & Hp & Hkeys).
    set (w1 := foldl (subscribe c) w keys) in *.
    unfold subscribe, listener, suspend, emit. simpl.
    rewrite Hg, Hp, fmap_app, <- app_assoc. simpl.
    split_and!; try done.
    intros k Hk. apply elem_of_app in Hk as [Hin | Hin].
    + destruct (Hkeys k Hin) as [[l [Hl1 Hl2]] Hfetch]. split.
      * exists l. split; [apply elem_of_app; by left |].
        rewrite !elem_of_app. by left; left.
      * intros x Hx. rewrite !elem_of_app. left. left. by apply Hfetch.
    + apply list_elem_of_singleton in Hin as ->. split.
      * exists (closures w1).
        split; [apply elem_of_app; right; by apply list_elem_of_singleton |].
        rewrite !elem_of_app. right. by apply list_elem_of_singleton.
      * intros x Hx. rewrite !elem_of_app. left. by right.
Qed.

(** The effect runs with a context and a config: a new client is held,
    and for every registered key a fetch is in flight on it and a
    listener is registered for it. *)
Lemma tsx_ready_subscribes (w : provider) (context : LDContext)
    (config : LDConfig) (key : string) (flag : FeatureFlag) :
  life w = NotMounted
  ∨ (life w = Mounted ∧ deps w ≠ (Some context, Some config)) →
  registered featureFlags key = Some flag →
  let c := constructed w in
  let w' := step JSON_parse featureFlags w
              (Render (Some context) (Some config)) in
  client w' = Some c ∧ getGlobalLdClient (singletons w') = Some c
  ∧ life w' = Mounted
  ∧ (∃ j, pending w' !! j
          = Some (AwaitFlag key
                    (getGetFeatureFlag JSON_parse featureFlags c (VStr key)
                       VUndefined)))
  ∧ Variation {| vc_client := c; vc_method := variation_for (type flag);
                 vc_key := VStr key; vc_default := defaultVal flag |}
    ∈ calls w'
  ∧ ∃ l, (c, key, l) ∈ flagListeners w'
         ∧ RegisterFeatureFlagListener c key l ∈ calls w'.
Proof.
  intros Hlife Hflag. cbv zeta. unfold step.
  assert (key ∈ Object_keys featureFlags) as Hin
    by (apply Object_keys_registered; by exists flag).
  assert (∀ w0, life w0 = Mounted → constructed w0 = constructed w →
            let w' := effect_init JSON_parse featureFlags (Some context)
                        (Some config) w0 in
            client w' = Some (constructed w)
            ∧ getGlobalLdClient (singletons w') = Some (constructed w)
            ∧ life w' = Mounted
            ∧ (∃ j, pending w' !! j
                    = Some (AwaitFlag key
                              (getGetFeatureFlag JSON_parse featureFlags
                                 (constructed w) (VStr key) VUndefined)))
            ∧ Variation {| vc_client := constructed w;
                           vc_method := variation_for (type flag);
                           vc_key := VStr key;
                           vc_default := defaultVal flag |}
              ∈ calls w'
            ∧ ∃ l, (constructed w, key, l) ∈ flagListeners w'
                   ∧ RegisterFeatureFlagListener (constructed w) key l
                     ∈ calls w') as Heffect.
  { intros w0 Hl0 Hc0. simpl. unfold effect_init, setClient. simpl.
    rewrite Hl0, Hc0. simpl.
    match goal with
    | |- context [foldl (subscribe ?c) ?w1 ?keys] =>
        destruct (tsx_subscribe_all c keys w1)
          as (Hg' & Hl' & Hc' & _ & Hp' & Hkeys)
    end.
    rewrite Hg', Hl', Hc'. simpl.
    destruct (Hkeys key Hin) as [Hreg Hcalls].
    split_and!; try done.
    - apply list_elem_of_lookup. rewrite Hp'. simpl.
      apply elem_of_app. right. apply list_elem_of_fmap. by exists key.
    - apply Hcalls. simpl. unfold getFeatureFlag. simpl.
      rewrite (factory_tsx_fetch_registered _ _ _ _ _ _ Hflag). simpl.
      by apply list_elem_of_singleton. }
  destruct Hlife as [Hl | [Hl Hd]]; rewrite Hl.
  - apply (Heffect (with_deps (Some context, Some config)
                      (with_life Mounted w))); done.
  - rewrite bool_decide_eq_false_2 by done.
    apply (Heffect (with_deps (Some context, Some config) w)); done.
Qed.

Lemma tsx_settle_flag_overwrites (w : provider) (i : nat) (key : string)
    (fetch : started) (r : outcome value) (v : value) :
  life w = Mounted → pending w !! i = Some (AwaitFlag key fetch) →
  settle fetch r = Return v →
  flags (step JSON_parse featureFlags w (Settle i r))
  = Some (spread_with (flags w) key v).
Proof.
  intros Hl Hi Hs. simpl. rewrite Hi. simpl. rewrite Hs.
  unfold setFlags. simpl. by rewrite Hl.
Qed.

Lemma tsx_listeners_fetch (key : string) (w : provider)
    (ls : flagListenerTable) :
  let w' := foldl (λ w _, listener key w) w ls in
  pending w'
  = pending w
    ++ replicate (length ls)
         (AwaitFlag key (getFeatureFlag (singletons w) (VStr key) VUndefined))
  ∧ singletons w' = singletons w ∧ flags w' = flags w
  ∧ life w' = life w ∧ flagListeners w' = flagListeners w.
Proof.
  simpl. induction ls as [| l ls IH] using rev_ind.
  - simpl. by rewrite app_nil_r.
  - rewrite foldl_app. simpl. destruct IH as (Hp & Hg & Hf & Hl & Ht).
    set (w1 := foldl (λ w _, listener key w) w ls) in *.
    unfold listener, suspend, emit. simpl.
    rewrite Hp, Hg, Hf, Hl, Ht, length_app, <- app_assoc. simpl.
    split_and!; try done. f_equal.
    by rewrite Nat.add_comm, <- replicate_cons_app.
Qed.

Lemma tsx_flag_change_fetches (w : provider) (c : LDClient) (key : string)
    (l : nat) :
  (c, key, l) ∈ flagListeners w →
  let w' := step JSON_parse featureFlags w (FlagChanged c key) in
  ∃ n, pending w'
       = pending w
         ++ replicate (S n)
              (AwaitFlag key
                 (getFeatureFlag (singletons w) (VStr key) VUndefined))
       ∧ flags w' = flags w ∧ life w' = life w.
Proof.
  intros Hin. simpl.
  destruct (tsx_listeners_fetch key w (listening c key (flagListeners w)))
    as (Hp & _ & Hf & Hl & _).
  assert ((c, key, l) ∈ listening c key (flagListeners w)) as Hlistening
    by (apply list_elem_of_filter; by split).
  destruct (listening c key (flagListeners w)) as [| e ls] eqn:Hls;
    [by inversion Hlistening |].
  exists (length ls). by rewrite Hp, Hf, Hl.
Qed.
Lemma tsx_settle_flag_only_that_key (w : provider) (j : nat) (key : string)
    (fetch : started) (r : outcome value) (v : value) :
  life w = Mounted → pending w !! j = Some (AwaitFlag key fetch) →
  settle fetch r = Return v →
  let w' := step JSON_parse featureFlags w (Settle j r) in
  opt_member (flags w') key = v
  ∧ ∀ other, other ≠ key →
      opt_member (flags w') other = opt_member (flags w) other.
Proof.
  intros Hl Hj Hs. cbv zeta.
  rewrite (tsx_settle_flag_overwrites w j key fetch r v Hl Hj Hs).
  split; [apply opt_member_spread_same |].
  intros other Hne. by apply opt_member_spread_other.
Qed.

Lemma tsx_ready_fetches_and_subscribes (key : string) (flag : FeatureFlag)
    (w : provider) (context : LDContext) (config : LDConfig) :
  registered featureFlags key = Some flag →
  life w = NotMounted
  ∨ (life w = Mounted ∧ deps w ≠ (Some context, Some config)) →
  let c := constructed w in
  let fetch :=
    getGetFeatureFlag JSON_parse featureFlags c (VStr key) VUndefined in
  let w' := step JSON_parse featureFlags w
              (Render (Some context) (Some config)) in
  client w' = Some c
  ∧ (∃ l, (c, key, l) ∈ flagListeners w'
          ∧ RegisterFeatureFlagListener c key l ∈ calls w')
  ∧ Variation {| vc_client := c; vc_method := variation_for (type flag);
                 vc_key := VStr key; vc_default := defaultVal flag |}
    ∈ calls w'
  ∧ (∀ v, settle fetch (Return v)
          = match type flag with
            | ObjectConstructor => JSON_parse v
            | _ => Return v
            end)
  ∧ ∃ j, pending w' !! j = Some (AwaitFlag key fetch)
         ∧ ∀ a v, settle fetch a = Return v →
             let w'' := step JSON_parse featureFlags w' (Settle j a) in
             opt_member (flags w'') key = v
             ∧ ∀ other, other ≠ key →
                 opt_member (flags w'') other = opt_member (flags w') other.
Proof.
  intros Hflag Hlife.
  destruct (tsx_ready_subscribes w context config key flag Hlife Hflag)
    as (Hc & Hg & Hl' & [j Hj] & Hv & Hreg).
  cbv zeta. split_and!; try done.
  - intros v. rewrite (factory_tsx_fetch_registered _ _ _ _ _ _ Hflag).
    simpl. by destruct (type flag).
  - exists j. split; [exact Hj |]. intros a v Hs.
    by apply (tsx_settle_flag_only_that_key _ j key _ a v Hl' Hj Hs).
Qed.

Lemma tsx_listener_overwrites_its_key (key : string) (w : provider)
    (c : LDClient) (l : nat) :
  (c, key, l) ∈ flagListeners w → life w = Mounted →
  let fetch := getFeatureFlag (singletons w) (VStr key) VUndefined in
  let w1 := step JSON_parse featureFlags w (FlagChanged c key) in
  flags w1 = flags w
  ∧ ∃ j, pending w1 !! j = Some (AwaitFlag key fetch)
         ∧ ∀ a v, settle fetch a = Return v →
             let w2 := step JSON_parse featureFlags w1 (Settle j a) in
             opt_member (flags w2) key = v
             ∧ ∀ other, other ≠ key →
                 opt_member (flags w2) other = opt_member (flags w) other.
Proof.
  intros Hin Hl. cbv zeta.
  destruct (tsx_flag_change_fetches w c key l Hin) as (n & Hp & Hf & Hl').
  split; [exact Hf |]. exists (length (pending w)).
  assert (pending (step JSON_parse featureFlags w (FlagChanged c key))
            !! length (pending w)
          = Some (AwaitFlag key
                    (getFeatureFlag (singletons w) (VStr key) VUndefined)))
    as Hj.
  { rewrite Hp, lookup_app_r by lia. by rewrite Nat.sub_diag. }
  split; [exact Hj |]. intros a v Hs. rewrite <- Hf.
  apply (tsx_settle_flag_only_that_key _ (length (pending w)) key
           (getFeatureFlag (singletons w) (VStr key) VUndefined) a v);
    [by rewrite Hl' | exact Hj | exact Hs].
Qed.
Lemma tsx_subscribe_init_calls (c : LDClient) (keys : list string)
    (w : provider) :
  filter initializes (calls (foldl (subscribe c) w keys))
  = filter initializes (calls w).
Proof.
  induction keys as [| key keys IH] using rev_ind; [done |].
  rewrite foldl_app. simpl.
  set (w1 := foldl (subscribe c) w keys) in *.
  unfold subscribe, listener, suspend, emit. simpl.
  rewrite !filter_app, filter_initializes_calls_of, IH. simpl.
  by rewrite !app_nil_r.
Qed.

(** Every run of the effect with a context and a config initializes a
    new client. *)
Lemma tsx_render_initializes (w : provider) (context : LDContext)
    (config : LDConfig) :
  life w = NotMounted
  ∨ (life w = Mounted ∧ deps w ≠ (Some context, Some config)) →
  filter initializes
    (calls (step JSON_parse featureFlags w (Render (Some context) (Some config))))
  = filter initializes (calls w)
    ++ [NewLDClient (constructed w); Identify (constructed w) context;
        Configure (constructed w) config context].
Proof.
  intros Hlife. unfold step.
  assert (∀ w0, calls w0 = calls w → constructed w0 = constructed w →
            filter initializes
              (calls (effect_init JSON_parse featureFlags (Some context)
                        (Some config) w0))
            = filter initializes (calls w)
              ++ [NewLDClient (constructed w); Identify (constructed w) context;
                  Configure (constructed w) config context]) as Heffect.
  { intros w0 Hc Hn. unfold effect_init.
    rewrite tsx_subscribe_init_calls. unfold setClient. simpl.
    destruct (life w0); simpl; by rewrite filter_app, Hc, Hn. }
  destruct Hlife as [Hl | [Hl Hd]]; rewrite Hl.
  - by apply Heffect.
  - rewrite bool_decide_eq_false_2 by done. by apply Heffect.
Qed.
End FactoryTsxReady.

(** C6: when the provider reaches Ready (in part_003 the awaited
    [configure] resolves in a mounted provider; in factory.tsx the effect
    runs with a context and a config), then for every registered flag
    name: a listener is registered for that name on the new client; the
    variation call that fetches the flag is made right away, and when it
    is answered the answer (in factory.tsx: what [JSON.parse] makes of it,
    for an Object flag) is stored under that name.  Whenever the SDK then
    reports a change of that name to a registered listener, the listener
    fetches that name again and, once the fetch is answered, overwrites
    that one entry of the snapshot and leaves every other entry as it
    was. *)
Theorem C6_ready_fetches_and_subscribes (JSON_parse : value → outcome value)
    (featureFlags : NamedFlags) (key : string) (flag : FeatureFlag) :
  registered featureFlags key = Some flag →
  (∀ w i c r,
     Part003.life w = Mounted →
     Part003.pending w !! i = Some (Part003.AwaitConfigure c) →
     let fetch :=
       Part003.getFeatureFlagAsync featureFlags (Some c) (VStr key) VUndefined in
     let w' := Part003.step featureFlags w (Part003.Settle i (Return r)) in
     Part003.client w' = Ready c
     ∧ (∃ l, (c, key, l) ∈ Part003.flagListeners w'
             ∧ RegisterFeatureFlagListener c key l ∈ Part003.calls w')
     ∧ Variation {| vc_client := c; vc_method := variation_for (type flag);
                    vc_key := VStr key; vc_default := defaultVal flag |}
       ∈ Part003.calls w'
     ∧ ∃ j, Part003.pending w' !! j = Some (Part003.AwaitFlag key fetch)
            ∧ ∀ v, overwrites_only key v (Part003.flags w')
                     (Part003.flags
                        (Part003.step featureFlags w'
                           (Part003.Settle j (Return v)))))
  ∧ (∀ w c l,
       (c, key, l) ∈ Part003.flagListeners w → Part003.life w = Mounted →
       let fetch :=
         Part003.getFeatureFlagAsync featureFlags (Part003.globalLdClient w)
           (VStr key) VUndefined in
       let w1 := Part003.step featureFlags w (Part003.FlagChanged c key) in
       Part003.flags w1 = Part003.flags w
       ∧ ∃ j, Part003.pending w1 !! j = Some (Part003.AwaitFlag key fetch)
              ∧ ∀ a v, settle fetch a = Return v →
                  overwrites_only key v (Part003.flags w)
                    (Part003.flags
                       (Part003.step featureFlags w1 (Part003.Settle j a))))
  ∧ (∀ w context config,
       FactoryTsx.life w = NotMounted
       ∨ (FactoryTsx.life w = Mounted
          ∧ FactoryTsx.deps w ≠ (Some context, Some config)) →
       let c := FactoryTsx.constructed w in
       let fetch :=
         FactoryTsx.getGetFeatureFlag JSON_parse featureFlags c (VStr key)
           VUndefined in
       let w' := FactoryTsx.step JSON_parse featureFlags w
                   (FactoryTsx.Render (Some context) (Some config)) in
       FactoryTsx.client w' = Some c
       ∧ (∃ l, (c, key, l) ∈ FactoryTsx.flagListeners w'
               ∧ RegisterFeatureFlagListener c key l ∈ FactoryTsx.calls w')
       ∧ Variation {| vc_client := c; vc_method := variation_for (type flag);
                      vc_key := VStr key; vc_default := defaultVal flag |}
         ∈ FactoryTsx.calls w'
       ∧ ∃ j, FactoryTsx.pending w' !! j = Some (FactoryTsx.AwaitFlag key fetch)
              ∧ ∀ v v',
                  match type flag with
                  | ObjectConstructor => JSON_parse v
                  | _ => Return v
                  end = Return v' →
                  overwrites_only key v' (FactoryTsx.flags w')
                    (FactoryTsx.flags
                       (FactoryTsx.step JSON_parse featureFlags w'
                          (FactoryTsx.Settle j (Return v)))))
  ∧ (∀ w c l,
       (c, key, l) ∈ FactoryTsx.flagListeners w → FactoryTsx.life w = Mounted →
       let fetch :=
         FactoryTsx.getFeatureFlag (FactoryTsx.singletons w) (VStr key)
           VUndefined in
       let w1 := FactoryTsx.step JSON_parse featureFlags w
                   (FactoryTsx.FlagChanged c key) in
       FactoryTsx.flags w1 = FactoryTsx.flags w
       ∧ ∃ j, FactoryTsx.pending w1 !! j = Some (FactoryTsx.AwaitFlag key fetch)
              ∧ ∀ a v, settle fetch a = Return v →
                  overwrites_only key v (FactoryTsx.flags w)
                    (FactoryTsx.flags
                       (FactoryTsx.step JSON_parse featureFlags w1
                          (FactoryTsx.Settle j a)))).
Proof.
  intros Hflag. split_and!.
  - intros w i c r Hl Hi.
    destruct (ready_fetches_and_subscribes featureFlags key flag w i c r
                Hflag Hl Hi) as (Hc & Hreg & Hv & Hs & j & Hj & Hstore).
    cbv zeta. split_and!; try done.
    exists j. split; [exact Hj |]. intros v. apply Hstore, Hs.
  - intros w c l Hin Hl.
    exact (listener_overwrites_its_key featureFlags key w c l Hin Hl).
  - intros w context config Hlife.
    destruct (tsx_ready_fetches_and_subscribes JSON_parse featureFlags key flag
                w context config Hflag Hlife)
      as (Hc & Hreg & Hv & Hs & j & Hj & Hstore).
    cbv zeta. split_and!; try done.
    exists j. split; [exact Hj |]. intros v v' Hparse.
    apply Hstore. by rewrite Hs.
  - intros w c l Hin Hl.
    exact (tsx_listener_overwrites_its_key JSON_parse featureFlags key w c l
             Hin Hl).
Qed.

Lemma C6_ready_witness :
  let key := "example-number-feature-flag" in
  let w := Part003.run exampleFlags Part003.initial
             [Part003.Render (Some 1) (Some 1);
              Part003.Settle 0 (Return VUndefined)] in
  let w' := Part003.step exampleFlags w (Part003.Settle 0 (Return VUndefined)) in
  Part003.pending w !! 0 = Some (Part003.AwaitConfigure 0)
  ∧ Part003.client w' = Ready 0
  ∧ (∃ l, (0, key, l) ∈ Part003.flagListeners w')
  ∧ ∃ j, overwrites_only key (VNum 7) (Part003.flags w')
           (Part003.flags
              (Part003.step exampleFlags w' (Part003.Settle j (Return (VNum 7))))).
Proof.
  cbv zeta.
  assert (registered exampleFlags "example-number-feature-flag"
          = Some {| type := NumberConstructor; defaultVal := VNum 123 |})
    as Hflag by (vm_compute; reflexivity).
  assert (Part003.life
            (Part003.run exampleFlags Part003.initial
               [Part003.Render (Some 1) (Some 1);
                Part003.Settle 0 (Return VUndefined)]) = Mounted)
    as Hl by (vm_compute; reflexivity).
  assert (Part003.pending
            (Part003.run exampleFlags Part003.initial
               [Part003.Render (Some 1) (Some 1);
                Part003.Settle 0 (Return VUndefined)]) !! 0
          = Some (Part003.AwaitConfigure 0))
    as Hi by (vm_compute; reflexivity).
  destruct (proj1 (C6_ready_fetches_and_subscribes (λ _, Throw SyntaxError)
                     exampleFlags "example-number-feature-flag" _ Hflag)
              _ 0 0 VUndefined Hl Hi)
    as (Hc & [l [Hreg _]] & _ & j & _ & Hstore).
  split; [exact Hi |]. split; [exact Hc |]. split; [by exists l |].
  exists j. apply Hstore.
Defined.

(** C4, as the code has it: in part_003, along every sequence of renders
    with any context and config, unmount, settled awaits and flag
    changes, the provider constructs at most one client; and once a
    client exists, held by the closure or by the provider's local state,
    nothing that follows makes a construction, identify or configure
    call.  factory.tsx has no such guard: every run of its effect with a
    context and a config (the first render, and every render in which
    one of the two changed) constructs, identifies and configures a new
    client. *)
Theorem C4_part003_initializes_once (JSON_parse : value → outcome value)
    (featureFlags : NamedFlags) (es es' : list Part003.event) :
  let w := Part003.run featureFlags Part003.initial es in
  length (filter constructs (Part003.calls w)) ≤ 1
  ∧ (client_exists w →
     filter initializes (Part003.calls (Part003.run featureFlags w es'))
     = filter initializes (Part003.calls w))
  ∧ (∀ t context config,
       FactoryTsx.life t = NotMounted
       ∨ (FactoryTsx.life t = Mounted
          ∧ FactoryTsx.deps t ≠ (Some context, Some config)) →
       filter initializes
         (FactoryTsx.calls
            (FactoryTsx.step JSON_parse featureFlags t
               (FactoryTsx.Render (Some context) (Some config))))
       = filter initializes (FactoryTsx.calls t)
         ++ [NewLDClient (FactoryTsx.constructed t);
             Identify (FactoryTsx.constructed t) context;
             Configure (FactoryTsx.constructed t) config context]).
Proof.
  cbv zeta.
  pose proof (init_inv_run featureFlags Part003.initial es init_inv_initial)
    as Hinv.
  split_and!.
  - destruct Hinv as [-> Hinv].
    destruct (Part003.globalLdClient _), (Part003.client _);
      try done; destruct Hinv as [-> _]; lia.
  - intros Hex. apply held_run; [done |]. by apply client_exists_held.
  - intros t context config. apply tsx_render_initializes.
Qed.

Lemma C4_part003_witness :
  let w := Part003.run exampleFlags Part003.initial
             [Part003.Render (Some 1) (Some 1);
              Part003.Settle 0 (Return VUndefined);
              Part003.Settle 0 (Return VUndefined)] in
  Part003.client w = Ready 0
  ∧ filter initializes
      (Part003.calls
         (Part003.run exampleFlags w
            [Part003.Render (Some 2) (Some 1);
             Part003.Render (Some 2) (Some 3);
             Part003.FlagChanged 0 "example-string-feature-flag"]))
    = [NewLDClient 0; Identify 0 1; Configure 0 1 1].
Proof.
  cbv zeta. split; [vm_compute; reflexivity |].
  etrans.
  - apply (proj1 (proj2 (C4_part003_initializes_once (λ _, Throw SyntaxError)
                           exampleFlags
                           [Part003.Render (Some 1) (Some 1);
                            Part003.Settle 0 (Return VUndefined);
                            Part003.Settle 0 (Return VUndefined)]
                           [Part003.Render (Some 2) (Some 1);
                            Part003.Render (Some 2) (Some 3);
                            Part003.FlagChanged 0
                              "example-string-feature-flag"]))).
    right. exists 0. vm_compute. reflexivity.
  - vm_compute. reflexivity.
Defined.

(** C4 as stated fails in factory.tsx: with a client already held by the
    closure and by the local state, a render with a new context
    constructs, identifies and configures a second client. *)
Lemma C4_factory_tsx_initializes_again :
  let w := FactoryTsx.run Return exampleFlags
             (FactoryTsx.initial exampleFlags)
             [FactoryTsx.Render (Some 1) (Some 1)] in
  let w' := FactoryTsx.step Return exampleFlags w
              (FactoryTsx.Render (Some 2) (Some 1)) in
  FactoryTsx.client w = Some 0
  ∧ FactoryTsx.getGlobalLdClient (FactoryTsx.singletons w) = Some 0
  ∧ filter initializes (FactoryTsx.calls w)
    = [NewLDClient 0; Identify 0 1; Configure 0 1 1]
  ∧ filter initializes (FactoryTsx.calls w')
    = [NewLDClient 0; Identify 0 1; Configure 0 1 1;
       NewLDClient 1; Identify 1 2; Configure 1 1 2].
Proof. repeat split; vm_compute; reflexivity. Qed.

(** ** useAllFeatureFlags *)

Lemma register_all_empty (e : LDClient * string) : register_all e [] = [e].
Proof. done. Qed.

Lemma unregister_all_single (e : LDClient * string) : unregister_all e [e] = [].
Proof.
  unfold unregister_all. rewrite filter_cons. by rewrite decide_False by auto.
Qed.


Lemma filter_registers_all_calls_of (fetch : started) :
  filter registers_all (calls_of fetch) = [].
Proof.
  destruct fetch as [logged o | vc k]; [| done]. simpl.
  induction logged as [| m logged IH]; [done | exact IH].
Qed.

Section Part003Hook.
Context (featureFlags : NamedFlags).
Import Part003.

(** A call of the hook's [listener]: one fetch per listed key is
    started, and nothing else changes. *)
Lemma h_listener_frame (updatedKeys : list string) (h : consumer) :
  let h' := h_listener featureFlags updatedKeys h in
  h_pending h' = h_pending h ++ fetches_of featureFlags (h_global h) updatedKeys
  ∧ h_global h' = h_global h ∧ h_life h' = h_life h
  ∧ h_client h' = h_client h ∧ h_flags h' = h_flags h
  ∧ h_cleanup h' = h_cleanup h ∧ h_listeners h' = h_listeners h
  ∧ filter registers_all (h_calls h') = filter registers_all (h_calls h).
Proof.
  unfold h_listener, fetches_of. simpl.
  induction updatedKeys as [| key keys IH] using rev_ind.
  - simpl. by rewrite app_nil_r.
  - rewrite foldl_app, fmap_app. simpl.
    destruct IH as (Hp & Hg & Hl & Hc & Hf & Hcl & Hls & Hcalls).
    set (h1 := foldl (h_fetch featureFlags) h keys) in *.
    unfold h_fetch, h_emit. simpl.
    rewrite Hp, Hg, Hl, Hc, Hf, Hcl, Hls, <- app_assoc.
    rewrite filter_app, Hcalls, filter_registers_all_calls_of.
    by rewrite app_nil_r.
Qed.

Lemma hook_inv_initial : hook_inv h_initial.
Proof. done. Qed.

Lemma hook_inv_effect (client : clientState) (h : consumer) :
  h_life h = Mounted → h_cleanup h = None → h_listeners h = [] →
  hook_inv (h_effect_body featureFlags (h_with_client client h)).
Proof.
  intros Hl Hcl Hls. unfold h_effect_body. simpl.
  destruct client as [| | c]; unfold hook_inv; simpl;
    [by rewrite Hl | by rewrite Hl |].
  match goal with
  | |- context [h_listener _ ?keys ?h0] =>
      destruct (h_listener_frame keys h0) as (_ & _ & Hl' & Hc' & _ & _ & Hls' & _)
  end.
  simpl in *. rewrite Hl', Hc', Hls', Hl, Hls. simpl. by eexists.
Qed.

Lemma hook_inv_cleanup (h : consumer) (client : clientState) (life : phase) :
  hook_inv h →
  h_cleanup (h_cleanup_run (h_with_client client (h_with_life life h))) = None
  ∧ h_listeners (h_cleanup_run (h_with_client client (h_with_life life h))) = []
  ∧ h_life (h_cleanup_run (h_with_client client (h_with_life life h))) = life.
Proof.
  unfold hook_inv, h_cleanup_run. simpl.
  destruct (h_life h), (h_client h) as [| | c];
    try (by intros [Hcl Hls]; rewrite Hcl; simpl; rewrite Hcl, Hls).
  intros (uniqueId & Hcl & Hls). rewrite Hcl. simpl.
  by rewrite Hls, unregister_all_single.
Qed.

Lemma hook_inv_step (h : consumer) (e : h_event) :
  hook_inv h → hook_inv (h_step featureFlags h e).
Proof.
  intros Hinv.
  destruct e as [client | ldClient | t | | i r | c updatedKeys]; simpl;
    try done.
  - destruct (h_life h) eqn:Hl; [| | done].
    + unfold hook_inv in Hinv. rewrite Hl in Hinv. destruct Hinv as [Hcl Hls].
      by apply (hook_inv_effect client (h_with_life Mounted h)).
    + case_bool_decide; [done |].
      destruct (hook_inv_cleanup h client Mounted Hinv) as (Hcl & Hls & Hl').
      set (h1 := h_cleanup_run (h_with_client client (h_with_life Mounted h)))
        in *.
      assert (h_with_client client h = h_with_client client (h_with_life Mounted h))
        as Heq by (destruct h; simpl in *; by subst).
      rewrite Heq. fold h1.
      assert (h1 = h_with_client client h1) as ->.
      { subst h1. unfold h_cleanup_run. simpl. by destruct (h_cleanup h) as [[? ?] |]. }
      by apply hook_inv_effect.
  - destruct (h_life h) eqn:Hl; try done.
    assert (h_with_life Unmounted h
            = h_with_client (h_client h) (h_with_life Unmounted h)) as ->
      by (by destruct h).
    destruct (hook_inv_cleanup h (h_client h) Unmounted Hinv) as (Hcl & Hls & Hl').
    unfold hook_inv. by rewrite Hl', Hcl, Hls.
  - destruct (h_pending h !! i) as [[key fetch] |]; [| done].
    destruct (settle fetch r); [| done].
    unfold h_setFlags. simpl. by destruct (h_life h).
  - induction (listening_all c (h_listeners h)) as [| e ls IH] using rev_ind;
      [done |].
    rewrite foldl_app. simpl.
    match goal with
    | |- hook_inv (h_listener _ ?keys ?h0) =>
        destruct (h_listener_frame keys h0)
          as (_ & _ & Hl' & Hc' & _ & Hcl' & Hls' & _)
    end.
    unfold hook_inv in *. simpl in *. by rewrite Hl', Hc', Hcl', Hls'.
Qed.

Lemma hook_inv_run (h : consumer) (es : list h_event) :
  hook_inv h → hook_inv (h_run featureFlags h es).
Proof.
  revert h. induction es as [| e es IH]; intros h Hinv; [done |].
  simpl. apply IH. by apply hook_inv_step.
Qed.


End Part003Hook.

Section FactoryTsxHook.
Context (JSON_parse : value → outcome value) (featureFlags : NamedFlags).
Import FactoryTsx.

(** A call of the hook's [listener]: one fetch per listed key is
    started, and nothing else changes. *)
Lemma tsx_h_listener_frame (updatedKeys : list string) (h : consumer) :
  let h' := h_listener updatedKeys h in
  h_pending h' = h_pending h ++ tsx_fetches_of (h_singletons h) updatedKeys
  ∧ h_singletons h' = h_singletons h ∧ h_life h' = h_life h
  ∧ h_client h' = h_client h ∧ h_flags h' = h_flags h
  ∧ h_cleanup h' = h_cleanup h ∧ h_listeners h' = h_listeners h
  ∧ filter registers_all (h_calls h') = filter registers_all (h_calls h).
Proof.
  unfold h_listener, tsx_fetches_of. simpl.
  induction updatedKeys as [| key keys IH] using rev_ind.
  - simpl. by rewrite app_nil_r.
  - rewrite foldl_app, fmap_app. simpl.
    destruct IH as (Hp & Hg & Hl & Hc & Hf & Hcl & Hls & Hcalls).
    set (h1 := foldl (h_fetch) h keys) in *.
    unfold h_fetch, h_emit. simpl.
    rewrite Hp, Hg, Hl, Hc, Hf, Hcl, Hls, <- app_assoc.
    rewrite filter_app, Hcalls, filter_registers_all_calls_of.
    by rewrite app_nil_r.
Qed.

Lemma tsx_hook_inv_initial : tsx_hook_inv (h_initial featureFlags).
Proof. done. Qed.

Lemma tsx_hook_inv_effect (client : option LDClient) (h : consumer) :
  h_life h = Mounted → h_cleanup h = None → h_listeners h = [] →
  tsx_hook_inv (h_effect_body featureFlags (h_with_client client h)).
Proof.
  intros Hl Hcl Hls. unfold h_effect_body. simpl.
  destruct client as [c |]; unfold tsx_hook_inv; simpl;
    [| by rewrite Hl].
  match goal with
  | |- context [h_listener ?keys ?h0] =>
      destruct (tsx_h_listener_frame keys h0)
        as (_ & _ & Hl' & Hc' & _ & _ & Hls' & _)
  end.
  simpl in *. by rewrite Hl', Hc', Hls', Hl, Hls.
Qed.

Lemma tsx_hook_inv_cleanup (h : consumer) (client : option LDClient) (life : phase) :
  tsx_hook_inv h →
  h_cleanup (h_cleanup_run (h_with_client client (h_with_life life h))) = None
  ∧ h_listeners (h_cleanup_run (h_with_client client (h_with_life life h))) = []
  ∧ h_life (h_cleanup_run (h_with_client client (h_with_life life h))) = life.
Proof.
  unfold tsx_hook_inv, h_cleanup_run. simpl.
  destruct (h_life h), (h_client h) as [c |];
    try (by intros [Hcl Hls]; rewrite Hcl; simpl; rewrite Hcl, Hls).
  intros (Hcl & Hls). rewrite Hcl. simpl.
  by rewrite Hls, unregister_all_single.
Qed.

Lemma tsx_hook_inv_step (h : consumer) (e : h_event) :
  tsx_hook_inv h → tsx_hook_inv (h_step JSON_parse featureFlags h e).
Proof.
  intros Hinv.
  destruct e as [client | ldClient | | i r | c updatedKeys]; simpl;
    try done.
  - destruct (h_life h) eqn:Hl; [| | done].
    + unfold tsx_hook_inv in Hinv. rewrite Hl in Hinv. destruct Hinv as [Hcl Hls].
      by apply (tsx_hook_inv_effect client (h_with_life Mounted h)).
    + case_bool_decide; [done |].
      destruct (tsx_hook_inv_cleanup h client Mounted Hinv) as (Hcl & Hls & Hl').
      set (h1 := h_cleanup_run (h_with_client client (h_with_life Mounted h)))
        in *.
      assert (h_with_client client h = h_with_client client (h_with_life Mounted h))
        as Heq by (destruct h; simpl in *; by subst).
      rewrite Heq. fold h1.
      assert (h1 = h_with_client client h1) as ->.
      { subst h1. unfold h_cleanup_run. simpl. by destruct (h_cleanup h) as [[? ?] |]. }
      by apply tsx_hook_inv_effect.
  - destruct (h_life h) eqn:Hl; try done.
    assert (h_with_life Unmounted h
            = h_with_client (h_client h) (h_with_life Unmounted h)) as ->
      by (by destruct h).
    destruct (tsx_hook_inv_cleanup h (h_client h) Unmounted Hinv) as (Hcl & Hls & Hl').
    unfold tsx_hook_inv. by rewrite Hl', Hcl, Hls.
  - destruct (h_pending h !! i) as [[key fetch] |]; [| done].
    destruct (settle fetch r); [| done].
    unfold h_setFlags. simpl. by destruct (h_life h).
  - induction (listening_all c (h_listeners h)) as [| e ls IH] using rev_ind;
      [done |].
    rewrite foldl_app. simpl.
    match goal with
    | |- tsx_hook_inv (h_listener ?keys ?h0) =>
        destruct (tsx_h_listener_frame keys h0)
          as (_ & _ & Hl' & Hc' & _ & Hcl' & Hls' & _)
    end.
    unfold tsx_hook_inv in *. simpl in *. by rewrite Hl', Hc', Hcl', Hls'.
Qed.

Lemma tsx_hook_inv_run (h : consumer) (es : list h_event) :
  tsx_hook_inv h → tsx_hook_inv (h_run JSON_parse featureFlags h es).
Proof.
  revert h. induction es as [| e es IH]; intros h Hinv; [done |].
  simpl. apply IH. by apply tsx_hook_inv_step.
Qed.


End FactoryTsxHook.

(** *** The hook's table and the SDK's table *)








Section Part003HookReplay.
Context (featureFlags : NamedFlags).
Import Part003.





End Part003HookReplay.

Section FactoryTsxHookReplay.
Context (JSON_parse : value → outcome value) (featureFlags : NamedFlags).
Import FactoryTsx.





End FactoryTsxHookReplay.




(** ** Unmounting the provider *)

Section Part003Teardown.
Context (featureFlags : NamedFlags).
Import Part003.

Lemma unregister_covered (t ds : flagListenerTable) :
  (∀ x, x ∈ t → x ∈ ds) →
  foldl (λ t d, unregister_entry d t) t ds = [].
Proof.
  revert t. induction ds as [| d ds IH]; intros t Hsub; simpl.
  - destruct t as [| x t]; [done |].
    assert (x ∈ x :: t) as Hx by (apply elem_of_cons; by left).
    apply Hsub in Hx. by apply elem_of_nil in Hx.
  - apply IH. intros x Hx. unfold unregister_entry in Hx.
    apply list_elem_of_filter in Hx as [Hne Hx].
    apply Hsub, elem_of_cons in Hx as [-> | Hx]; done.
Qed.

Lemma destruct_all_table (ds : flagListenerTable) (w : provider) :
  let w' := foldl destruct_one w ds in
  flagListeners w' = foldl (λ t d, unregister_entry d t) (flagListeners w) ds
  ∧ life w' = life w ∧ flags w' = flags w
  ∧ escapeHatchFlags w' = escapeHatchFlags w ∧ client w' = client w.
Proof.
  cbv zeta. revert w. induction ds as [| d ds IH]; intros w; [done |].
  cbn [foldl]. destruct (IH (destruct_one w d)) as (-> & -> & -> & -> & ->).
  by destruct d as [[c key] l].
Qed.

Lemma cleanup_client_empties (w : provider) :
  teardown_inv w →
  flagListeners (cleanup_client w) = [] ∧ destructors (cleanup_client w) = []
  ∧ life (cleanup_client w) = life w ∧ flags (cleanup_client w) = flags w
  ∧ escapeHatchFlags (cleanup_client w) = escapeHatchFlags w
  ∧ client (cleanup_client w) = client w.
Proof.
  intros Hinv. unfold cleanup_client. simpl.
  destruct (destruct_all_table (destructors w) w) as (-> & -> & -> & -> & ->).
  split_and!; try done. apply unregister_covered. by rewrite Hinv.
Qed.

Lemma teardown_inv_listener (key : string) (w : provider) :
  teardown_inv w → teardown_inv (listener featureFlags key w).
Proof. done. Qed.

Lemma teardown_inv_subscribe_all (c : LDClient) (keys : list string)
    (w : provider) :
  teardown_inv w → teardown_inv (foldl (subscribe featureFlags c) w keys).
Proof.
  intros Hinv. induction keys as [| key keys IH] using rev_ind; [done |].
  rewrite foldl_app. simpl.
  set (w1 := foldl (subscribe featureFlags c) w keys) in *.
  unfold teardown_inv, subscribe in *. simpl. by rewrite IH.
Qed.

Lemma teardown_inv_effect_client (w : provider) :
  teardown_inv w → teardown_inv (effect_client featureFlags w).
Proof.
  intros Hinv. unfold effect_client.
  destruct (cleanup_client_empties w Hinv) as (Ht & Hd & _).
  assert (teardown_inv (cleanup_client w)) as Hinv'
    by (unfold teardown_inv; by rewrite Ht, Hd).
  destruct (client (cleanup_client w)); try done.
  by apply teardown_inv_subscribe_all.
Qed.

Lemma teardown_inv_effect_init (context : option LDContext)
    (config : option LDConfig) (w : provider) :
  teardown_inv w → teardown_inv (effect_init featureFlags context config w).
Proof.
  intros Hinv. unfold effect_init.
  destruct context, config; try done. destruct (_ || _); [done |].
  unfold setClient. simpl. destruct (life w); try done.
  by apply teardown_inv_effect_client.
Qed.

Lemma teardown_inv_listeners (key : string) (ls : flagListenerTable)
    (w : provider) :
  teardown_inv w →
  teardown_inv (foldl (λ w _, listener featureFlags key w) w ls).
Proof.
  intros Hinv. induction ls as [| l ls IH] using rev_ind; [done |].
  rewrite foldl_app. simpl. by apply teardown_inv_listener.
Qed.

Lemma teardown_inv_step (w : provider) (e : event) :
  teardown_inv w → teardown_inv (step featureFlags w e).
Proof.
  intros Hinv. destruct e as [context config | | i r | c key]; simpl.
  - destruct (life w); [| | done].
    + apply teardown_inv_effect_client.
      assert (teardown_inv
                (effect_init featureFlags context config
                   (with_deps (context, config) (with_life Mounted w)))) as H
        by (by apply teardown_inv_effect_init).
      exact H.
    + case_bool_decide; [done |]. by apply teardown_inv_effect_init.
  - destruct (life w); try done.
    destruct (cleanup_client_empties (with_life Unmounted w) Hinv)
      as (Ht & Hd & _).
    unfold teardown_inv. by rewrite Ht, Hd.
  - destruct (pending w !! i) as [t |]; [| done].
    destruct t as [newClient context config | newClient | key fetch]; simpl.
    + by destruct r.
    + destruct r; [| done]. destruct (life w); try done.
      by apply teardown_inv_effect_client.
    + destruct (settle fetch r); [| done].
      unfold setFlags. simpl. by destruct (life w).
  - by apply teardown_inv_listeners.
Qed.

Lemma teardown_inv_run (w : provider) (es : list event) :
  teardown_inv w → teardown_inv (run featureFlags w es).
Proof.
  revert w. induction es as [| e es IH]; intros w Hinv; [done |].
  simpl. apply IH. by apply teardown_inv_step.
Qed.

(** After the unmount nothing the SDK or the scheduler does reaches the
    snapshot, the escape hatch or the listener table. *)
Lemma unmounted_step (w : provider) (e : event) :
  life w = Unmounted → flagListeners w = [] →
  let w' := step featureFlags w e in
  life w' = Unmounted ∧ flagListeners w' = [] ∧ flags w' = flags w
  ∧ escapeHatchFlags w' = escapeHatchFlags w.
Proof.
  intros Hl Ht. destruct e as [context config | | i r | c key]; simpl.
  - by rewrite Hl.
  - by rewrite Hl.
  - destruct (pending w !! i) as [t |]; [| done].
    destruct t as [newClient context config | newClient | key fetch]; simpl.
    + by destruct r.
    + destruct r; [| done]. by rewrite Hl.
    + destruct (settle fetch r); [| done].
      unfold setFlags. simpl. by rewrite Hl.
  - by rewrite Ht.
Qed.

Lemma unmounted_run (w : provider) (es : list event) :
  life w = Unmounted → flagListeners w = [] →
  let w' := run featureFlags w es in
  life w' = Unmounted ∧ flagListeners w' = [] ∧ flags w' = flags w
  ∧ escapeHatchFlags w' = escapeHatchFlags w.
Proof.
  revert w. induction es as [| e es IH]; intros w Hl Ht; [done |].
  simpl. destruct (unmounted_step w e Hl Ht) as (Hl' & Ht' & <- & <-).
  by apply IH.
Qed.
End Part003Teardown.

(** In part_003, unmounting a mounted provider removes every per-flag
    listener it registered, and from then on no event (a flag change
    reported by the SDK, a fetch or an initialization that settles late,
    a stray render or a second unmount) changes the snapshot or the
    escape hatch or brings a listener back. *)
Theorem part003_unmount_is_final (featureFlags : NamedFlags)
    (es es' : list Part003.event) :
  let w := Part003.run featureFlags Part003.initial es in
  Part003.life w = Mounted →
  let u := Part003.step featureFlags w Part003.Unmount in
  let u' := Part003.run featureFlags u es' in
  Part003.flagListeners u = []
  ∧ Part003.flagListeners u' = []
  ∧ Part003.flags u' = Part003.flags w
  ∧ Part003.escapeHatchFlags u' = Part003.escapeHatchFlags w.
Proof.
  cbv zeta. intros Hl.
  pose proof (teardown_inv_run featureFlags Part003.initial es eq_refl) as Hinv.
  set (w := Part003.run featureFlags Part003.initial es) in *.
  simpl. rewrite Hl.
  destruct (cleanup_client_empties (Part003.with_life Unmounted w) Hinv)
    as (Ht & _ & Hlife & Hf & He & _).
  destruct (unmounted_run featureFlags _ es' Hlife Ht) as (_ & Ht' & Hf' & He').
  by rewrite Ht, Ht', Hf', He', Hf, He.
Qed.

Lemma part003_unmount_witness :
  let w := Part003.run exampleFlags Part003.initial
             [Part003.Render (Some 1) (Some 1);
              Part003.Settle 0 (Return VUndefined);
              Part003.Settle 0 (Return VUndefined);
              Part003.Settle 2 (Return (VStr "live"))] in
  let u := Part003.step exampleFlags w Part003.Unmount in
  let u' := Part003.run exampleFlags u
              [Part003.FlagChanged 0 "example-string-feature-flag";
               Part003.Settle 1 (Return (VNum 9))] in
  length (Part003.flagListeners w) = 4
  ∧ Part003.flagListeners u = []
  ∧ Part003.flagListeners u' = []
  ∧ Part003.flags u' = Part003.flags w
  ∧ Part003.escapeHatchFlags u' = Part003.escapeHatchFlags w.
Proof.
  cbv zeta. split; [vm_compute; reflexivity |].
  apply (part003_unmount_is_final exampleFlags
           [Part003.Render (Some 1) (Some 1);
            Part003.Settle 0 (Return VUndefined);
            Part003.Settle 0 (Return VUndefined);
            Part003.Settle 2 (Return (VStr "live"))]
           [Part003.FlagChanged 0 "example-string-feature-flag";
            Part003.Settle 1 (Return (VNum 9))]).
  vm_compute. reflexivity.
Defined.

(** C5, at the failing input: in factory.tsx the cleanup that would
    unregister the listeners is the value of the async function inside
    the effect, not of the effect, so React never runs it.  After mount
    and unmount the four listeners are still registered and no
    unregister call was made; a flag change reported afterwards runs a
    listener, which calls the client again and suspends. *)
Lemma C5_factory_tsx_listeners_survive_unmount :
  let w := FactoryTsx.run Return exampleFlags (FactoryTsx.initial exampleFlags)
             [FactoryTsx.Render (Some 1) (Some 1); FactoryTsx.Unmount] in
  let w' := FactoryTsx.step Return exampleFlags w
              (FactoryTsx.FlagChanged 0 "example-boolean-feature-flag") in
  FactoryTsx.life w = Unmounted
  ∧ FactoryTsx.flagListeners w
    = [(0, "example-boolean-feature-flag", 0);
       (0, "example-number-feature-flag", 1);
       (0, "example-string-feature-flag", 2);
       (0, "example-json-feature-flag", 3)]
  ∧ filter unregisters (FactoryTsx.calls w) = []
  ∧ FactoryTsx.calls w'
    = FactoryTsx.calls w
      ++ [Variation {| vc_client := 0; vc_method := boolVariation;
                       vc_key := VStr "example-boolean-feature-flag";
                       vc_default := VBool false |}]
  ∧ length (FactoryTsx.pending w') = S (length (FactoryTsx.pending w)).
Proof. cbv zeta. split_and!; vm_compute; reflexivity. Qed.

(** * Further properties of the code *)

(** ** A provider that never gets both a context and a config *)

Section Part003Blank.
Context (featureFlags : NamedFlags).
Import Part003.

(** The [client] effect with nothing to clean up and no client to
    subscribe to only resets the (empty) list of destructors. *)
Lemma effect_client_idle (w : provider) :
  destructors w = [] → (∀ c, client w ≠ Ready c) →
  effect_client featureFlags w = with_destructors [] w.
Proof.
  intros Hd Hc. unfold effect_client, cleanup_client. rewrite Hd. simpl.
  destruct (client w) as [| | c] eqn:E; try done. by destruct (Hc c).
Qed.

Lemma blank_step (w : provider) (e : event) :
  unconfigured e = true → blank w → blank (step featureFlags w e).
Proof.
  intros He (Hcalls & Hp & Ht & Hd & Hc & Hg & Hf & Hesc & Hn).
  assert (∀ c, client w ≠ Ready c) as Hnr by (intros c; by rewrite Hc).
  destruct e as [context config | | i r | c key]; simpl.
  - assert (∀ w0, effect_init featureFlags context config w0 = w0) as Hinit.
    { intros w0. unfold effect_init.
      by destruct context as [context |], config as [config |]. }
    destruct (life w); [| | done].
    + rewrite Hinit, effect_client_idle by done. by unfold blank.
    + case_bool_decide; [done |]. rewrite Hinit. by unfold blank.
  - destruct (life w); try done. unfold cleanup_client. simpl.
    rewrite Hd. by unfold blank.
  - by rewrite Hp.
  - by rewrite Ht.
Qed.

Lemma blank_run (w : provider) (es : list event) :
  forallb unconfigured es = true → blank w → blank (run featureFlags w es).
Proof.
  revert w. induction es as [| e es IH]; intros w Hes Hw; [done |].
  simpl in Hes. apply andb_true_iff in Hes as [He Hes].
  simpl. apply IH; [done |]. by apply blank_step.
Qed.
End Part003Blank.

Section FactoryTsxBlank.
Context (JSON_parse : value → outcome value) (featureFlags : NamedFlags).
Import FactoryTsx.

Lemma tsx_blank_step (w : provider) (e : event) :
  tsx_unconfigured e = true → tsx_blank featureFlags w →
  tsx_blank featureFlags (step JSON_parse featureFlags w e).
Proof.
  intros He (Hcalls & Hp & Ht & Hc & Hg & Hf & Hn).
  destruct e as [context config | | i r | c key]; simpl.
  - assert (∀ w0, effect_init JSON_parse featureFlags context config w0 = w0)
      as Hinit.
    { intros w0. unfold effect_init.
      by destruct context as [context |], config as [config |]. }
    destruct (life w); [| | done].
    + rewrite Hinit. by unfold tsx_blank.
    + case_bool_decide; [done |]. rewrite Hinit. by unfold tsx_blank.
  - destruct (life w); by unfold tsx_blank.
  - by rewrite Hp.
  - by rewrite Ht.
Qed.

Lemma tsx_blank_run (w : provider) (es : list event) :
  forallb tsx_unconfigured es = true → tsx_blank featureFlags w →
  tsx_blank featureFlags (run JSON_parse featureFlags w es).
Proof.
  revert w. induction es as [| e es IH]; intros w Hes Hw; [done |].
  simpl in Hes. apply andb_true_iff in Hes as [He Hes].
  simpl. apply IH; [done |]. by apply tsx_blank_step.
Qed.
End FactoryTsxBlank.

(** As long as the provider is never rendered with both a context and a
    config, whatever else happens (renders with one of them missing,
    unmount, stray settle and flag-change events), it constructs no
    client, registers no listener, makes no call at all to the SDK or the
    console, and its snapshot stays [undefined]; [useFeatureFlag] of a
    registered key keeps returning the registry default.  Both
    iterations. *)
Theorem provider_without_context_or_config_is_inert
    (JSON_parse : value → outcome value) (featureFlags : NamedFlags)
    (es : list Part003.event) (es' : list FactoryTsx.event) (key : string)
    (flag : FeatureFlag) :
  forallb unconfigured es = true → forallb tsx_unconfigured es' = true →
  registered featureFlags key = Some flag →
  let w := Part003.run featureFlags Part003.initial es in
  let t := FactoryTsx.run JSON_parse featureFlags
             (FactoryTsx.initial featureFlags) es' in
  (Part003.calls w = [] ∧ Part003.client w = NoClient
   ∧ Part003.getGlobalLdClient w = None ∧ Part003.flagListeners w = []
   ∧ Part003.pending w = []
   ∧ Part003.useFeatureFlag featureFlags (Part003.flags w) key VUndefined
     = Return (defaultVal flag))
  ∧ (FactoryTsx.calls t = [] ∧ FactoryTsx.client t = None
     ∧ FactoryTsx.getGlobalLdClient (FactoryTsx.singletons t) = None
     ∧ FactoryTsx.flagListeners t = [] ∧ FactoryTsx.pending t = []
     ∧ FactoryTsx.useFeatureFlag featureFlags (FactoryTsx.flags t) key
         VUndefined
       = Return (defaultVal flag)).
Proof.
  intros Hes Hes' Hflag. cbv zeta.
  destruct (blank_run featureFlags Part003.initial es Hes)
    as (Hcalls & Hp & Ht & _ & Hc & Hg & Hf & _); [by unfold blank |].
  destruct (tsx_blank_run JSON_parse featureFlags
              (FactoryTsx.initial featureFlags) es' Hes')
    as (Hcalls' & Hp' & Ht' & Hc' & Hg' & Hf' & _); [by unfold tsx_blank |].
  destruct (useFeatureFlag_resolves featureFlags None key flag VUndefined Hflag)
    as [Hu Hu'].
  rewrite Hf, Hf', Hg'. by split_and!.
Qed.

Lemma provider_without_context_or_config_witness :
  let es := [Part003.Render None (Some 1); Part003.Render (Some 2) None;
             Part003.FlagChanged 0 "example-number-feature-flag";
             Part003.Settle 0 (Return (VNum 5))] in
  let w := Part003.run exampleFlags Part003.initial es in
  Part003.calls w = [] ∧ Part003.client w = NoClient
  ∧ Part003.useFeatureFlag exampleFlags (Part003.flags w)
      "example-number-feature-flag" VUndefined = Return (VNum 123).
Proof.
  cbv zeta.
  destruct (provider_without_context_or_config_is_inert
              (λ _, Throw SyntaxError) exampleFlags
              [Part003.Render None (Some 1); Part003.Render (Some 2) None;
               Part003.FlagChanged 0 "example-number-feature-flag";
               Part003.Settle 0 (Return (VNum 5))]
              [FactoryTsx.Render None None]
              "example-number-feature-flag"
              {| type := NumberConstructor; defaultVal := VNum 123 |}
              eq_refl eq_refl eq_refl)
    as [(Hcalls & Hc & _ & _ & _ & Hu) _].
  by split_and!.
Defined.

(** ** The provider of part_003 before, during and after initialization *)

Section Part003Life.
Context (featureFlags : NamedFlags).
Import Part003.

Lemma filter_nil_remove_nth {A} (P : A → bool) (l : list A) (i : nat) :
  filter P l = [] → filter P (remove_nth i l) = [].
Proof.
  revert i. induction l as [| x l IH]; intros i Hl.
  - unfold remove_nth. by rewrite take_nil, drop_nil.
  - rewrite filter_cons in Hl. destruct (decide (P x)) as [Hx | Hx]; [done |].
    destruct i as [| i]; [exact Hl |].
    unfold remove_nth in *. simpl. rewrite filter_cons.
    rewrite decide_False by done. by apply IH.
Qed.

Lemma filter_nil_lookup {A} (P : A → bool) (l : list A) (i : nat) (x : A) :
  filter P l = [] → l !! i = Some x → P x = false.
Proof.
  intros Hl Hi. destruct (P x) eqn:E; [| done].
  assert (x ∈ filter P l) as Hin.
  { apply list_elem_of_filter. split; [by rewrite E |].
    by apply list_elem_of_lookup_2 in Hi. }
  rewrite Hl in Hin. by apply elem_of_nil in Hin.
Qed.

Lemma effect_init_skipped (context : option LDContext)
    (config : option LDConfig) (w : provider) :
  client_truthy (client w) = true →
  effect_init featureFlags context config w = w.
Proof.
  intros Hc. unfold effect_init. destruct context, config; try done.
  by rewrite Hc, orb_true_r.
Qed.

Lemma untouched_effect_client (w : provider) :
  untouched w → untouched (effect_client featureFlags w).
Proof.
  intros (Hf & He & Ht & Hd & Hp & Hc & Hr).
  rewrite effect_client_idle by done. by unfold untouched.
Qed.

Lemma untouched_effect_init (context : option LDContext)
    (config : option LDConfig) (w : provider) :
  life w = Mounted → untouched w →
  untouched (effect_init featureFlags context config w).
Proof.
  intros Hl Hu. unfold effect_init.
  destruct context as [context |], config as [config |]; try done.
  destruct (_ || _); [done |]. unfold setClient. simpl. rewrite Hl.
  apply untouched_effect_client.
  destruct Hu as (Hf & He & Ht & Hd & Hp & Hc & Hr).
  unfold untouched. simpl. rewrite !filter_app, Hp, Hc. by split_and!.
Qed.

Lemma untouched_step (w : provider) (e : event) :
  untouched w → globalLdClient (step featureFlags w e) = None →
  untouched (step featureFlags w e).
Proof.
  intros Hu. pose proof Hu as (Hf & He & Ht & Hd & Hp & Hc & Hr).
  destruct e as [context config | | i r | c key]; simpl.
  - destruct (life w) eqn:Hl; [| | done]; intros _.
    + apply untouched_effect_client.
      assert (untouched (effect_init featureFlags context config
                           (with_deps (context, config) (with_life Mounted w))))
        as (Hf' & He' & Ht' & Hd' & Hp' & Hc' & Hr')
        by (by apply untouched_effect_init).
      by unfold untouched.
    + case_bool_decide; [done |]. by apply untouched_effect_init.
  - destruct (life w); try done. intros _.
    unfold cleanup_client. simpl. rewrite Hd. by unfold untouched.
  - destruct (pending w !! i) as [t |] eqn:Hi; [| done].
    pose proof (filter_nil_lookup _ _ i t Hp Hi) as Ht'.
    pose proof (filter_nil_remove_nth _ _ i Hp) as Hp'.
    destruct t as [newClient context config | newClient | key fetch];
      [| | done]; simpl.
    + intros _. destruct r; unfold untouched; simpl;
        rewrite ?filter_app, Hp', Hc; by split_and!.
    + destruct r; [| intros _; by unfold untouched].
      destruct (life w); [done | | done].
      destruct (init_neutral_held (effect_client featureFlags)
                  (setGlobalLdClient newClient
                     (with_client (Ready newClient)
                        (with_pending (remove_nth i (pending w)) w)))
                  (init_neutral_effect_client featureFlags)) as [-> _].
      done.
  - intros _. by rewrite Ht.
Qed.

Lemma untouched_run (es : list event) :
  let w := run featureFlags initial es in
  init_inv w ∧ (globalLdClient w = None → untouched w).
Proof.
  cbv zeta. induction es as [| e es IH] using rev_ind.
  - split; [apply init_inv_initial |]. intros _. by unfold untouched.
  - unfold run in *. rewrite foldl_app. simpl. destruct IH as [Hinv IH].
    split; [by apply init_inv_step |]. intros Hg.
    apply untouched_step; [| done]. apply IH.
    destruct (globalLdClient (foldl (step featureFlags) initial es))
      as [g |] eqn:E; [| done].
    destruct (held_step featureFlags _ e Hinv) as [[g' Hg'] _];
      [by rewrite E |].
    unfold run in *. congruence.
Qed.

(** The snapshot and its mirror for the escape hatch. *)
Lemma mirror_neutral (f : provider → provider) :
  (∀ w, flags (f w) = flags w ∧ escapeHatchFlags (f w) = escapeHatchFlags w) →
  ∀ w, escapeHatchFlags w = flags w → escapeHatchFlags (f w) = flags (f w).
Proof. intros Hf w Hw. by destruct (Hf w) as [-> ->]. Qed.

Lemma snapshot_kept_listener (key : string) (w : provider) :
  flags (listener featureFlags key w) = flags w
  ∧ escapeHatchFlags (listener featureFlags key w) = escapeHatchFlags w.
Proof. done. Qed.

Lemma snapshot_kept_foldl {A} (f : provider → A → provider) (l : list A) :
  (∀ a w, flags (f w a) = flags w
          ∧ escapeHatchFlags (f w a) = escapeHatchFlags w) →
  ∀ w, flags (foldl f w l) = flags w
       ∧ escapeHatchFlags (foldl f w l) = escapeHatchFlags w.
Proof.
  intros Hf. induction l as [| a l IH] using rev_ind; [done |].
  intros w. rewrite foldl_app. simpl.
  destruct (Hf a (foldl f w l)) as [-> ->]. apply IH.
Qed.

Lemma snapshot_kept_effect_client (w : provider) :
  flags (effect_client featureFlags w) = flags w
  ∧ escapeHatchFlags (effect_client featureFlags w) = escapeHatchFlags w.
Proof.
  unfold effect_client.
  assert (flags (cleanup_client w) = flags w
          ∧ escapeHatchFlags (cleanup_client w) = escapeHatchFlags w)
    as [Hf He].
  { unfold cleanup_client. simpl. apply snapshot_kept_foldl.
    by intros [[c key] l] w0. }
  destruct (client (cleanup_client w)) as [| | c]; try done.
  destruct (snapshot_kept_foldl (subscribe featureFlags c)
              (Object_keys featureFlags)) with (w := cleanup_client w)
    as [-> ->]; [| done].
  intros key w0. unfold subscribe. simpl. done.
Qed.

Lemma snapshot_kept_effect_init (context : option LDContext)
    (config : option LDConfig) (w : provider) :
  flags (effect_init featureFlags context config w) = flags w
  ∧ escapeHatchFlags (effect_init featureFlags context config w)
    = escapeHatchFlags w.
Proof.
  unfold effect_init. destruct context, config; try done.
  destruct (_ || _); [done |]. unfold setClient. simpl.
  destruct (life w); try done.
  by destruct (snapshot_kept_effect_client
                 (with_client Loading
                    (suspend (AwaitIdentify (constructed w) l l0)
                       (emit [NewLDClient (constructed w);
                              Identify (constructed w) l]
                          (with_constructed (S (constructed w)) w)))))
    as [-> ->].
Qed.

Lemma mirror_step (w : provider) (e : event) :
  escapeHatchFlags w = flags w →
  escapeHatchFlags (step featureFlags w e) = flags (step featureFlags w e).
Proof.
  intros Hm. destruct e as [context config | | i r | c key]; simpl.
  - destruct (life w); [| | done].
    + match goal with
      | |- context [effect_client _ ?x] =>
          destruct (snapshot_kept_effect_client x) as [-> ->]
      end.
      done.
    + case_bool_decide; [done |].
      match goal with
      | |- context [effect_init _ _ _ ?x] =>
          destruct (snapshot_kept_effect_init context config x) as [-> ->]
      end.
      done.
  - destruct (life w); try done. unfold cleanup_client. simpl.
    match goal with
    | |- context [foldl destruct_one ?x ?ds] =>
        destruct (snapshot_kept_foldl destruct_one ds) with (w := x)
          as [-> ->]; [by intros [[? ?] ?] ? | done]
    end.
  - destruct (pending w !! i) as [t |]; [| done].
    destruct t as [newClient context config | newClient | key fetch]; simpl.
    + by destruct r.
    + destruct r; [| done]. destruct (life w); try done.
      match goal with
      | |- context [effect_client _ ?x] =>
          destruct (snapshot_kept_effect_client x) as [-> ->]
      end.
      done.
    + destruct (settle fetch r); [| done]. unfold setFlags. simpl.
      by destruct (life w).
  - match goal with
    | |- context [foldl ?f w ?ls] =>
        destruct (snapshot_kept_foldl f ls) with (w := w) as [-> ->];
          [by intros | done]
    end.
Qed.

Lemma clients_agree_neutral (f : provider → provider) (w : provider) :
  init_neutral f → clients_agree w → clients_agree (f w).
Proof.
  intros Hf Hw c. destruct (Hf w) as [Hv _]. unfold init_view in Hv.
  injection Hv as -> -> _ _ _ _. apply Hw.
Qed.

Lemma clients_agree_effect_init (context : option LDContext)
    (config : option LDConfig) (w : provider) :
  clients_agree w → clients_agree (effect_init featureFlags context config w).
Proof.
  intros Hw. unfold effect_init. destruct context, config; try done.
  destruct (_ || _); [done |]. unfold setClient. simpl.
  destruct (life w); [intros c; apply Hw | | intros c; apply Hw].
  apply (clients_agree_neutral (effect_client featureFlags));
    [apply init_neutral_effect_client | by intros c].
Qed.

Lemma clients_agree_step (w : provider) (e : event) :
  init_inv w → clients_agree w → clients_agree (step featureFlags w e).
Proof.
  intros Hinv Hw. destruct e as [context config | | i r | c key]; simpl.
  - destruct (life w); [| | done].
    + apply (clients_agree_neutral (effect_client featureFlags));
        [apply init_neutral_effect_client |].
      assert (clients_agree
                (effect_init featureFlags context config
                   (with_deps (context, config) (with_life Mounted w)))) as H
        by (by apply clients_agree_effect_init).
      exact H.
    + case_bool_decide; [done |]. by apply clients_agree_effect_init.
  - destruct (life w); try done.
    by apply (clients_agree_neutral cleanup_client);
      [apply init_neutral_cleanup_client |].
  - destruct (pending w !! i) as [t |] eqn:Hi; [| done].
    destruct t as [newClient context config | newClient | key fetch]; simpl.
    + by destruct r.
    + destruct (init_inv_in_flight w i _ Hinv Hi eq_refl) as (_ & Hc & _).
      destruct r; [| done]. destruct (life w).
      * intros c. simpl. by rewrite Hc.
      * apply (clients_agree_neutral (effect_client featureFlags));
          [apply init_neutral_effect_client |].
        intros c. simpl. by intros [= ->].
      * intros c. simpl. by rewrite Hc.
    + destruct (settle fetch r); [| done].
      by apply (clients_agree_neutral (setFlags key a));
        [apply init_neutral_setFlags |].
  - apply (clients_agree_neutral
             (λ w0, foldl (λ w _, listener featureFlags key w) w0
                      (listening c key (flagListeners w)))); [| done].
    apply (init_neutral_foldl (λ w (_ : LDClient * string * nat),
                                 listener featureFlags key w)).
    intros _. apply init_neutral_listener.
Qed.
End Part003Life.

Section Part003Table.
Context (featureFlags : NamedFlags).
Import Part003.

Lemma stuck_neutral (f : provider → provider) (w : provider) :
  init_neutral f → stuck w →
  stuck (f w) ∧ filter initializes (calls (f w)) = filter initializes (calls w).
Proof.
  intros Hf Hw. destruct (Hf w) as [Hv _]. unfold init_view in Hv.
  injection Hv as Hg Hc _ _ Hp Hcalls. unfold stuck. by rewrite Hg, Hc, Hp.
Qed.

Lemma stuck_step (w : provider) (e : event) :
  stuck w →
  stuck (step featureFlags w e)
  ∧ filter initializes (calls (step featureFlags w e))
    = filter initializes (calls w).
Proof.
  intros Hw. pose proof Hw as (Hg & Hc & Hp).
  assert (client_truthy (client w) = true) as Htruthy by (by rewrite Hc).
  destruct e as [context config | | i r | c key]; simpl.
  - destruct (life w); [| | done].
    + rewrite effect_init_skipped by done.
      apply (stuck_neutral (effect_client featureFlags)
               (effect_escapeHatch
                  (with_deps (context, config) (with_life Mounted w))));
        [apply init_neutral_effect_client | done].
    + case_bool_decide; [done |]. by rewrite effect_init_skipped.
  - destruct (life w); try done.
    apply (stuck_neutral cleanup_client (with_life Unmounted w));
      [apply init_neutral_cleanup_client | done].
  - destruct (pending w !! i) as [t |] eqn:Hi; [| done].
    pose proof (filter_nil_lookup _ _ i t Hp Hi) as Ht.
    pose proof (filter_nil_remove_nth initializing _ i Hp) as Hp'.
    destruct t as [? ? ? | ? | key fetch]; try done. simpl.
    destruct (settle fetch r) as [v | err]; [| done].
    apply (stuck_neutral (setFlags key v)
             (with_pending (remove_nth i (pending w)) w));
      [apply init_neutral_setFlags | done].
  - apply (stuck_neutral
             (λ w0, foldl (λ w _, listener featureFlags key w) w0
                      (listening c key (flagListeners w))) w); [| done].
    apply (init_neutral_foldl (λ w (_ : LDClient * string * nat),
                                 listener featureFlags key w)).
    intros _. apply init_neutral_listener.
Qed.

Lemma stuck_run (w : provider) (es : list event) :
  stuck w →
  stuck (run featureFlags w es)
  ∧ filter initializes (calls (run featureFlags w es))
    = filter initializes (calls w).
Proof.
  revert w. induction es as [| e es IH]; intros w Hw; [done |].
  simpl. destruct (stuck_step w e Hw) as [Hw' <-]. by apply IH.
Qed.

Lemma subscribe_table (c : LDClient) (keys : list string) (w : provider) :
  (flagListeners (foldl (subscribe featureFlags c) w keys)).*1
  = (flagListeners w).*1 ++ ((λ key, (c, key)) <$> keys).
Proof.
  induction keys as [| key keys IH] using rev_ind.
  - simpl. by rewrite app_nil_r.
  - rewrite foldl_app. simpl.
    set (w1 := foldl (subscribe featureFlags c) w keys) in *.
    unfold subscribe. simpl. rewrite !fmap_app, IH, <- app_assoc. done.
Qed.

Lemma life_effect_init (context : option LDContext) (config : option LDConfig)
    (w : provider) :
  life (effect_init featureFlags context config w) = life w.
Proof.
  unfold effect_init. destruct context, config; try done.
  destruct (_ || _); [done |]. unfold setClient. simpl.
  destruct (life w) eqn:Hl; try done.
  match goal with
  | |- life (effect_client _ ?x) = _ =>
      destruct (init_neutral_effect_client featureFlags x) as [Hv _]
  end.
  unfold init_view in Hv. by injection Hv as _ _ -> _ _ _.
Qed.

Lemma table_effect_client (w : provider) :
  teardown_inv w → life w = Mounted →
  table_inv featureFlags (effect_client featureFlags w).
Proof.
  intros Hinv Hl. unfold effect_client.
  destruct (cleanup_client_empties w Hinv) as (Ht & _ & Hl' & _ & _ & Hc).
  destruct (client (cleanup_client w)) as [| | c] eqn:E.
  - unfold table_inv. by rewrite Hl', Hl, E.
  - unfold table_inv. by rewrite Hl', Hl, E.
  - destruct (subscribe_all featureFlags c (Object_keys featureFlags)
                (cleanup_client w)) as (_ & Hl2 & Hc2 & _).
    unfold table_inv. rewrite Hl2, Hc2, Hl', Hl, E.
    by rewrite subscribe_table, Ht.
Qed.

Lemma table_effect_init (context : option LDContext) (config : option LDConfig)
    (w : provider) :
  teardown_inv w → life w = Mounted → table_inv featureFlags w →
  table_inv featureFlags (effect_init featureFlags context config w).
Proof.
  intros Hinv Hl Ht. unfold effect_init. destruct context, config; try done.
  destruct (_ || _); [done |]. unfold setClient. simpl. rewrite Hl.
  by apply table_effect_client.
Qed.

Lemma table_step (w : provider) (e : event) :
  teardown_inv w → table_inv featureFlags w →
  table_inv featureFlags (step featureFlags w e).
Proof.
  intros Hinv Ht. destruct e as [context config | | i r | c key]; simpl.
  - destruct (life w) eqn:Hl; [| | done].
    + apply table_effect_client.
      * assert (teardown_inv
                  (effect_init featureFlags context config
                     (with_deps (context, config) (with_life Mounted w)))) as H
          by (by apply teardown_inv_effect_init).
        exact H.
      * simpl. by rewrite life_effect_init.
    + case_bool_decide; [done |]. by apply table_effect_init.
  - destruct (life w) eqn:Hl; try done.
    destruct (cleanup_client_empties (with_life Unmounted w) Hinv)
      as (Ht' & _ & Hl' & _).
    unfold table_inv. by rewrite Hl', Ht'.
  - destruct (pending w !! i) as [t |]; [| done].
    destruct t as [newClient context config | newClient | key fetch]; simpl.
    + by destruct r.
    + destruct r; [| done]. destruct (life w) eqn:Hl.
      * unfold table_inv in *. simpl. by rewrite Hl in *.
      * by apply table_effect_client.
      * unfold table_inv in *. simpl. by rewrite Hl in *.
    + destruct (settle fetch r); [| done]. unfold setFlags. simpl.
      by destruct (life w) eqn:Hl.
  - destruct (listeners_fetch featureFlags key w
                (listening c key (flagListeners w)))
      as (_ & _ & _ & Hl & Hls).
    destruct (init_neutral_foldl
                (λ w (_ : LDClient * string * nat), listener featureFlags key w)
                (listening c key (flagListeners w))
                (λ _, init_neutral_listener featureFlags key) w) as [Hv _].
    unfold init_view in Hv. injection Hv as _ Hc _ _ _ _.
    unfold table_inv. by rewrite Hl, Hc, Hls.
Qed.

(** Everything the provider keeps true from its initial state on. *)
Lemma provider_invariants (es : list event) :
  let w := run featureFlags initial es in
  init_inv w ∧ teardown_inv w ∧ table_inv featureFlags w ∧ clients_agree w
  ∧ escapeHatchFlags w = flags w.
Proof.
  cbv zeta. induction es as [| e es IH] using rev_ind.
  - split_and!; done.
  - unfold run in *. rewrite foldl_app. simpl.
    destruct IH as (Hi & Htd & Ht & Ha & Hm). split_and!.
    + by apply init_inv_step.
    + by apply teardown_inv_step.
    + by apply table_step.
    + by apply clients_agree_step.
    + by apply mirror_step.
Qed.
End Part003Table.



(** In part_003, as long as the closure holds no client, no fetch has
    been started: the snapshot is [undefined], no listener is
    registered, nothing was written to the console, the only calls made
    are those of an initialization, the local state holds no client, and
    [useFeatureFlag] of a registered key gives the caller's default if
    provided and the registry default otherwise. *)
Theorem part003_nothing_fetched_before_client (featureFlags : NamedFlags)
    (es : list Part003.event) (key : string) (flag : FeatureFlag)
    (callerDefault : value) :
  let w := Part003.run featureFlags Part003.initial es in
  Part003.getGlobalLdClient w = None →
  registered featureFlags key = Some flag →
  Part003.flags w = None ∧ Part003.flagListeners w = []
  ∧ filter (λ c, negb (initializes c)) (Part003.calls w) = []
  ∧ (∀ c, Part003.client w ≠ Ready c)
  ∧ Part003.useFeatureFlag featureFlags (Part003.flags w) key callerDefault
    = Return (resolution_order VUndefined callerDefault (defaultVal flag)).
Proof.
  cbv zeta. intros Hg Hflag.
  destruct (untouched_run featureFlags es) as [_ Hu].
  destruct (Hu Hg) as (Hf & _ & Ht & _ & _ & Hc & Hr).
  rewrite Hf. split_and!; try done.
  by destruct (useFeatureFlag_resolves featureFlags None key flag callerDefault
                 Hflag).
Qed.

Lemma part003_nothing_fetched_witness :
  let w := Part003.run exampleFlags Part003.initial
             [Part003.Render (Some 1) (Some 1);
              Part003.Settle 0 (Return VUndefined);
              Part003.FlagChanged 0 "example-boolean-feature-flag"] in
  Part003.calls w = [NewLDClient 0; Identify 0 1; Configure 0 1 1]
  ∧ Part003.flags w = None
  ∧ Part003.useFeatureFlag exampleFlags (Part003.flags w)
      "example-boolean-feature-flag" (VBool true) = Return (VBool true).
Proof.
  cbv zeta. split; [vm_compute; reflexivity |].
  destruct (part003_nothing_fetched_before_client exampleFlags
              [Part003.Render (Some 1) (Some 1);
               Part003.Settle 0 (Return VUndefined);
               Part003.FlagChanged 0 "example-boolean-feature-flag"]
              "example-boolean-feature-flag"
              {| type := BooleanConstructor; defaultVal := VBool false |}
              (VBool true))
    as (Hf & _ & _ & _ & Hu); [vm_compute; reflexivity .. |].
  by split.
Defined.

(** In part_003, whenever the provider's local state holds a client it
    is the client the closure holds, and the SDK's table then has
    exactly one of the provider's per-flag listeners for each key of the
    registry, on that client, registered in the order of
    [Object.keys(featureFlags)]; in every other state (not mounted, no
    client yet, loading, unmounted) the table has none of them.
    Listeners never pile up. *)
Theorem part003_one_listener_per_flag (featureFlags : NamedFlags)
    (es : list Part003.event) :
  let w := Part003.run featureFlags Part003.initial es in
  (∀ c, Part003.client w = Ready c → Part003.getGlobalLdClient w = Some c)
  ∧ match Part003.life w, Part003.client w with
    | Mounted, Ready c =>
        (Part003.flagListeners w).*1
        = (λ key, (c, key)) <$> Object_keys featureFlags
    | _, _ => Part003.flagListeners w = []
    end.
Proof.
  cbv zeta.
  by destruct (provider_invariants featureFlags es) as (_ & _ & Ht & Ha & _).
Qed.

Lemma part003_one_listener_witness :
  let w := Part003.run edgeFlags Part003.initial
             [Part003.Render (Some 1) (Some 1);
              Part003.Settle 0 (Return VUndefined);
              Part003.Settle 0 (Return VUndefined);
              Part003.Render (Some 2) (Some 1);
              Part003.FlagChanged 0 "dark-mode"] in
  Part003.client w = Ready 0 ∧ Part003.getGlobalLdClient w = Some 0
  ∧ (Part003.flagListeners w).*1
    = [(0, "7"); (0, "dark-mode"); (0, "constructor")].
Proof.
  cbv zeta.
  assert (Part003.client
            (Part003.run edgeFlags Part003.initial
               [Part003.Render (Some 1) (Some 1);
                Part003.Settle 0 (Return VUndefined);
                Part003.Settle 0 (Return VUndefined);
                Part003.Render (Some 2) (Some 1);
                Part003.FlagChanged 0 "dark-mode"]) = Ready 0)
    as Hc by (vm_compute; reflexivity).
  split; [exact Hc |].
  destruct (part003_one_listener_per_flag edgeFlags
              [Part003.Render (Some 1) (Some 1);
               Part003.Settle 0 (Return VUndefined);
               Part003.Settle 0 (Return VUndefined);
               Part003.Render (Some 2) (Some 1);
               Part003.FlagChanged 0 "dark-mode"])
    as [Hagree _].
  split; [exact (Hagree 0 Hc) | vm_compute; reflexivity].
Defined.

(** In part_003, when the awaited [identify] or [configure] of the
    initialization is rejected, the provider is left in ['loading...']
    for good: whatever follows (renders with new contexts and configs
    included), the closure never holds a client, no second
    initialization is attempted, no listener is registered and the
    snapshot stays [undefined]. *)
Theorem part003_failed_initialization_is_permanent (featureFlags : NamedFlags)
    (es es' : list Part003.event) (i : nat) (t : Part003.task) (e : exn) :
  let w := Part003.run featureFlags Part003.initial es in
  Part003.pending w !! i = Some t → initializing t = true →
  let w' := Part003.run featureFlags
              (Part003.step featureFlags w (Part003.Settle i (Throw e))) es' in
  Part003.getGlobalLdClient w' = None ∧ Part003.client w' = Loading
  ∧ filter initializes (Part003.calls w') = filter initializes (Part003.calls w)
  ∧ Part003.flags w' = None ∧ Part003.flagListeners w' = [].
Proof.
  cbv zeta. intros Hi Ht.
  destruct (untouched_run featureFlags es) as [Hinv _].
  destruct (init_inv_in_flight _ i t Hinv Hi Ht) as (Hg & Hc & _ & Hp & _).
  set (w := Part003.run featureFlags Part003.initial es) in *.
  assert (stuck (Part003.step featureFlags w (Part003.Settle i (Throw e)))
          ∧ filter initializes
              (Part003.calls
                 (Part003.step featureFlags w (Part003.Settle i (Throw e))))
            = filter initializes (Part003.calls w)) as [Hstuck Hcalls].
  { simpl. rewrite Hi. destruct t as [? ? ? | ? | ? ?]; try done. }
  destruct (stuck_run featureFlags _ es' Hstuck) as [(Hg' & Hc' & _) Hcalls'].
  destruct (untouched_run featureFlags
              (es ++ [Part003.Settle i (Throw e)] ++ es')) as [_ Hu].
  unfold Part003.run in Hu. rewrite !foldl_app in Hu. simpl in Hu.
  destruct (Hu Hg') as (Hf & _ & Htab & _).
  unfold Part003.getGlobalLdClient. split_and!; try done.
  by rewrite Hcalls'.
Qed.

Lemma part003_failed_initialization_witness :
  let w := Part003.run exampleFlags Part003.initial
             [Part003.Render (Some 1) (Some 1)] in
  let w' := Part003.run exampleFlags
              (Part003.step exampleFlags w
                 (Part003.Settle 0 (Throw (Thrown (VStr "network")))))
              [Part003.Render (Some 2) (Some 2)] in
  Part003.pending w !! 0 = Some (Part003.AwaitIdentify 0 1 1)
  ∧ Part003.client w' = Loading
  ∧ filter initializes (Part003.calls w') = [NewLDClient 0; Identify 0 1].
Proof.
  cbv zeta.
  assert (Part003.pending
            (Part003.run exampleFlags Part003.initial
               [Part003.Render (Some 1) (Some 1)]) !! 0
          = Some (Part003.AwaitIdentify 0 1 1)) as Hi
    by (vm_compute; reflexivity).
  destruct (part003_failed_initialization_is_permanent exampleFlags
              [Part003.Render (Some 1) (Some 1)]
              [Part003.Render (Some 2) (Some 2)] 0 _
              (Thrown (VStr "network")) Hi eq_refl)
    as (_ & Hc & Hcalls & _).
  split; [exact Hi |]. split; [exact Hc |].
  etrans; [exact Hcalls | vm_compute; reflexivity].
Defined.

(** ** The provider of factory.tsx: listeners pile up *)

Section FactoryTsxPile.
Context (JSON_parse : value → outcome value) (featureFlags : NamedFlags).
Import FactoryTsx.

(** What a call of an accessor adds to the calls. *)
Lemma calls_of_plain (fetch : started) :
  registrations (calls_of fetch) = []
  ∧ filter unregisters (calls_of fetch) = []
  ∧ filter constructs (calls_of fetch) = [].
Proof.
  destruct fetch as [logged o | vc k]; [| done]. simpl.
  induction logged as [| m logged IH]; [done | exact IH].
Qed.

Lemma tsx_pile_listener (key : string) (w : provider) :
  let w' := listener key w in
  registrations (calls w') = registrations (calls w)
  ∧ filter unregisters (calls w') = filter unregisters (calls w)
  ∧ filter constructs (calls w') = filter constructs (calls w)
  ∧ flagListeners w' = flagListeners w ∧ constructed w' = constructed w.
Proof.
  unfold listener, suspend, emit, registrations. simpl.
  destruct (calls_of_plain (getFeatureFlag (singletons w) (VStr key) VUndefined))
    as (Hr & Hu & Hc).
  unfold registrations in Hr.
  by rewrite omap_app, !filter_app, Hr, Hu, Hc, !app_nil_r.
Qed.

Lemma tsx_pile_subscribe_all (c : LDClient) (keys : list string) (w : provider) :
  let w' := foldl (subscribe c) w keys in
  flagListeners w = registrations (calls w) →
  flagListeners w' = registrations (calls w')
  ∧ filter unregisters (calls w') = filter unregisters (calls w)
  ∧ filter constructs (calls w') = filter constructs (calls w)
  ∧ length (flagListeners w') = length (flagListeners w) + length keys
  ∧ constructed w' = constructed w.
Proof.
  cbv zeta. intros Hw. induction keys as [| key keys IH] using rev_ind.
  - simpl. by rewrite Nat.add_0_r.
  - rewrite foldl_app. simpl. destruct IH as (Ht & Hu & Hc & Hlen & Hn).
    set (w1 := foldl (subscribe c) w keys) in *.
    unfold subscribe, listener, suspend, emit. simpl.
    destruct (calls_of_plain
                (getFeatureFlag (singletons w1) (VStr key) VUndefined))
      as (Hr' & Hu' & Hc').
    unfold registrations in *.
    rewrite !omap_app, !filter_app, Hr', Hu', Hc'. simpl.
    rewrite !app_nil_r, <- Ht, Hu, Hc, Hn, !length_app, Hlen. simpl.
    split_and!; try done. lia.
Qed.

Lemma tsx_pile_effect_init (context : option LDContext)
    (config : option LDConfig) (w : provider) :
  tsx_pile_inv featureFlags w →
  tsx_pile_inv featureFlags
    (effect_init JSON_parse featureFlags context config w).
Proof.
  intros (Ht & Hu & Hc & Hlen). unfold effect_init.
  destruct context as [context |], config as [config |]; try done.
  match goal with
  | |- tsx_pile_inv _ (foldl (subscribe ?c) ?w0 ?keys) =>
      destruct (tsx_pile_subscribe_all c keys w0)
        as (Ht' & Hu' & Hc' & Hlen' & Hn')
  end.
  { unfold setClient, emit. simpl. destruct (life w); simpl;
      by rewrite Ht; unfold registrations; rewrite omap_app, app_nil_r. }
  unfold tsx_pile_inv. rewrite Ht', Hu', Hc', Hn'.
  rewrite <- Ht', Hlen'.
  unfold setClient, emit. simpl.
  destruct (life w); simpl; rewrite !filter_app, Hu, !length_app, Hc, Hlen;
    simpl; split_and!; try done; lia.
Qed.

Lemma tsx_pile_step (w : provider) (e : event) :
  tsx_pile_inv featureFlags w →
  tsx_pile_inv featureFlags (step JSON_parse featureFlags w e).
Proof.
  intros Hw. destruct e as [context config | | i r | c key]; simpl.
  - destruct (life w); [| | done].
    + by apply tsx_pile_effect_init.
    + case_bool_decide; [done |]. by apply tsx_pile_effect_init.
  - by destruct (life w).
  - destruct (pending w !! i) as [[key fetch] |]; [| done]. simpl.
    destruct (settle fetch r); [| done]. unfold setFlags. simpl.
    by destruct (life w).
  - induction (listening c key (flagListeners w)) as [| l ls IH] using rev_ind;
      [done |].
    rewrite foldl_app. simpl.
    match goal with
    | |- tsx_pile_inv _ (listener key ?w0) =>
        destruct (tsx_pile_listener key w0) as (Hr & Hu & Hc & Ht & Hn)
    end.
    unfold tsx_pile_inv in *. by rewrite Hr, Hu, Hc, Ht, Hn.
Qed.

Lemma tsx_pile_run (es : list event) :
  tsx_pile_inv featureFlags
    (run JSON_parse featureFlags (initial featureFlags) es).
Proof.
  induction es as [| e es IH] using rev_ind; [by unfold tsx_pile_inv |].
  unfold run in *. rewrite foldl_app. simpl. by apply tsx_pile_step.
Qed.
End FactoryTsxPile.

(** In factory.tsx the provider never unregisters a per-flag listener:
    whatever happens (unmount included), every listener it ever
    registered is still in the SDK's table, no unregister call has been
    made, and after [n] initializations the table holds [n] listeners
    for every key of the registry. *)
Theorem factory_tsx_listeners_pile_up (JSON_parse : value → outcome value)
    (featureFlags : NamedFlags) (es : list FactoryTsx.event) :
  let w := FactoryTsx.run JSON_parse featureFlags
             (FactoryTsx.initial featureFlags) es in
  FactoryTsx.flagListeners w = registrations (FactoryTsx.calls w)
  ∧ filter unregisters (FactoryTsx.calls w) = []
  ∧ length (FactoryTsx.flagListeners w)
    = length (filter constructs (FactoryTsx.calls w))
      * length (Object_keys featureFlags).
Proof.
  cbv zeta.
  destruct (tsx_pile_run JSON_parse featureFlags es) as (Ht & Hu & Hc & Hlen).
  by rewrite Hc.
Qed.

(** ** The provider's snapshot holds registry keys only *)

Lemma Forall_remove_nth {A} (P : A → Prop) (l : list A) (i : nat) :
  Forall P l → Forall P (remove_nth i l).
Proof.
  intros Hl. unfold remove_nth.
  apply Forall_app_2; [by apply Forall_take | by apply Forall_drop].
Qed.

Lemma Forall_unregister_entry (P : LDClient * string * nat → Prop)
    (e : LDClient * string * nat) (t : flagListenerTable) :
  Forall P t → Forall P (unregister_entry e t).
Proof.
  rewrite !Forall_forall. intros Ht x Hx. apply Ht.
  unfold unregister_entry in Hx. by apply list_elem_of_filter in Hx as [_ Hx].
Qed.

Lemma listening_key (c : LDClient) (key : string) (t : flagListenerTable)
    (P : string → Prop) :
  Forall (λ e, P e.1.2) t → listening c key t ≠ [] → P key.
Proof.
  intros Ht Hne. destruct (listening c key t) as [| e ls] eqn:E; [done |].
  assert (e ∈ listening c key t) as Hin by (rewrite E; by left).
  unfold listening in Hin. apply list_elem_of_filter in Hin as [[_ <-] Hin].
  rewrite Forall_forall in Ht. by apply Ht.
Qed.

Section Part003Declared.
Context (featureFlags : NamedFlags).
Import Part003.

Lemma declared_listener (key : string) (w : provider) :
  is_Some (registered featureFlags key) →
  declared_inv featureFlags w →
  declared_inv featureFlags (listener featureFlags key w).
Proof.
  intros Hk (Ht & Hp & Hf). unfold declared_inv, listener, suspend, emit.
  simpl. split_and!; try done. apply Forall_app_2; [done |].
  by apply Forall_singleton.
Qed.

Lemma declared_listeners (key : string) (ls : flagListenerTable) (w : provider) :
  is_Some (registered featureFlags key) →
  declared_inv featureFlags w →
  declared_inv featureFlags (foldl (λ w _, listener featureFlags key w) w ls).
Proof.
  intros Hk Hw. induction ls as [| l ls IH] using rev_ind; [done |].
  rewrite foldl_app. simpl. by apply declared_listener.
Qed.

Lemma declared_subscribe_all (c : LDClient) (keys : list string) (w : provider) :
  Forall (λ key, is_Some (registered featureFlags key)) keys →
  declared_inv featureFlags w →
  declared_inv featureFlags (foldl (subscribe featureFlags c) w keys).
Proof.
  intros Hkeys Hw. induction keys as [| key keys IH] using rev_ind; [done |].
  apply Forall_app in Hkeys as [Hkeys Hk]. rewrite Forall_singleton in Hk.
  rewrite foldl_app. simpl. specialize (IH Hkeys).
  set (w1 := foldl (subscribe featureFlags c) w keys) in *.
  unfold subscribe.
  assert (declared_inv featureFlags
            (listener featureFlags key (with_closures (S (closures w1)) w1)))
    as (Ht & Hp & Hf).
  { apply declared_listener; [done |]. by destruct IH. }
  unfold declared_inv. simpl in *. split_and!; try done.
  apply Forall_app_2; [done |]. by apply Forall_singleton.
Qed.

Lemma declared_cleanup_client (w : provider) :
  declared_inv featureFlags w → declared_inv featureFlags (cleanup_client w).
Proof.
  intros Hw. unfold cleanup_client.
  assert (declared_inv featureFlags (foldl destruct_one w (destructors w)))
    as H.
  { induction (destructors w) as [| d ds IH] using rev_ind; [done |].
    rewrite foldl_app. simpl. destruct IH as (Ht & Hp & Hf).
    destruct d as [[c key] l]. unfold declared_inv, destruct_one. simpl.
    split_and!; try done. by apply Forall_unregister_entry. }
  by destruct H.
Qed.

Lemma declared_effect_client (w : provider) :
  declared_inv featureFlags w →
  declared_inv featureFlags (effect_client featureFlags w).
Proof.
  intros Hw. unfold effect_client.
  pose proof (declared_cleanup_client w Hw) as Hw'.
  destruct (client (cleanup_client w)); try done.
  apply declared_subscribe_all; [| done].
  apply Forall_forall. intros key. apply Object_keys_registered.
Qed.

Lemma declared_effect_init (context : option LDContext)
    (config : option LDConfig) (w : provider) :
  declared_inv featureFlags w →
  declared_inv featureFlags (effect_init featureFlags context config w).
Proof.
  intros Hw. unfold effect_init. destruct context, config; try done.
  destruct (_ || _); [done |]. unfold setClient. simpl.
  assert (declared_inv featureFlags
            (with_client Loading
               (suspend (AwaitIdentify (constructed w) l l0)
                  (emit [NewLDClient (constructed w);
                         Identify (constructed w) l]
                     (with_constructed (S (constructed w)) w))))) as H.
  { destruct Hw as (Ht & Hp & Hf). unfold declared_inv. simpl.
    split_and!; try done. apply Forall_app_2; [done |].
    by apply Forall_singleton. }
  destruct (life w); [by destruct H | | by destruct H].
  by apply declared_effect_client.
Qed.

Lemma declared_step (w : provider) (e : event) :
  declared_inv featureFlags w →
  declared_inv featureFlags (step featureFlags w e).
Proof.
  intros Hw. destruct e as [context config | | i r | c key]; simpl.
  - destruct (life w); [| | done].
    + apply declared_effect_client.
      assert (declared_inv featureFlags
                (effect_init featureFlags context config
                   (with_deps (context, config) (with_life Mounted w))))
        as H by (by apply declared_effect_init).
      by destruct H.
    + case_bool_decide; [done |]. by apply declared_effect_init.
  - destruct (life w); try done. by apply declared_cleanup_client.
  - destruct (pending w !! i) as [t |] eqn:Hi; [| done].
    destruct Hw as (Ht & Hp & Hf).
    pose proof (Forall_lookup_1 _ _ _ _ Hp Hi) as Hdecl.
    pose proof (Forall_remove_nth _ _ i Hp) as Hp'.
    destruct t as [newClient context config | newClient | key fetch]; simpl.
    + destruct r; [| done]. unfold declared_inv. simpl.
      split_and!; try done. apply Forall_app_2; [done |].
      by apply Forall_singleton.
    + destruct r; [| done]. destruct (life w); try done.
      by apply declared_effect_client.
    + destruct (settle fetch r) as [v | err]; [| done].
      unfold setFlags. simpl. destruct (life w); try done.
      unfold declared_inv. simpl. split_and!; try done.
      intros k. unfold spread_with. rewrite lookup_insert_is_Some'.
      intros [<- | Hk]; [exact Hdecl | by apply Hf].
  - destruct (decide (listening c key (flagListeners w) = [])) as [-> | Hne];
      [done |].
    apply declared_listeners; [| done].
    destruct Hw as (Ht & _).
    by apply (listening_key c key (flagListeners w)
                (λ k, is_Some (registered featureFlags k))).
Qed.

Lemma declared_run (es : list event) :
  declared_inv featureFlags (run featureFlags initial es).
Proof.
  induction es as [| e es IH] using rev_ind.
  - unfold declared_inv. simpl. split_and!; try done.
    intros key [v Hv]. by rewrite lookup_empty in Hv.
  - unfold run in *. rewrite foldl_app. simpl. by apply declared_step.
Qed.
End Part003Declared.


Section FactoryTsxDeclared.
Context (JSON_parse : value → outcome value) (featureFlags : NamedFlags).
Import FactoryTsx.

Lemma tsx_declared_listener (key : string) (w : provider) :
  is_Some (registered featureFlags key) →
  tsx_declared_inv featureFlags w →
  tsx_declared_inv featureFlags (listener key w).
Proof.
  intros Hk (Ht & Hp & Hf). unfold tsx_declared_inv, listener, suspend, emit.
  simpl. split_and!; try done. apply Forall_app_2; [done |].
  by apply Forall_singleton.
Qed.

Lemma tsx_declared_listeners (key : string) (ls : flagListenerTable)
    (w : provider) :
  is_Some (registered featureFlags key) →
  tsx_declared_inv featureFlags w →
  tsx_declared_inv featureFlags (foldl (λ w _, listener key w) w ls).
Proof.
  intros Hk Hw. induction ls as [| l ls IH] using rev_ind; [done |].
  rewrite foldl_app. simpl. by apply tsx_declared_listener.
Qed.

Lemma tsx_declared_subscribe_all (c : LDClient) (keys : list string)
    (w : provider) :
  Forall (λ key, is_Some (registered featureFlags key)) keys →
  tsx_declared_inv featureFlags w →
  tsx_declared_inv featureFlags (foldl (subscribe c) w keys).
Proof.
  intros Hkeys Hw. induction keys as [| key keys IH] using rev_ind; [done |].
  apply Forall_app in Hkeys as [Hkeys Hk]. rewrite Forall_singleton in Hk.
  rewrite foldl_app. simpl. specialize (IH Hkeys).
  set (w1 := foldl (subscribe c) w keys) in *.
  unfold subscribe.
  assert (tsx_declared_inv featureFlags
            (listener key (with_closures (S (closures w1)) w1)))
    as (Ht & Hp & Hf).
  { apply tsx_declared_listener; [done |]. by destruct IH. }
  unfold tsx_declared_inv. simpl in *. split_and!; try done.
  apply Forall_app_2; [done |]. by apply Forall_singleton.
Qed.

Lemma tsx_declared_effect_init (context : option LDContext)
    (config : option LDConfig) (w : provider) :
  tsx_declared_inv featureFlags w →
  tsx_declared_inv featureFlags
    (effect_init JSON_parse featureFlags context config w).
Proof.
  intros Hw. unfold effect_init. destruct context, config; try done.
  apply tsx_declared_subscribe_all.
  - apply Forall_forall. intros key. apply Object_keys_registered.
  - destruct Hw as (Ht & Hp & Hf). unfold tsx_declared_inv, setClient. simpl.
    by destruct (life w).
Qed.

Lemma tsx_declared_step (w : provider) (e : event) :
  tsx_declared_inv featureFlags w →
  tsx_declared_inv featureFlags (step JSON_parse featureFlags w e).
Proof.
  intros Hw. destruct e as [context config | | i r | c key]; simpl.
  - destruct (life w); [| | done].
    + apply tsx_declared_effect_init. by destruct Hw.
    + case_bool_decide; [done |]. apply tsx_declared_effect_init.
      by destruct Hw.
  - destruct (life w); try done.
  - destruct (pending w !! i) as [t |] eqn:Hi; [| done].
    destruct Hw as (Ht & Hp & Hf).
    pose proof (Forall_lookup_1 _ _ _ _ Hp Hi) as Hdecl.
    pose proof (Forall_remove_nth _ _ i Hp) as Hp'.
    destruct t as [key fetch]; simpl.
    destruct (settle fetch r) as [v | err]; [| done].
    unfold setFlags. simpl. destruct (life w); try done.
    unfold tsx_declared_inv. simpl. split_and!; try done.
    intros k. unfold spread_with. rewrite lookup_insert_is_Some'.
    intros [<- | Hk]; [exact Hdecl | by apply Hf].
  - destruct (decide (listening c key (flagListeners w) = [])) as [-> | Hne];
      [done |].
    apply tsx_declared_listeners; [| done].
    destruct Hw as (Ht & _).
    by apply (listening_key c key (flagListeners w)
                (λ k, is_Some (registered featureFlags k))).
Qed.

Lemma tsx_declared_run (es : list event) :
  tsx_declared_inv featureFlags
    (run JSON_parse featureFlags (initial featureFlags) es).
Proof.
  induction es as [| e es IH] using rev_ind.
  - unfold tsx_declared_inv. simpl. split_and!; try done.
    intros key [v Hv]. by rewrite lookup_empty in Hv.
  - unfold run in *. rewrite foldl_app. simpl. by apply tsx_declared_step.
Qed.
End FactoryTsxDeclared.


Lemma own_property_undeclared (featureFlags : NamedFlags)
    (flags : option snapshot) (key : string) :
  (∀ k, is_Some (default ∅ flags !! k) → is_Some (registered featureFlags k)) →
  registered featureFlags key = None →
  default ∅ flags !! key = None.
Proof.
  intros Hf Hkey. destruct (default ∅ flags !! key) as [v |] eqn:E; [| done].
  destruct (Hf key) as [flag Hflag]; [by exists v |]. congruence.
Qed.

Lemma useFeatureFlag_undeclared (featureFlags : NamedFlags)
    (flags : option snapshot) (key : string) (callerDefault : value) :
  registered featureFlags key = None → default ∅ flags !! key = None →
  let answer :=
    if bool_decide (key ∈ Object_prototype) then
      match flags with
      | Some _ => Return (VNative key)
      | None => Return (coalesce_val callerDefault VUndefined)
      end
    else if nullish callerDefault then Throw TypeError
    else Return callerDefault in
  Part003.useFeatureFlag featureFlags flags key callerDefault = answer
  ∧ FactoryTsx.useFeatureFlag featureFlags flags key callerDefault = answer.
Proof.
  intros Hkey Hown. cbv zeta.
  unfold Part003.useFeatureFlag, FactoryTsx.useFeatureFlag, member_defaultVal,
    opt_index, inherited.
  change (ToPropertyKey (VStr key)) with key. rewrite Hkey.
  destruct flags as [o |]; simpl in Hown; rewrite ?Hown;
    destruct (bool_decide (key ∈ Object_prototype));
    unfold coalesce_val, coalesce; simpl;
    by destruct (nullish callerDefault).
Qed.

(** The provider stores nothing under a name that is not a property of
    the registry.  In both iterations, whatever happens to the provider
    (renders, unmount, answers and rejections arriving in any order,
    change events for any client and any name), the snapshot has no
    property of its own under such a name, and neither has
    [escapeHatchFlags] in part_003.  Hence [useFeatureFlag] of such a
    name returns the caller's default when one is given and otherwise
    fails with the TypeError of reading [defaultVal] of [undefined];
    unless the name is one every object inherits from
    [Object.prototype]: then it returns the inherited built-in once a
    snapshot exists, and before that the caller's default, or
    [undefined] without a TypeError. *)
Theorem provider_stores_registry_keys_only (JSON_parse : value → outcome value)
    (featureFlags : NamedFlags) (es : list Part003.event)
    (es' : list FactoryTsx.event) (key : string) (callerDefault : value) :
  registered featureFlags key = None →
  let w := Part003.run featureFlags Part003.initial es in
  let w' := FactoryTsx.run JSON_parse featureFlags
              (FactoryTsx.initial featureFlags) es' in
  let answer (flags : option snapshot) :=
    if bool_decide (key ∈ Object_prototype) then
      match flags with
      | Some _ => Return (VNative key)
      | None => Return (coalesce_val callerDefault VUndefined)
      end
    else if nullish callerDefault then Throw TypeError
    else Return callerDefault in
  default ∅ (Part003.flags w) !! key = None
  ∧ default ∅ (Part003.escapeHatchFlags w) !! key = None
  ∧ default ∅ (FactoryTsx.flags w') !! key = None
  ∧ Part003.useFeatureFlag featureFlags (Part003.flags w) key callerDefault
    = answer (Part003.flags w)
  ∧ FactoryTsx.useFeatureFlag featureFlags (FactoryTsx.flags w') key
      callerDefault
    = answer (FactoryTsx.flags w').
Proof.
  intros Hkey. cbv zeta.
  destruct (declared_run featureFlags es) as (_ & _ & Hf).
  destruct (tsx_declared_run JSON_parse featureFlags es') as (_ & _ & Hf').
  destruct (provider_invariants featureFlags es) as (_ & _ & _ & _ & Hm).
  cbv zeta in Hm.
  pose proof (own_property_undeclared featureFlags _ key Hf Hkey) as H1.
  pose proof (own_property_undeclared featureFlags _ key Hf' Hkey) as H2.
  destruct (useFeatureFlag_undeclared featureFlags _ key callerDefault Hkey H1)
    as [Hu _].
  destruct (useFeatureFlag_undeclared featureFlags _ key callerDefault Hkey H2)
    as [_ Hu'].
  rewrite Hm. by split_and!.
Qed.

Lemma provider_stores_registry_keys_only_witness :
  let es := [Part003.Render (Some 1) (Some 1);
             Part003.Settle 0 (Return VUndefined);
             Part003.Settle 0 (Return VUndefined);
             Part003.FlagChanged 0 "not-a-flag";
             Part003.Settle 0 (Return (VBool true))] in
  let w := Part003.run exampleFlags Part003.initial es in
  opt_member (Part003.flags w) "example-boolean-feature-flag" = VBool true
  ∧ default ∅ (Part003.flags w) !! "not-a-flag" = None
  ∧ Part003.useFeatureFlag exampleFlags (Part003.flags w) "not-a-flag"
      VUndefined = Throw TypeError.
Proof.
  cbv zeta. split; [vm_compute; reflexivity |].
  destruct (provider_stores_registry_keys_only
              (λ _, Throw SyntaxError) exampleFlags
              [Part003.Render (Some 1) (Some 1);
               Part003.Settle 0 (Return VUndefined);
               Part003.Settle 0 (Return VUndefined);
               Part003.FlagChanged 0 "not-a-flag";
               Part003.Settle 0 (Return (VBool true))]
              [] "not-a-flag" VUndefined eq_refl)
    as (H1 & _ & _ & H2 & _).
  split; [exact H1 | exact H2].
Defined.


(** ** The fetches of part_003's provider in flight *)

Section Part003Flight.
Context (featureFlags : NamedFlags).
Import Part003.

Lemma flight_listener (key : string) (w : provider) :
  is_Some (globalLdClient w) → is_Some (registered featureFlags key) →
  flight_inv featureFlags w →
  flight_inv featureFlags (listener featureFlags key w)
  ∧ globalLdClient (listener featureFlags key w) = globalLdClient w.
Proof.
  intros [c Hc] [flag Hflag] (Hp & Hlog). split; [| done].
  unfold flight_inv, listener, suspend, emit, getGlobalLdClient. simpl.
  rewrite Hc, (part003_fetch_registered _ _ _ _ _ Hflag). simpl.
  rewrite filter_app, Hlog. split; [| done].
  apply Forall_app_2; [by rewrite <- Hc |].
  apply Forall_singleton. by exists c, flag.
Qed.

Lemma flight_listeners (key : string) (ls : flagListenerTable) (w : provider) :
  is_Some (globalLdClient w) → is_Some (registered featureFlags key) →
  flight_inv featureFlags w →
  flight_inv featureFlags (foldl (λ w _, listener featureFlags key w) w ls)
  ∧ globalLdClient (foldl (λ w _, listener featureFlags key w) w ls)
    = globalLdClient w.
Proof.
  intros Hg Hk Hw. induction ls as [| l ls IH] using rev_ind; [done |].
  rewrite foldl_app. simpl. destruct IH as [IH Hg'].
  destruct (flight_listener key _ ltac:(by rewrite Hg') Hk IH) as [H1 H2].
  split; [done |]. etransitivity; [exact H2 | exact Hg'].
Qed.

Lemma flight_subscribe_all (c : LDClient) (keys : list string) (w : provider) :
  is_Some (globalLdClient w) →
  Forall (λ key, is_Some (registered featureFlags key)) keys →
  flight_inv featureFlags w →
  flight_inv featureFlags (foldl (subscribe featureFlags c) w keys)
  ∧ globalLdClient (foldl (subscribe featureFlags c) w keys)
    = globalLdClient w.
Proof.
  intros Hg Hkeys Hw. induction keys as [| key keys IH] using rev_ind; [done |].
  apply Forall_app in Hkeys as [Hkeys Hk]. rewrite Forall_singleton in Hk.
  rewrite foldl_app. simpl. destruct (IH Hkeys) as [IH1 Hg'].
  set (w1 := foldl (subscribe featureFlags c) w keys) in *.
  destruct (flight_listener key (with_closures (S (closures w1)) w1))
    as [(Hp & Hlog) Hg2]; [simpl; by rewrite Hg' | done | done |].
  unfold subscribe, flight_inv. simpl in *.
  split_and!; try done. by rewrite filter_app, Hlog.
Qed.

Lemma flight_cleanup_client (w : provider) :
  flight_inv featureFlags w →
  flight_inv featureFlags (cleanup_client w)
  ∧ globalLdClient (cleanup_client w) = globalLdClient w
  ∧ client (cleanup_client w) = client w.
Proof.
  intros Hw. unfold cleanup_client. simpl.
  induction (destructors w) as [| [[c key] l] ds IH] using rev_ind; [done |].
  rewrite foldl_app. simpl. destruct IH as ((Hp & Hlog) & Hg & Hc).
  unfold flight_inv, destruct_one, emit in *. simpl in *.
  by rewrite filter_app, Hlog.
Qed.

Lemma flight_effect_client (w : provider) :
  clients_agree w → flight_inv featureFlags w →
  flight_inv featureFlags (effect_client featureFlags w)
  ∧ globalLdClient (effect_client featureFlags w) = globalLdClient w.
Proof.
  intros Ha Hw. unfold effect_client.
  destruct (flight_cleanup_client w Hw) as (Hw' & Hg & Hc).
  destruct (client (cleanup_client w)) as [| | c] eqn:E; try done.
  rewrite <- Hg. apply flight_subscribe_all; [| | done].
  - rewrite Hg, (Ha c); [done | by rewrite <- Hc].
  - apply Forall_forall. intros key. apply Object_keys_registered.
Qed.

Lemma flight_effect_init (context : option LDContext)
    (config : option LDConfig) (w : provider) :
  flight_inv featureFlags w →
  flight_inv featureFlags (effect_init featureFlags context config w)
  ∧ globalLdClient (effect_init featureFlags context config w)
    = globalLdClient w.
Proof.
  intros Hw. unfold effect_init. destruct context, config; try done.
  destruct (_ || _); [done |]. unfold setClient. simpl.
  set (w1 := with_client Loading
               (suspend (AwaitIdentify (constructed w) l l0)
                  (emit [NewLDClient (constructed w);
                         Identify (constructed w) l]
                     (with_constructed (S (constructed w)) w)))).
  assert (flight_inv featureFlags w1) as H1.
  { destruct Hw as (Hp & Hlog). unfold flight_inv. simpl.
    rewrite filter_app, Hlog. split; [| done].
    apply Forall_app_2; [done | by apply Forall_singleton]. }
  destruct (life w); [by destruct H1 | | by destruct H1].
  apply (flight_effect_client w1); [| done]. by intros c.
Qed.

Lemma awaits_client_none (g : option LDClient) (l : list task) :
  Forall (awaits_client featureFlags None) l →
  Forall (awaits_client featureFlags g) l.
Proof.
  intros H. apply (Forall_impl _ _ _ H).
  intros [? ? ? | ? | key fetch]; try done.
  by intros (c & flag & Hc & _).
Qed.

Lemma flight_step (w : provider) (e : event) :
  init_inv w → table_inv featureFlags w → clients_agree w →
  declared_inv featureFlags w → flight_inv featureFlags w →
  flight_inv featureFlags (step featureFlags w e).
Proof.
  intros Hinit Htable Hagree Hdecl Hw.
  destruct e as [context config | | i r | c key]; simpl.
  - destruct (life w) eqn:Hl; [| | done].
    + set (w0 := with_deps (context, config) (with_life Mounted w)).
      assert (flight_inv featureFlags w0) as H0 by (by destruct Hw).
      destruct (flight_effect_init context config w0 H0) as [H1 _].
      apply flight_effect_client; [| by destruct H1].
      assert (clients_agree (effect_init featureFlags context config w0))
        as H2 by (by apply clients_agree_effect_init).
      exact H2.
    + case_bool_decide; [done |].
      by apply (flight_effect_init context config
                  (with_deps (context, config) w)).
  - destruct (life w); try done.
    by apply (flight_cleanup_client (with_life Unmounted w)).
  - destruct (pending w !! i) as [t |] eqn:Hi; [| done].
    destruct Hw as (Hp & Hlog).
    pose proof (Forall_remove_nth _ _ i Hp) as Hp'.
    destruct t as [newClient context config | newClient | key fetch]; simpl.
    + destruct r; [| done]. unfold flight_inv, emit. simpl.
      rewrite filter_app, Hlog. split; [| done].
      apply Forall_app_2; [done | by apply Forall_singleton].
    + destruct r; [| done].
      destruct (init_inv_in_flight w i _ Hinit Hi eq_refl) as (Hnone & _).
      rewrite Hnone in Hp'.
      assert (flight_inv featureFlags
                (setGlobalLdClient newClient
                   (with_pending (remove_nth i (pending w)) w))) as H1.
      { split; [| done]. by apply awaits_client_none. }
      destruct (life w); [done | | done].
      apply (flight_effect_client
               (setGlobalLdClient newClient
                  (with_client (Ready newClient)
                     (with_pending (remove_nth i (pending w)) w))));
        [| done].
      intros c Hc. simpl in *. congruence.
    + destruct (settle fetch r) as [v | err]; [| done].
      unfold setFlags. simpl. by destruct (life w).
  - destruct (decide (listening c key (flagListeners w) = [])) as [-> | Hne];
      [done |].
    apply flight_listeners; [| | done].
    + unfold table_inv in Htable.
      destruct (life w), (client w) as [| | c'] eqn:Hc;
        try (rewrite Htable in Hne; done).
      by rewrite (Hagree c').
    + destruct Hdecl as (Ht & _).
      by apply (listening_key c key (flagListeners w)
                  (λ k, is_Some (registered featureFlags k))).
Qed.

Lemma flight_run (es : list event) :
  flight_inv featureFlags (run featureFlags initial es).
Proof.
  induction es as [| e es IH] using rev_ind; [done |].
  destruct (provider_invariants featureFlags es) as (Hi & _ & Ht & Ha & _).
  pose proof (declared_run featureFlags es) as Hd.
  unfold run in *. rewrite foldl_app. simpl. by apply flight_step.
Qed.
End Part003Flight.


(** What part_003's provider has in flight, and what a rejection
    does.  Along every sequence of events the provider writes nothing to
    the console (its listeners never run before the closure holds a
    client), every fetch in flight is a variation call for a registry
    key, of the method the key's declared type selects, on the client the
    closure holds, with the registry's default; and when anything the
    provider awaits ([identify], [configure], a variation call) is
    rejected, the suspended function just ends: snapshot, escape hatch,
    client, listeners and calls stay as they were. *)
Theorem part003_rejected_await_changes_nothing (featureFlags : NamedFlags)
    (es : list Part003.event) (i : nat) (t : Part003.task) (err : exn) :
  Part003.pending (Part003.run featureFlags Part003.initial es) !! i = Some t →
  let w := Part003.run featureFlags Part003.initial es in
  filter logs (Part003.calls w) = []
  ∧ awaits_client featureFlags (Part003.getGlobalLdClient w) t
  ∧ Part003.step featureFlags w (Part003.Settle i (Throw err))
    = Part003.with_pending (remove_nth i (Part003.pending w)) w.
Proof.
  intros Hi. cbv zeta.
  destruct (flight_run featureFlags es) as (Hp & Hlog).
  pose proof (Forall_lookup_1 _ _ _ _ Hp Hi) as Ht.
  split_and!; try done. simpl. rewrite Hi.
  destruct t as [? ? ? | ? | key fetch]; try done. simpl.
  destruct Ht as (c & flag & _ & _ & ->). done.
Qed.

Lemma part003_rejected_await_witness :
  let w := Part003.run exampleFlags Part003.initial
             [Part003.Render (Some 1) (Some 1);
              Part003.Settle 0 (Return VUndefined);
              Part003.Settle 0 (Return VUndefined);
              Part003.Settle 0 (Return (VBool true))] in
  let w' := Part003.step exampleFlags w
              (Part003.Settle 0 (Throw (Thrown (VStr "offline")))) in
  Part003.flags w' = Part003.flags w
  ∧ opt_member (Part003.flags w') "example-boolean-feature-flag" = VBool true
  ∧ length (Part003.pending w') = 2.
Proof.
  cbv zeta.
  assert (Part003.pending
            (Part003.run exampleFlags Part003.initial
               [Part003.Render (Some 1) (Some 1);
                Part003.Settle 0 (Return VUndefined);
                Part003.Settle 0 (Return VUndefined);
                Part003.Settle 0 (Return (VBool true))]) !! 0
          = Some (Part003.AwaitFlag "example-number-feature-flag"
                    (Awaiting {| vc_client := 0; vc_method := numberVariation;
                                 vc_key := VStr "example-number-feature-flag";
                                 vc_default := VNum 123 |} Return)))
    as Hi by (vm_compute; reflexivity).
  destruct (part003_rejected_await_changes_nothing exampleFlags _ 0 _
              (Thrown (VStr "offline")) Hi) as (_ & _ & ->).
  split_and!; vm_compute; reflexivity.
Defined.

(** ** The fetches of factory.tsx's provider in flight *)

Section FactoryTsxFlight.
Context (JSON_parse : value → outcome value) (featureFlags : NamedFlags).
Import FactoryTsx.

Lemma tsx_flight_listener (key : string) (w : provider) :
  tsx_bound JSON_parse featureFlags w →
  is_Some (registered featureFlags key) →
  tsx_flight_inv JSON_parse featureFlags w →
  tsx_flight_inv JSON_parse featureFlags (listener key w).
Proof.
  intros [c Hc] [flag Hflag] (Hp & Hlog & Hb).
  unfold tsx_flight_inv, tsx_bound, listener, suspend, emit, getFeatureFlag.
  simpl. rewrite Hc. simpl.
  rewrite (factory_tsx_fetch_registered _ _ _ _ _ _ Hflag). simpl.
  rewrite filter_app, Hlog. split_and!; try done.
  - apply Forall_app_2; [done |]. apply Forall_singleton. by exists c, flag.
  - right. by exists c.
Qed.

Lemma tsx_flight_listeners (key : string) (ls : flagListenerTable)
    (w : provider) :
  tsx_bound JSON_parse featureFlags w →
  is_Some (registered featureFlags key) →
  tsx_flight_inv JSON_parse featureFlags w →
  tsx_flight_inv JSON_parse featureFlags (foldl (λ w _, listener key w) w ls)
  ∧ singletons (foldl (λ w _, listener key w) w ls) = singletons w.
Proof.
  intros Hb Hk Hw. induction ls as [| l ls IH] using rev_ind; [done |].
  rewrite foldl_app. simpl. destruct IH as [IH Hs]. split; [| done].
  apply tsx_flight_listener; try done.
  unfold tsx_bound. by rewrite Hs.
Qed.

Lemma tsx_flight_subscribe_all (c : LDClient) (keys : list string)
    (w : provider) :
  tsx_bound JSON_parse featureFlags w →
  Forall (λ key, is_Some (registered featureFlags key)) keys →
  tsx_flight_inv JSON_parse featureFlags w →
  tsx_flight_inv JSON_parse featureFlags (foldl (subscribe c) w keys)
  ∧ singletons (foldl (subscribe c) w keys) = singletons w.
Proof.
  intros Hb Hkeys Hw. induction keys as [| key keys IH] using rev_ind; [done |].
  apply Forall_app in Hkeys as [Hkeys Hk]. rewrite Forall_singleton in Hk.
  rewrite foldl_app. simpl. destruct (IH Hkeys) as [IH1 Hs].
  set (w1 := foldl (subscribe c) w keys) in *.
  assert (tsx_bound JSON_parse featureFlags w1) as Hb1
    by (unfold tsx_bound; by rewrite Hs).
  destruct (tsx_flight_listener key (with_closures (S (closures w1)) w1))
    as (Hp & Hlog & _); [done | done | done |].
  unfold subscribe, tsx_flight_inv. simpl in *.
  split_and!; try done.
  - by rewrite filter_app, Hlog.
  - by right.
Qed.

Lemma tsx_flight_effect_init (context : option LDContext)
    (config : option LDConfig) (w : provider) :
  tsx_flight_inv JSON_parse featureFlags w →
  tsx_flight_inv JSON_parse featureFlags
    (effect_init JSON_parse featureFlags context config w).
Proof.
  intros (Hp & Hlog & Hb). unfold effect_init.
  destruct context, config; try done.
  apply tsx_flight_subscribe_all.
  - by exists (constructed w).
  - apply Forall_forall. intros key. apply Object_keys_registered.
  - unfold tsx_flight_inv, setClient, emit. simpl.
    split_and!.
    + by destruct (life w).
    + destruct (life w); simpl; by rewrite filter_app, Hlog.
    + right. by exists (constructed w).
Qed.

Lemma tsx_flight_step (w : provider) (e : event) :
  tsx_declared_inv featureFlags w →
  tsx_flight_inv JSON_parse featureFlags w →
  tsx_flight_inv JSON_parse featureFlags (step JSON_parse featureFlags w e).
Proof.
  intros Hdecl Hw. destruct e as [context config | | i r | c key]; simpl.
  - destruct (life w); [| | done].
    + apply tsx_flight_effect_init. by destruct Hw.
    + case_bool_decide; [done |]. apply tsx_flight_effect_init.
      by destruct Hw.
  - by destruct (life w).
  - destruct (pending w !! i) as [t |] eqn:Hi; [| done].
    destruct Hw as (Hp & Hlog & Hb).
    pose proof (Forall_remove_nth _ _ i Hp) as Hp'.
    destruct t as [key fetch]; simpl.
    destruct (settle fetch r) as [v | err]; [| done].
    unfold setFlags. simpl. by destruct (life w).
  - destruct (decide (listening c key (flagListeners w) = [])) as [-> | Hne];
      [done |].
    apply tsx_flight_listeners; [| | done].
    + destruct Hw as (_ & _ & [Hnil | Hb]); [| done].
      rewrite Hnil in Hne. done.
    + destruct Hdecl as (Ht & _).
      by apply (listening_key c key (flagListeners w)
                  (λ k, is_Some (registered featureFlags k))).
Qed.

Lemma tsx_flight_run (es : list event) :
  tsx_flight_inv JSON_parse featureFlags
    (run JSON_parse featureFlags (initial featureFlags) es).
Proof.
  induction es as [| e es IH] using rev_ind.
  - unfold tsx_flight_inv. simpl. split_and!; try done. by left.
  - pose proof (tsx_declared_run JSON_parse featureFlags es) as Hd.
    unfold run in *. rewrite foldl_app. simpl. by apply tsx_flight_step.
Qed.
End FactoryTsxFlight.

(** What factory.tsx's provider has in flight, and what a failure
    does.  Along every sequence of events the provider writes nothing to
    the console, and every fetch in flight is a variation call for a
    registry key, of the method the key's declared type selects, with the
    registry's default.  When that call is rejected, or when it answers an
    Object flag with something [JSON.parse] throws on, the listener ends
    there: nothing is stored, and the provider is as it was, less the
    suspended listener. *)
Theorem factory_tsx_failed_fetch_stores_nothing
    (JSON_parse : value → outcome value) (featureFlags : NamedFlags)
    (es : list FactoryTsx.event) (i : nat) (key : string) (fetch : started)
    (r : outcome value) (err : exn) :
  FactoryTsx.pending
    (FactoryTsx.run JSON_parse featureFlags (FactoryTsx.initial featureFlags)
       es) !! i = Some (FactoryTsx.AwaitFlag key fetch) →
  resume (match opt_type featureFlags (VStr key) with
          | Some ObjectConstructor => JSON_parse
          | _ => Return
          end) r = Throw err →
  let w := FactoryTsx.run JSON_parse featureFlags
             (FactoryTsx.initial featureFlags) es in
  filter logs (FactoryTsx.calls w) = []
  ∧ tsx_awaits_client JSON_parse featureFlags (FactoryTsx.AwaitFlag key fetch)
  ∧ FactoryTsx.step JSON_parse featureFlags w (FactoryTsx.Settle i r)
    = FactoryTsx.with_pending (remove_nth i (FactoryTsx.pending w)) w.
Proof.
  intros Hi Hr. cbv zeta.
  destruct (tsx_flight_run JSON_parse featureFlags es) as (Hp & Hlog & _).
  pose proof (Forall_lookup_1 _ _ _ _ Hp Hi) as Ht.
  split_and!; try done. simpl. rewrite Hi. simpl.
  destruct Ht as (c & flag & Hflag & ->). simpl.
  unfold opt_type in Hr. simpl in Hr. rewrite Hflag in Hr. simpl in Hr.
  destruct (type flag); by rewrite Hr.
Qed.

Lemma factory_tsx_failed_fetch_witness :
  let parse := λ v, match v with
                    | VStr "{}" => Return (VObj [])
                    | _ => Throw SyntaxError
                    end in
  let w := FactoryTsx.run parse exampleFlags (FactoryTsx.initial exampleFlags)
             [FactoryTsx.Render (Some 1) (Some 1)] in
  let w' := FactoryTsx.step parse exampleFlags w
              (FactoryTsx.Settle 3 (Return (VStr "{oops"))) in
  FactoryTsx.flags w' = None ∧ length (FactoryTsx.pending w') = 3.
Proof.
  cbv zeta.
  set (parse := λ v, match v with
                     | VStr "{}" => Return (VObj [])
                     | _ => Throw SyntaxError
                     end).
  assert (FactoryTsx.pending
            (FactoryTsx.run parse exampleFlags
               (FactoryTsx.initial exampleFlags)
               [FactoryTsx.Render (Some 1) (Some 1)]) !! 3
          = Some (FactoryTsx.AwaitFlag "example-json-feature-flag"
                    (Awaiting {| vc_client := 0; vc_method := jsonVariation;
                                 vc_key := VStr "example-json-feature-flag";
                                 vc_default := VObj [] |} parse)))
    as Hi by (vm_compute; reflexivity).
  destruct (factory_tsx_failed_fetch_stores_nothing parse exampleFlags _ 3 _ _
              (Return (VStr "{oops")) SyntaxError Hi eq_refl) as (_ & _ & ->).
  split; vm_compute; reflexivity.
Defined.


(** ** The synchronous reader against the hook *)

Lemma falsy_present_index (flags : option snapshot) (key : string) :
  falsy_present (opt_index flags key) = falsy_present (opt_member flags key).
Proof.
  unfold opt_index, opt_member, inherited. destruct flags as [o |]; [| done].
  destruct (o !! key) as [v |]; [done |]. simpl.
  by destruct (bool_decide (key ∈ Object_prototype)).
Qed.

(** In part_003, read from the same snapshot object, the synchronous
    [getFeatureFlag] and the hook [useFeatureFlag] give the same answer
    for every registered key and caller default, unless the value the
    snapshot holds for the key or the caller's default is one of the
    values [||] skips and [??] keeps ([false], [0], [NaN], the empty
    string).  (The object [getFeatureFlag] reads is the snapshot of the
    previous render until the provider's [flags] effect has run.) *)
Theorem part003_escape_hatch_agrees_with_hook (featureFlags : NamedFlags)
    (flags : option snapshot) (key : string) (flag : FeatureFlag)
    (callerDefault : value) :
  registered featureFlags key = Some flag →
  falsy_present (opt_member flags key) = false →
  falsy_present callerDefault = false →
  Part003.getFeatureFlagEscapeHatch featureFlags flags (VStr key) callerDefault
  = Part003.useFeatureFlag featureFlags flags key callerDefault.
Proof.
  intros Hflag Hlive Hd. rewrite <- falsy_present_index in Hlive.
  unfold Part003.getFeatureFlagEscapeHatch, Part003.useFeatureFlag.
  change (ToPropertyKey (VStr key)) with key.
  set (live := opt_index flags key) in *.
  rewrite (member_defaultVal_registered _ _ _ Hflag).
  unfold falsy_present in *. unfold or_else_val, coalesce_val, or_else, coalesce.
  destruct (truthy live) eqn:Hl.
  - rewrite (truthy_not_nullish _ Hl), Hl. simpl.
    by rewrite (truthy_not_nullish _ Hl).
  - simpl in Hlive. apply negb_false_iff in Hlive. rewrite Hlive.
    destruct (truthy callerDefault) eqn:Hc.
    + by rewrite (truthy_not_nullish _ Hc).
    + simpl in Hd. apply negb_false_iff in Hd. by rewrite Hd.
Qed.

Lemma part003_escape_hatch_agrees_witness :
  let flags : option snapshot :=
    Some {[ "example-number-feature-flag" := VNum 7 ]} in
  Part003.getFeatureFlagEscapeHatch exampleFlags flags
    (VStr "example-number-feature-flag") (VNum 5)
  = Part003.useFeatureFlag exampleFlags flags
      "example-number-feature-flag" (VNum 5)
  ∧ Part003.useFeatureFlag exampleFlags flags
      "example-number-feature-flag" (VNum 5) = Return (VNum 7).
Proof.
  cbv zeta. split; [| vm_compute; reflexivity].
  apply (part003_escape_hatch_agrees_with_hook exampleFlags
           (Some {[ "example-number-feature-flag" := VNum 7 ]})
           "example-number-feature-flag"
           {| type := NumberConstructor; defaultVal := VNum 123 |}
           (VNum 5) eq_refl).
  - vm_compute. reflexivity.
  - reflexivity.
Defined.

(** ** useAllFeatureFlags after its unmount *)

Section Part003HookUnmount.
Context (featureFlags : NamedFlags).
Import Part003.

Lemma h_cleanup_run_frame (h : consumer) :
  h_life (h_cleanup_run h) = h_life h
  ∧ h_flags (h_cleanup_run h) = h_flags h
  ∧ h_client (h_cleanup_run h) = h_client h.
Proof. unfold h_cleanup_run. by destruct (h_cleanup h) as [[c uniqueId] |]. Qed.

Lemma h_unmounted_step (h : consumer) (e : h_event) :
  h_life h = Unmounted → h_listeners h = [] →
  let h' := h_step featureFlags h e in
  h_life h' = Unmounted ∧ h_listeners h' = []
  ∧ h_flags h' = h_flags h ∧ h_calls h' = h_calls h.
Proof.
  intros Hl Ht. destruct e as [client | ldClient | t | | i r | c updatedKeys];
    simpl; try (by rewrite ?Hl).
  - destruct (h_pending h !! i) as [[updatedKey fetch] |]; [| done].
    destruct (settle fetch r); [| done]. unfold h_setFlags. simpl.
    by rewrite Hl.
  - by rewrite Ht.
Qed.

Lemma h_unmounted_run (h : consumer) (es : list h_event) :
  h_life h = Unmounted → h_listeners h = [] →
  let h' := h_run featureFlags h es in
  h_listeners h' = [] ∧ h_flags h' = h_flags h ∧ h_calls h' = h_calls h.
Proof.
  revert h. induction es as [| e es IH]; intros h Hl Ht; [done |].
  simpl. destruct (h_unmounted_step h e Hl Ht) as (Hl' & Ht' & <- & <-).
  by apply IH.
Qed.

Lemma h_unmount_clears (h : consumer) :
  hook_inv h → h_life h = Mounted →
  let u := h_step featureFlags h HUnmount in
  h_life u = Unmounted ∧ h_listeners u = [] ∧ h_flags u = h_flags h.
Proof.
  intros Hinv Hl.
  pose proof (hook_inv_step featureFlags h HUnmount Hinv) as Hu.
  simpl in *. rewrite Hl in *.
  destruct (h_cleanup_run_frame (h_with_life Unmounted h)) as (Hl' & Hf & _).
  unfold hook_inv in Hu. rewrite Hl' in Hu. simpl in Hu.
  by destruct Hu as [_ Hu].
Qed.
End Part003HookUnmount.

Section FactoryTsxHookUnmount.
Context (JSON_parse : value → outcome value) (featureFlags : NamedFlags).
Import FactoryTsx.

Lemma tsx_h_cleanup_run_frame (h : consumer) :
  h_life (h_cleanup_run h) = h_life h
  ∧ h_flags (h_cleanup_run h) = h_flags h
  ∧ h_client (h_cleanup_run h) = h_client h.
Proof. unfold h_cleanup_run. by destruct (h_cleanup h) as [[c listenerId] |]. Qed.

Lemma tsx_h_unmounted_step (h : consumer) (e : h_event) :
  h_life h = Unmounted → h_listeners h = [] →
  let h' := h_step JSON_parse featureFlags h e in
  h_life h' = Unmounted ∧ h_listeners h' = []
  ∧ h_flags h' = h_flags h ∧ h_calls h' = h_calls h.
Proof.
  intros Hl Ht. destruct e as [client | ldClient | | i r | c updatedKeys];
    simpl; try (by rewrite ?Hl).
  - destruct (h_pending h !! i) as [[updatedKey fetch] |]; [| done].
    destruct (settle fetch r); [| done]. unfold h_setFlags. simpl.
    by rewrite Hl.
  - by rewrite Ht.
Qed.

Lemma tsx_h_unmounted_run (h : consumer) (es : list h_event) :
  h_life h = Unmounted → h_listeners h = [] →
  let h' := h_run JSON_parse featureFlags h es in
  h_listeners h' = [] ∧ h_flags h' = h_flags h ∧ h_calls h' = h_calls h.
Proof.
  revert h. induction es as [| e es IH]; intros h Hl Ht; [done |].
  simpl. destruct (tsx_h_unmounted_step h e Hl Ht) as (Hl' & Ht' & <- & <-).
  by apply IH.
Qed.

Lemma tsx_h_unmount_clears (h : consumer) :
  tsx_hook_inv h → h_life h = Mounted →
  let u := h_step JSON_parse featureFlags h HUnmount in
  h_life u = Unmounted ∧ h_listeners u = [] ∧ h_flags u = h_flags h.
Proof.
  intros Hinv Hl.
  pose proof (tsx_hook_inv_step JSON_parse featureFlags h HUnmount Hinv) as Hu.
  simpl in *. rewrite Hl in *.
  destruct (tsx_h_cleanup_run_frame (h_with_life Unmounted h)) as (Hl' & Hf & _).
  unfold tsx_hook_inv in Hu. rewrite Hl' in Hu. simpl in Hu.
  by destruct Hu as [_ Hu].
Qed.
End FactoryTsxHookUnmount.

(** In both iterations, unmounting a component that uses
    [useAllFeatureFlags] leaves no all-flags listener of the hook in the
    SDK's table, and from then on nothing that happens (a batch of
    changed keys reported by the SDK, a fetch that settles late, a new
    client in the closure, a stray render or a second unmount) changes
    the hook's snapshot, brings a listener back, or makes the hook call
    the client or the console. *)
Theorem useAllFeatureFlags_unmount_is_final (JSON_parse : value → outcome value)
    (featureFlags : NamedFlags)
    (es late : list Part003.h_event) (es' late' : list FactoryTsx.h_event) :
  let h := Part003.h_run featureFlags Part003.h_initial es in
  let h' := FactoryTsx.h_run JSON_parse featureFlags
              (FactoryTsx.h_initial featureFlags) es' in
  Part003.h_life h = Mounted → FactoryTsx.h_life h' = Mounted →
  let u := Part003.h_step featureFlags h Part003.HUnmount in
  let u' := FactoryTsx.h_step JSON_parse featureFlags h' FactoryTsx.HUnmount in
  let v := Part003.h_run featureFlags u late in
  let v' := FactoryTsx.h_run JSON_parse featureFlags u' late' in
  (Part003.h_listeners u = [] ∧ Part003.h_listeners v = []
   ∧ Part003.h_flags v = Part003.h_flags h
   ∧ Part003.h_calls v = Part003.h_calls u)
  ∧ (FactoryTsx.h_listeners u' = [] ∧ FactoryTsx.h_listeners v' = []
     ∧ FactoryTsx.h_flags v' = FactoryTsx.h_flags h'
     ∧ FactoryTsx.h_calls v' = FactoryTsx.h_calls u').
Proof.
  cbv zeta. intros Hl Hl'.
  pose proof (hook_inv_run featureFlags _ es hook_inv_initial) as Hinv.
  pose proof (tsx_hook_inv_run JSON_parse featureFlags _ es'
                (tsx_hook_inv_initial featureFlags)) as Hinv'.
  destruct (h_unmount_clears featureFlags _ Hinv Hl) as (Hu & Ht & Hf).
  destruct (tsx_h_unmount_clears JSON_parse featureFlags _ Hinv' Hl')
    as (Hu' & Ht' & Hf').
  destruct (h_unmounted_run featureFlags _ late Hu Ht) as (H1 & H2 & H3).
  destruct (tsx_h_unmounted_run JSON_parse featureFlags _ late' Hu' Ht')
    as (H1' & H2' & H3').
  split; split_and!; try done; congruence.
Qed.

Lemma useAllFeatureFlags_unmount_witness :
  let h := Part003.h_run exampleFlags Part003.h_initial
             [Part003.GlobalSet 0; Part003.Provide (Ready 0);
              Part003.HSettle 1 (Return (VNum 7))] in
  let u := Part003.h_step exampleFlags h Part003.HUnmount in
  let v := Part003.h_run exampleFlags u
             [Part003.FlagsChanged 0 ["example-number-feature-flag"];
              Part003.HSettle 0 (Return (VBool true))] in
  length (Part003.h_listeners h) = 1
  ∧ Part003.h_listeners v = []
  ∧ Part003.h_flags v = Part003.h_flags h.
Proof.
  cbv zeta. split; [vm_compute; reflexivity |].
  destruct (useAllFeatureFlags_unmount_is_final (λ _, Throw SyntaxError)
              exampleFlags
              [Part003.GlobalSet 0; Part003.Provide (Ready 0);
               Part003.HSettle 1 (Return (VNum 7))]
              [Part003.FlagsChanged 0 ["example-number-feature-flag"];
               Part003.HSettle 0 (Return (VBool true))]
              [FactoryTsx.GlobalSet 0; FactoryTsx.Provide (Some 0)]
              []
              ltac:(vm_compute; reflexivity) ltac:(vm_compute; reflexivity))
    as [(_ & H1 & H2 & _) _].
  split; [exact H1 | exact H2].
Defined.


(** ** The keys of the hook's snapshot in part_003 *)

Section Part003HookDeclared.
Context (featureFlags : NamedFlags).
Import Part003.

Lemma h_declared_fetch (h : consumer) (updatedKey : string) :
  h_declared_inv featureFlags h →
  h_declared_inv featureFlags (h_fetch featureFlags h updatedKey).
Proof.
  intros (Hp & Hf). unfold h_declared_inv, h_fetch, h_emit. simpl.
  split; [| done]. apply Forall_app_2; [done |]. apply Forall_singleton.
  unfold h_declared_task, getFeatureFlagAsync, opt_defaultVal. simpl.
  destruct (registered featureFlags updatedKey) as [flag |]; [by left |].
  right. case_bool_decide as Hproto; [| left; by eexists _, _].
  destruct (h_global h); [left; by eexists _, _ |].
  right. split; [done |]. by eexists.
Qed.

Lemma h_declared_listener (updatedKeys : list string) (h : consumer) :
  h_declared_inv featureFlags h →
  h_declared_inv featureFlags (h_listener featureFlags updatedKeys h).
Proof.
  intros Hh. unfold h_listener.
  induction updatedKeys as [| key keys IH] using rev_ind; [done |].
  rewrite foldl_app. simpl. by apply h_declared_fetch.
Qed.

Lemma h_declared_cleanup_run (h : consumer) :
  h_declared_inv featureFlags h → h_declared_inv featureFlags (h_cleanup_run h).
Proof. unfold h_cleanup_run. by destruct (h_cleanup h) as [[c uniqueId] |]. Qed.

Lemma h_declared_effect_body (h : consumer) :
  h_declared_inv featureFlags h →
  h_declared_inv featureFlags (h_effect_body featureFlags h).
Proof.
  intros Hh. unfold h_effect_body. destruct (h_client h) as [| | c]; try done.
  set (h1 := h_with_listeners _ _).
  assert (h_declared_inv featureFlags
            (h_listener featureFlags (Object_keys featureFlags) h1)) as H
    by (by apply h_declared_listener).
  exact H.
Qed.

Lemma h_declared_step (h : consumer) (e : h_event) :
  h_declared_inv featureFlags h →
  h_declared_inv featureFlags (h_step featureFlags h e).
Proof.
  intros Hh. destruct e as [client | ldClient | t | | i r | c updatedKeys];
    simpl; try done.
  - destruct (h_life h); [| | done].
    + by apply h_declared_effect_body.
    + case_bool_decide; [done |].
      apply h_declared_effect_body.
      by apply (h_declared_cleanup_run (h_with_client client h)).
  - destruct (h_life h); try done.
    by apply (h_declared_cleanup_run (h_with_life Unmounted h)).
  - destruct (h_pending h !! i) as [[updatedKey fetch] |] eqn:Hi; [| done].
    destruct Hh as (Hp & Hf).
    pose proof (Forall_lookup_1 _ _ _ _ Hp Hi) as Ht.
    pose proof (Forall_remove_nth _ _ i Hp) as Hp'.
    destruct (settle fetch r) as [v | err] eqn:Hs; [| done].
    unfold h_setFlags. simpl. destruct (h_life h); try done.
    split; [done |]. simpl. intros k v'. rewrite lookup_insert_Some.
    intros [[<- <-] | [_ Hk]]; [| by apply (Hf k)].
    destruct Ht as [Ht | [(logged & err & Hfetch) | (Hproto & logged & Hfetch)]];
      try (simpl in Hfetch).
    + by left.
    + by rewrite Hfetch in Hs.
    + rewrite Hfetch in Hs. simpl in Hs. injection Hs as <-. by right.
  - induction (listening_all c (h_listeners h)) as [| l ls IH] using rev_ind;
      [done |].
    rewrite foldl_app. simpl. by apply h_declared_listener.
Qed.

Lemma h_declared_run (es : list h_event) :
  h_declared_inv featureFlags (h_run featureFlags h_initial es).
Proof.
  induction es as [| e es IH] using rev_ind.
  - split; [done |]. simpl. intros key v Hv. by rewrite lookup_empty in Hv.
  - unfold h_run in *. rewrite foldl_app. simpl. by apply h_declared_step.
Qed.
End Part003HookDeclared.

(** In part_003 the object [useAllFeatureFlags] returns has no property
    under a name that is neither a property of the registry nor
    inherited from [Object.prototype], whatever keys the SDK lists in its
    batches and however the fetches settle: [getFeatureFlagAsync] refuses
    such a name, so the listener's callback for it ends before its
    [setFlags].  Under a name the registry only inherits the object can
    get a property, and then its value is [undefined]: the fetch for it
    resolves (to [undefined]) while the closure holds no client, and is
    rejected afterwards. *)
Theorem part003_useAllFeatureFlags_stores_declared_keys
    (featureFlags : NamedFlags) (es : list Part003.h_event) (key : string) :
  registered featureFlags key = None →
  let flags := Part003.h_flags
                 (Part003.h_run featureFlags Part003.h_initial es) in
  (key ∉ Object_prototype → flags !! key = None)
  ∧ (flags !! key = None ∨ flags !! key = Some VUndefined).
Proof.
  intros Hkey. cbv zeta.
  destruct (h_declared_run featureFlags es) as (_ & Hf).
  destruct (_ !! key) as [v |] eqn:E; [| by split; [| left]].
  destruct (Hf key v E) as [[flag Hflag] | [Hproto ->]]; [congruence |].
  split; [done | by right].
Qed.

Lemma part003_useAllFeatureFlags_keys_witness :
  let h := Part003.h_run exampleFlags Part003.h_initial
             [Part003.Provide (Ready 0);
              Part003.FlagsChanged 0 ["not-a-flag"; "constructor"];
              Part003.HSettle 5 (Return (VBool true));
              Part003.HSettle 4 (Return (VBool true));
              Part003.GlobalSet 0;
              Part003.FlagsChanged 0 ["example-boolean-feature-flag"];
              Part003.HSettle 4 (Return (VBool true))] in
  Part003.h_flags h !! "not-a-flag" = None
  ∧ Part003.h_flags h !! "constructor" = Some VUndefined
  ∧ Part003.h_flags h !! "example-boolean-feature-flag" = Some (VBool true).
Proof.
  cbv zeta. split; [| split; vm_compute; reflexivity].
  destruct (part003_useAllFeatureFlags_stores_declared_keys exampleFlags
              [Part003.Provide (Ready 0);
               Part003.FlagsChanged 0 ["not-a-flag"; "constructor"];
               Part003.HSettle 5 (Return (VBool true));
               Part003.HSettle 4 (Return (VBool true));
               Part003.GlobalSet 0;
               Part003.FlagsChanged 0 ["example-boolean-feature-flag"];
               Part003.HSettle 4 (Return (VBool true))]
              "not-a-flag" eq_refl) as [Hnone _].
  apply Hnone. vm_compute. intros H.
  repeat (apply elem_of_cons in H as [H | H]; [done |]).
  by apply elem_of_nil in H.
Defined.


(** ** The client a listener of factory.tsx asks *)

Section FactoryTsxLatest.
Context (JSON_parse : value → outcome value) (featureFlags : NamedFlags).
Import FactoryTsx.

Lemma tsx_latest_listener (key : string) (w : provider) :
  let w' := listener key w in
  filter constructs (calls w') = filter constructs (calls w)
  ∧ constructed w' = constructed w ∧ singletons w' = singletons w.
Proof.
  unfold listener, suspend, emit. simpl.
  by rewrite filter_app, filter_constructs_calls_of, app_nil_r.
Qed.

Lemma tsx_latest_listeners (key : string) (ls : flagListenerTable)
    (w : provider) :
  let w' := foldl (λ w _, listener key w) w ls in
  filter constructs (calls w') = filter constructs (calls w)
  ∧ constructed w' = constructed w ∧ singletons w' = singletons w.
Proof.
  cbv zeta. induction ls as [| l ls IH] using rev_ind; [done |].
  rewrite foldl_app. simpl. destruct IH as (<- & <- & <-).
  apply tsx_latest_listener.
Qed.

Lemma tsx_latest_subscribe_all (c : LDClient) (keys : list string)
    (w : provider) :
  let w' := foldl (subscribe c) w keys in
  filter constructs (calls w') = filter constructs (calls w)
  ∧ constructed w' = constructed w ∧ singletons w' = singletons w.
Proof.
  cbv zeta. induction keys as [| key keys IH] using rev_ind; [done |].
  rewrite foldl_app. simpl. destruct IH as (<- & <- & <-).
  set (w1 := foldl (subscribe c) w keys).
  destruct (tsx_latest_listener key (with_closures (S (closures w1)) w1))
    as (Hc & Hn & Hs).
  unfold subscribe, emit. simpl in *.
  by rewrite filter_app, Hc, app_nil_r.
Qed.

Lemma tsx_latest_effect_init (context : option LDContext)
    (config : option LDConfig) (w : provider) :
  tsx_latest_inv JSON_parse featureFlags w →
  tsx_latest_inv JSON_parse featureFlags
    (effect_init JSON_parse featureFlags context config w).
Proof.
  intros (Hc & Hs). unfold effect_init.
  destruct context as [context |], config as [config |]; try done.
  match goal with
  | |- tsx_latest_inv _ _ (foldl (subscribe ?c) ?w0 ?keys) =>
      destruct (tsx_latest_subscribe_all c keys w0) as (Hc' & Hn' & Hs')
  end.
  unfold tsx_latest_inv. rewrite Hc', Hn', Hs'.
  unfold setClient, emit. cbn -[seq].
  destruct (life w); cbn -[seq]; rewrite filter_app, Hc, seq_S, fmap_app;
    done.
Qed.

Lemma tsx_latest_step (w : provider) (e : event) :
  tsx_latest_inv JSON_parse featureFlags w →
  tsx_latest_inv JSON_parse featureFlags (step JSON_parse featureFlags w e).
Proof.
  intros Hw. destruct e as [context config | | i r | c key]; simpl.
  - destruct (life w); [| | done].
    + by apply tsx_latest_effect_init.
    + case_bool_decide; [done |]. by apply tsx_latest_effect_init.
  - by destruct (life w).
  - destruct (pending w !! i) as [[key fetch] |]; [| done]. simpl.
    destruct (settle fetch r); [| done]. unfold setFlags. simpl.
    by destruct (life w).
  - destruct (tsx_latest_listeners key (listening c key (flagListeners w)) w)
      as (Hc & Hn & Hs).
    unfold tsx_latest_inv in *. by rewrite Hc, Hn, Hs.
Qed.

Lemma tsx_latest_run (es : list event) :
  tsx_latest_inv JSON_parse featureFlags
    (run JSON_parse featureFlags (initial featureFlags) es).
Proof.
  induction es as [| e es IH] using rev_ind; [done |].
  unfold run in *. rewrite foldl_app. simpl. by apply tsx_latest_step.
Qed.

(** What the listeners called for one change event leave behind, when
    the closure's fetcher issues the call [vc]. *)
Lemma tsx_listeners_ask (key : string) (vc : variationCall)
    (k : value → outcome value) (ls : flagListenerTable) (w : provider) :
  getFeatureFlag (singletons w) (VStr key) VUndefined = Awaiting vc k →
  let w' := foldl (λ w _, listener key w) w ls in
  pending w' = pending w ++ replicate (length ls) (AwaitFlag key (Awaiting vc k))
  ∧ calls w' = calls w ++ replicate (length ls) (Variation vc)
  ∧ flags w' = flags w ∧ flagListeners w' = flagListeners w.
Proof.
  intros Hfetch. cbv zeta. induction ls as [| l ls IH] using rev_ind.
  - simpl. by rewrite !app_nil_r.
  - rewrite foldl_app. simpl. destruct IH as (Hp & Hc & Hf & Ht).
    destruct (tsx_latest_listeners key ls w) as (_ & _ & Hs).
    set (w1 := foldl (λ w _, listener key w) w ls) in *.
    unfold listener, suspend, emit. simpl.
    rewrite Hs, Hfetch, Hp, Hc, Hf, Ht, length_app, <- !app_assoc. simpl.
    split_and!; try done; f_equal;
      by rewrite Nat.add_comm, <- replicate_cons_app.
Qed.
End FactoryTsxLatest.

(** In factory.tsx the closure holds the client the provider constructed
    last, and a per-flag listener asks that client, whichever client
    reported the change: after an initialization, a change of a registry
    key reported on client [c] makes each listener registered for the key
    on [c] (listeners on earlier clients are still registered) issue the
    variation call of the key's declared type on the newest client, with
    the registry's default, and nothing else happens. *)
Theorem factory_tsx_listeners_ask_latest_client
    (JSON_parse : value → outcome value) (featureFlags : NamedFlags)
    (es : list FactoryTsx.event) (c newest : LDClient) (key : string)
    (flag : FeatureFlag) :
  let w := FactoryTsx.run JSON_parse featureFlags
             (FactoryTsx.initial featureFlags) es in
  last (filter constructs (FactoryTsx.calls w)) = Some (NewLDClient newest) →
  registered featureFlags key = Some flag →
  let w' := FactoryTsx.step JSON_parse featureFlags w
              (FactoryTsx.FlagChanged c key) in
  let n := length (listening c key (FactoryTsx.flagListeners w)) in
  let vc := {| vc_client := newest; vc_method := variation_for (type flag);
               vc_key := VStr key; vc_default := defaultVal flag |} in
  let k := match type flag with
           | ObjectConstructor => JSON_parse
           | _ => Return
           end in
  FactoryTsx.getGlobalLdClient (FactoryTsx.singletons w) = Some newest
  ∧ FactoryTsx.pending w'
    = FactoryTsx.pending w
      ++ replicate n (FactoryTsx.AwaitFlag key (Awaiting vc k))
  ∧ FactoryTsx.calls w' = FactoryTsx.calls w ++ replicate n (Variation vc)
  ∧ FactoryTsx.flags w' = FactoryTsx.flags w
  ∧ FactoryTsx.flagListeners w' = FactoryTsx.flagListeners w.
Proof.
  cbv zeta. intros Hlast Hflag.
  destruct (tsx_latest_run JSON_parse featureFlags es) as (Hc & Hs).
  set (w := FactoryTsx.run JSON_parse featureFlags
              (FactoryTsx.initial featureFlags) es) in *.
  rewrite Hc in Hlast.
  destruct (FactoryTsx.constructed w) as [| m]; [done |].
  rewrite seq_S, fmap_app in Hlast. cbn -[seq] in Hlast.
  rewrite last_snoc in Hlast.
  injection Hlast as ->. simpl in Hs.
  split; [by rewrite Hs |].
  apply tsx_listeners_ask.
  rewrite Hs. unfold FactoryTsx.getFeatureFlag. simpl.
  by rewrite (factory_tsx_fetch_registered _ _ _ _ _ _ Hflag).
Qed.

Lemma factory_tsx_listeners_ask_latest_witness :
  let w := FactoryTsx.run Return exampleFlags (FactoryTsx.initial exampleFlags)
             [FactoryTsx.Render (Some 1) (Some 1);
              FactoryTsx.Render (Some 2) (Some 1)] in
  let w' := FactoryTsx.step Return exampleFlags w
              (FactoryTsx.FlagChanged 0 "example-number-feature-flag") in
  FactoryTsx.getGlobalLdClient (FactoryTsx.singletons w) = Some 1
  ∧ FactoryTsx.calls w'
    = FactoryTsx.calls w
      ++ [Variation {| vc_client := 1; vc_method := numberVariation;
                       vc_key := VStr "example-number-feature-flag";
                       vc_default := VNum 123 |}].
Proof.
  cbv zeta.
  destruct (factory_tsx_listeners_ask_latest_client Return exampleFlags
              [FactoryTsx.Render (Some 1) (Some 1);
               FactoryTsx.Render (Some 2) (Some 1)]
              0 1 "example-number-feature-flag"
              {| type := NumberConstructor; defaultVal := VNum 123 |}
              ltac:(vm_compute; reflexivity) eq_refl)
    as (Hg & _ & Hcalls & _).
  split; [exact Hg |]. rewrite Hcalls. reflexivity.
Defined.
